(** * Frontera: route and dispatch synchronisation jobs

    A shallow embedding of the Python jobs that copy routes and dispatches
    from the tracking API into the document store, enrich the dispatches and
    close the routes, together with the properties of the jobs that the
    specification states.

    Conventions of the embedding.
    - A Python/BSON value is a [value]; a dict or a stored document is an
      association list read at its first binding, so field order is kept as
      BSON keeps it.
    - A collection is the list of its documents in insertion order. The
      [_id] of a document is its position in that list: it is unique, never
      changes and is never written by a job, which is all the jobs rely on.
    - Text is UTF-8. [len] and the slices count characters; [strip],
      [lower] and [upper] follow Python on the code points below 128 and
      leave the other bytes alone. [isdigit] and [int] follow Python on the
      ASCII texts, and take from the runtime what depends on the Unicode
      tables or on the limits of the interpreter: the properties hold
      whatever these are.
    - Exceptions are values of [res]; a job that may stop half-way returns
      the store it reached together with its outcome.
    - The clock and the upstream API are inputs of the jobs. *)

From Stdlib Require Import ZArith String Ascii List Bool Lia.
From Stdlib Require Import Floats.SpecFloat DecimalString DecimalZ.
From stdpp Require Import base option list strings gmap.

Local Open Scope string_scope.
Local Open Scope Z_scope.
Local Open Scope list_scope.
Local Set Warnings "-register-all".

(** ** Python values *)

Inductive value : Type :=
| VNone
| VBool (b : bool)
| VInt (z : Z)
| VFloat (f : spec_float)
| VStr (s : string)
| VDate (t : Z)
| VOid (n : nat)
| VList (l : list value)
| VDict (d : list (string * value)).

Abbreviation dict := (list (string * value)).

(** Exceptions the jobs can meet. *)
Inductive exn : Type :=
| AttributeError
| TypeError
| KeyError
| ValueError
| OverflowError
| DispatchTrackAPIError
| OtherError (msg : string).

Inductive res (A : Type) : Type :=
| Ok (a : A)
| Raise (e : exn).
Arguments Ok {A} a.
Arguments Raise {A} e.

Definition res_bind {A B} (r : res A) (k : A -> res B) : res B :=
  match r with
  | Ok a => k a
  | Raise e => Raise e
  end.

Notation "'let?' x := r 'in' k" := (res_bind r (fun x => k))
  (at level 10, x name, r at level 100, k at level 200).

(** A [for] loop whose body may raise: the loop stops at the first
    exception and keeps the state reached so far. *)
Fixpoint for_each {A S : Type} (body : A -> S -> S * res unit)
    (l : list A) (s : S) : S * res unit :=
  match l with
  | [] => (s, Ok tt)
  | a :: l' =>
      match body a s with
      | (s', Ok _) => for_each body l' s'
      | (s', Raise e) => (s', Raise e)
      end
  end.

(** *** Dictionaries *)

Fixpoint dict_lookup (k : string) (d : dict) : option value :=
  match d with
  | [] => None
  | (k', v) :: d' => if String.eqb k k' then Some v else dict_lookup k d'
  end.

(** [d.get(k)]: [None] when the key is missing. *)
Definition get (k : string) (d : dict) : value :=
  default VNone (dict_lookup k d).

(** [d.get(k, dflt)]. *)
Definition get_default (k : string) (dflt : value) (d : dict) : value :=
  default dflt (dict_lookup k d).

(** [k in d]. *)
Definition has_key (k : string) (d : dict) : bool :=
  bool_decide (is_Some (dict_lookup k d)).

(** [d[k] = v]: the binding is replaced in place, or added at the end. *)
Fixpoint dict_set (k : string) (v : value) (d : dict) : dict :=
  match d with
  | [] => [(k, v)]
  | (k', v') :: d' =>
      if String.eqb k k' then (k, v) :: d' else (k', v') :: dict_set k v d'
  end.

(** [x.get(k)] on a value that need not be a dict. *)
Definition attr_get (k : string) (x : value) : res value :=
  match x with
  | VDict d => Ok (get k d)
  | _ => Raise AttributeError
  end.

(** [x.get(k, dflt)] on a value that need not be a dict. *)
Definition attr_get_default (k : string) (dflt : value) (x : value)
    : res value :=
  match x with
  | VDict d => Ok (get_default k dflt d)
  | _ => Raise AttributeError
  end.

(** *** Truth values, [or], [is] *)

Definition float_is_zero (f : spec_float) : bool :=
  match f with
  | S754_zero _ => true
  | _ => false
  end.

(** [math.isnan] and [math.isinf]. *)
Definition isnan (f : spec_float) : bool :=
  match f with
  | S754_nan => true
  | _ => false
  end.

Definition isinf (f : spec_float) : bool :=
  match f with
  | S754_infinity _ => true
  | _ => false
  end.

Definition truthy (v : value) : bool :=
  match v with
  | VNone => false
  | VBool b => b
  | VInt z => negb (z =? 0)
  | VFloat f => negb (float_is_zero f)
  | VStr s => negb (String.eqb s "")
  | VDate _ => true
  | VOid _ => true
  | VList l => negb (bool_decide (l = []))
  | VDict d => negb (bool_decide (d = []))
  end.

Definition py_or (a b : value) : value := if truthy a then a else b.

Definition is_None (v : value) : bool :=
  match v with
  | VNone => true
  | _ => false
  end.

Definition is_True (v : value) : bool :=
  match v with
  | VBool true => true
  | _ => false
  end.

(** [v == s] for a string literal [s]. *)
Definition eq_str (v : value) (s : string) : bool :=
  match v with
  | VStr s' => String.eqb s' s
  | _ => false
  end.

(** *** Text *)

Definition code (c : ascii) : N := N_of_ascii c.

(** [str.isspace] below 128: tab to carriage return, the four separators
    0x1c to 0x1f, and the space. *)
Definition is_space (c : ascii) : bool :=
  ((9 <=? code c) && (code c <=? 13) || (28 <=? code c) && (code c <=? 32))%N.

(** The digits 0 to 9. *)
Definition is_digit (c : ascii) : bool :=
  ((48 <=? code c) && (code c <=? 57))%N.

Definition lower_char (c : ascii) : ascii :=
  if ((65 <=? code c) && (code c <=? 90))%N then ascii_of_N (code c + 32) else c.

Definition upper_char (c : ascii) : ascii :=
  if ((97 <=? code c) && (code c <=? 122))%N then ascii_of_N (code c - 32) else c.

Fixpoint map_chars (f : ascii -> ascii) (s : string) : string :=
  match s with
  | EmptyString => EmptyString
  | String c s' => String (f c) (map_chars f s')
  end.

Definition lower : string -> string := map_chars lower_char.
Definition upper : string -> string := map_chars upper_char.

Fixpoint lstrip (s : string) : string :=
  match s with
  | EmptyString => EmptyString
  | String c s' => if is_space c then lstrip s' else s
  end.

Fixpoint rstrip (s : string) : string :=
  match s with
  | EmptyString => EmptyString
  | String c s' =>
      match rstrip s' with
      | EmptyString => if is_space c then EmptyString else String c EmptyString
      | r => String c r
      end
  end.

Definition strip (s : string) : string := rstrip (lstrip s).

Fixpoint all_digits (s : string) : bool :=
  match s with
  | EmptyString => true
  | String c s' => is_digit c && all_digits s'
  end.

(** An ASCII text: no byte above 127. *)
Fixpoint is_ascii_text (s : string) : bool :=
  match s with
  | EmptyString => true
  | String c s' => (code c <? 128)%N && is_ascii_text s'
  end.

(** A character of a text is a byte that is not a continuation byte,
    together with the continuation bytes that follow it. *)
Definition is_cont (c : ascii) : bool :=
  ((128 <=? code c) && (code c <=? 191))%N.

(** [len(s)]. *)
Fixpoint py_len (s : string) : nat :=
  match s with
  | EmptyString => 0%nat
  | String c s' => ((if is_cont c then 0 else 1) + py_len s')%nat
  end.

(** The continuation bytes at the head of a text, and what follows them. *)
Fixpoint take_cont (s : string) : string :=
  match s with
  | EmptyString => EmptyString
  | String c s' => if is_cont c then String c (take_cont s') else EmptyString
  end.

Fixpoint skip_cont (s : string) : string :=
  match s with
  | EmptyString => EmptyString
  | String c s' => if is_cont c then skip_cont s' else s
  end.

(** [s[n:]] and [s[:n]]. *)
Fixpoint drop_chars (n : nat) (s : string) {struct n} : string :=
  match n, s with
  | O, _ => s
  | S _, EmptyString => EmptyString
  | S n', String _ s' => drop_chars n' (skip_cont s')
  end.

Fixpoint take_chars (n : nat) (s : string) {struct n} : string :=
  match n, s with
  | O, _ => EmptyString
  | S _, EmptyString => EmptyString
  | S n', String c s' =>
      String c (String.append (take_cont s') (take_chars n' (skip_cont s')))
  end.

(** [s[a:b]]. *)
Definition py_slice (a b : nat) (s : string) : string :=
  take_chars (b - a) (drop_chars a s).

(** *** The runtime *)

(** What the jobs take from the interpreter: [repr], needed by [str] for
    the values whose text the jobs never look into (finite floats, dates,
    object ids, lists and dicts); [str.isdigit] on a text that is not
    ASCII, which follows the Unicode tables; and [int] on a text that is
    not made of ASCII digits, or of more of them than every interpreter
    parses. Nothing is assumed of them: [int] may raise on a text for
    which [isdigit] holds, as it does on a superscript two. *)
Class PyRuntime := {
  py_repr : value -> string;
  unicode_isdigit : string -> bool;
  int_other : string -> res Z;
}.

(** [s.isdigit()]: on an ASCII text, at least one character, and all of
    them digits. *)
Definition isdigit `{PyRuntime} (s : string) : bool :=
  if is_ascii_text s then negb (String.eqb s "") && all_digits s
  else unicode_isdigit s.

(** The longest text of digits that [int] parses whatever the limit set
    on the interpreter. *)
Definition int_max_str_digits : nat := 640.

(** [int(s)]: the number that a text of ASCII digits writes; a longer text
    of digits may be refused, and any other text is left to the runtime. *)
Definition py_int `{PyRuntime} (s : string) : res Z :=
  match NilEmpty.uint_of_string s with
  | Some d =>
      if negb (String.eqb s "") && (String.length s <=? int_max_str_digits)%nat
      then Ok (Z.of_uint d)
      else int_other s
  | None => int_other s
  end.

Definition str_of_Z (z : Z) : string :=
  NilZero.string_of_int (Z.to_int z).

Definition py_str `{PyRuntime} (v : value) : string :=
  match v with
  | VNone => "None"
  | VBool true => "True"
  | VBool false => "False"
  | VInt z => str_of_Z z
  | VStr s => s
  | VFloat S754_nan => "nan"
  | VFloat (S754_infinity false) => "inf"
  | VFloat (S754_infinity true) => "-inf"
  | _ => py_repr v
  end.

(** ** The document store *)

Abbreviation collection := (list dict).

(** *** Equality of stored values

    Numbers are compared by value across the integer and floating types,
    NaN equals NaN, and documents are compared with their field order. *)

Definition float_eq (f g : spec_float) : bool :=
  match SFcompare f g with
  | Some Eq => true
  | Some _ => false
  | None => isnan f && isnan g
  end.

(** The integer a float is equal to, when there is one. *)
Definition float_to_Z (f : spec_float) : option Z :=
  match f with
  | S754_zero _ => Some 0
  | S754_finite s m e =>
      let z := if s then Z.neg m else Z.pos m in
      if 0 <=? e then Some (z * 2 ^ e)
      else if Z.pos m mod 2 ^ (- e) =? 0 then Some (z / 2 ^ (- e))
      else None
  | _ => None
  end.

Definition float_eq_Z (f : spec_float) (z : Z) : bool :=
  match float_to_Z f with
  | Some z' => z' =? z
  | None => false
  end.

Fixpoint bson_eq (a b : value) : bool :=
  match a, b with
  | VNone, VNone => true
  | VBool x, VBool y => Bool.eqb x y
  | VInt x, VInt y => x =? y
  | VFloat x, VFloat y => float_eq x y
  | VInt x, VFloat y => float_eq_Z y x
  | VFloat x, VInt y => float_eq_Z x y
  | VStr x, VStr y => String.eqb x y
  | VDate x, VDate y => x =? y
  | VOid x, VOid y => Nat.eqb x y
  | VList x, VList y =>
      (fix go (l1 l2 : list value) : bool :=
         match l1, l2 with
         | [], [] => true
         | a1 :: l1', b1 :: l2' => bson_eq a1 b1 && go l1' l2'
         | _, _ => false
         end) x y
  | VDict x, VDict y =>
      (fix go (l1 l2 : dict) : bool :=
         match l1, l2 with
         | [], [] => true
         | (k1, a1) :: l1', (k2, b1) :: l2' =>
             String.eqb k1 k2 && bson_eq a1 b1 && go l1' l2'
         | _, _ => false
         end) x y
  | _, _ => false
  end.

(** *** Queries

    The conditions the jobs put on a field. A filter is the conjunction of
    its conditions. *)

Inductive cond : Type :=
| CEq (q : value)          (* {field: q} *)
| CNe (q : value)          (* {field: {"$ne": q}} *)
| CIn (qs : list value)    (* {field: {"$in": qs}} *)
| CExists (b : bool).      (* {field: {"$exists": b}} *)

Abbreviation filter := (list (string * cond)).

(** [{field: q}]: the field equals [q], or is an array with an element
    equal to [q]; a missing field matches [null] only. *)
Definition field_eq (fld : option value) (q : value) : bool :=
  match fld with
  | None => is_None q
  | Some v =>
      bson_eq v q ||
      match v with
      | VList l => existsb (fun x => bson_eq x q) l
      | _ => false
      end
  end.

Definition matches_cond (c : cond) (fld : option value) : bool :=
  match c with
  | CEq q => field_eq fld q
  | CNe q => negb (field_eq fld q)
  | CIn qs => existsb (field_eq fld) qs
  | CExists b => Bool.eqb (bool_decide (is_Some fld)) b
  end.

Definition matches (q : filter) (d : dict) : bool :=
  forallb (fun kc => matches_cond kc.2 (dict_lookup kc.1 d)) q.

(** [col.find(q)]: the matching documents with their [_id], in store order. *)
Definition find (q : filter) (col : collection) : list (nat * dict) :=
  List.filter (fun id => matches q id.2) (imap (fun i d => (i, d)) col).

(** [col.find_one(q)]. *)
Definition find_one (q : filter) (col : collection) : option (nat * dict) :=
  head (find q col).

(** A projection that lists the fields to keep. *)
Definition project (fields : list string) (d : dict) : dict :=
  List.filter (fun kv => bool_decide (kv.1 ∈ fields)) d.

(** A query given as a predicate on the documents, for the queries that
    are more than a conjunction of field conditions. *)
Definition find_where (p : dict -> bool) (col : collection)
    : list (nat * dict) :=
  List.filter (fun id => p id.2) (imap (fun i d => (i, d)) col).

(** [{"$or": alts}]: one of the filters matches. *)
Definition matches_any (alts : list filter) (d : dict) : bool :=
  existsb (fun q => matches q d) alts.

(** The projection [{"p.q": 1}] below the field [p]: an embedded document
    keeps its field [q] only, an array keeps its embedded documents and
    arrays, projected the same way, and any other value is dropped. *)
Fixpoint project_in (q : string) (v : value) : option value :=
  match v with
  | VDict r => Some (VDict (project [q] r))
  | VList l =>
      Some (VList
        ((fix go (l : list value) : list value :=
            match l with
            | [] => []
            | x :: l' =>
                match project_in q x with
                | Some y => y :: go l'
                | None => go l'
                end
            end) l))
  | _ => None
  end.

Definition project_path (p q : string) (d : dict) : dict :=
  match dict_lookup p d with
  | Some v =>
      match project_in q v with
      | Some v' => [(p, v')]
      | None => []
      end
  | None => []
  end.

(** What the driver encodes, in a filter as in a document: an integer
    has to fit in 8 bytes, or the driver raises [OverflowError]. *)
Definition bson_int (z : Z) : bool := (- 2 ^ 63 <=? z) && (z <? 2 ^ 63).

Fixpoint encodable (v : value) : bool :=
  match v with
  | VInt z => bson_int z
  | VList l => forallb encodable l
  | VDict d =>
      (fix go (d : dict) : bool :=
         match d with
         | [] => true
         | (_, x) :: d' => encodable x && go d'
         end) d
  | _ => true
  end.

(** *** Updates *)

(** [{"$set": sets}] applied to a document. *)
Definition apply_set (sets : dict) (d : dict) : dict :=
  fold_left (fun acc kv => dict_set kv.1 kv.2 acc) sets d.

(** [col.update_one({"_id": i}, {"$set": sets})]. *)
Definition update_by_id (i : nat) (sets : dict) (col : collection) : collection :=
  alter (apply_set sets) i col.

(** The fields an upsert takes from the equality conditions of its filter. *)
Definition filter_fields (q : filter) : dict :=
  omap (fun kc => match kc.2 with CEq v => Some (kc.1, v) | _ => None end) q.

(** An [UpdateOne(filter, {"$set": .., "$setOnInsert": ..}, upsert=..)]. *)
Record UpdateOne : Type := mkUpdateOne {
  uo_filter : filter;
  uo_set : dict;
  uo_setOnInsert : dict;
  uo_upsert : bool;
}.

(** The first matching document is updated. Without a match an upsert
    inserts the filter's fields, then [$set], then [$setOnInsert]. *)
Definition update_one (op : UpdateOne) (col : collection) : collection :=
  match find_one (uo_filter op) col with
  | Some (i, _) => update_by_id i (uo_set op) col
  | None =>
      if uo_upsert op
      then col ++ [apply_set (uo_setOnInsert op)
                     (apply_set (uo_set op) (filter_fields (uo_filter op)))]
      else col
  end.

(** [col.bulk_write(ops, ordered=False)], the operations taken in the order
    of the list. *)
Definition bulk_write (ops : list UpdateOne) (col : collection) : collection :=
  fold_left (fun c op => update_one op c) ops col.

(** ** backfill_substatus.py *)

Module backfill_substatus.
Section job.
Context `{PyRuntime}.

Definition _is_bad_number (v : value) : bool :=
  match v with
  | VFloat f => isnan f || isinf f
  | _ => false
  end.

Definition _normalize_code (code : value) : option string :=
  if is_None code then None
  else if _is_bad_number code then None
  else
    let s := strip (py_str code) in
    if String.eqb s "" || String.eqb (lower s) "nan" then None
    else Some s.

(** The set of representations, as the list of its elements. *)
Definition _code_variants (code : value) : res (option (list value)) :=
  match _normalize_code code with
  | None => Ok None
  | Some norm =>
      if isdigit norm
      then (let? n := py_int norm in Ok (Some [VStr norm; VInt n]))
      else Ok (Some [VStr norm])
  end.

Definition _lookup_substatus (sub_col : collection) (code : value)
    : res (option dict) :=
  let? variants := _code_variants code in
  match variants with
  | None | Some [] => Ok None
  | Some variants =>
      if forallb encodable variants
      then Ok (project ["Código Sub"; "Estado Beetrack"; "Estado Guía"; "Cierre"]
                 <$> (snd <$> find_one [("Código Sub", CIn variants)] sub_col))
      else Raise OverflowError
  end.

(** The [update_fields] that [run] computes for one dispatch. *)
Definition update_fields (sub_col : collection) (disp : dict) : res dict :=
  let code := get "substatus_code" disp in
  let nulls := [("estado_beetrack", VNone); ("estado_guia", VNone);
                ("cierre", VNone)] in
  match _normalize_code code with
  | None => Ok nulls
  | Some _ =>
      let? mapping := _lookup_substatus sub_col code in
      match mapping with
      | Some mapping =>
          if truthy (VDict mapping)
          then Ok [("estado_beetrack", get "Estado Beetrack" mapping);
                   ("estado_guia", get "Estado Guía" mapping);
                   ("cierre", get "Cierre" mapping)]
          else Ok nulls
      | None => Ok nulls
      end
  end.

(** The body of the loop of [run]. *)
Definition visit (sub_col : collection) (disp : nat * dict)
    (disp_col : collection) : collection * res unit :=
  match update_fields sub_col disp.2 with
  | Ok fields => (update_by_id disp.1 fields disp_col, Ok tt)
  | Raise e => (disp_col, Raise e)
  end.

(** [run()]: every dispatch of the collection is visited and updated. The
    counters, which only feed the log, are left out. *)
Definition run (sub_col disp_col : collection) : collection * res unit :=
  for_each (visit sub_col) (find [] disp_col) disp_col.
End job.
End backfill_substatus.

(** ** trash/jobs/get_routes.py *)

Module get_routes.
Section job.
Context `{PyRuntime}.
(** [fetch_routes_page(date_str, page)] of the API client. *)
Variable fetch_routes_page : string -> Z -> res (list dict).

Fixpoint first_not_None (fields : list string) (route : dict)
    : option string :=
  match fields with
  | [] => None
  | field :: rest =>
      let value := get field route in
      if negb (is_None value) then Some (py_str value)
      else first_not_None rest route
  end.

Definition _extract_route_key (route : dict) : option string :=
  first_not_None ["number"; "route_number"; "id"] route.

(** The operation queued for one route of the page, when it has a key. *)
Definition route_op (date_str : string) (page now : Z) (route : dict)
    : option UpdateOne :=
  match _extract_route_key route with
  | None | Some "" => None
  | Some key =>
      Some {| uo_filter := [("route_key", CEq (VStr key))];
              uo_set := [("date", VStr date_str); ("page", VInt page);
                         ("minified_raw", VDict route);
                         ("last_refreshed_at", VDate now)];
              uo_setOnInsert := [("created_at", VDate now);
                                 ("has_full_details", VBool false);
                                 ("is_closed", VBool false)];
              uo_upsert := true |}
  end.

(** The loop over the page: the queued operations and [total_routes]. *)
Fixpoint page_ops (date_str : string) (page now : Z) (routes : list dict)
    (bulk_ops : list UpdateOne) (total_routes : Z) : list UpdateOne * Z :=
  match routes with
  | [] => (bulk_ops, total_routes)
  | route :: rest =>
      match route_op date_str page now route with
      | None => page_ops date_str page now rest bulk_ops total_routes
      | Some op =>
          page_ops date_str page now rest (bulk_ops ++ [op]) (total_routes + 1)
      end
  end.

Definition _upsert_routes_for_page (routes_col : collection)
    (date_str : string) (page now : Z) : collection * res Z :=
  match fetch_routes_page date_str page with
  | Raise e => (routes_col, Raise e)
  | Ok [] => (routes_col, Ok 0)
  | Ok routes_page =>
      let '(bulk_ops, total_routes) := page_ops date_str page now routes_page [] 0 in
      (match bulk_ops with
       | [] => routes_col
       | _ => bulk_write bulk_ops routes_col
       end, Ok total_routes)
  end.

(** The scan [page = 1, 2, ..] of [run], which stops at the first page
    without routes. The loop has no bound of its own: [fuel] pages are
    tried, and [None] says that the scan was still going on after them.
    The clock is read once per page. *)
Fixpoint scan (fuel : nat) (routes_col : collection) (date_str : string)
    (page : Z) (clock : Z -> Z) : collection * option (res unit) :=
  match fuel with
  | O => (routes_col, None)
  | S fuel' =>
      match _upsert_routes_for_page routes_col date_str page (clock page) with
      | (col', Raise e) => (col', Some (Raise e))
      | (col', Ok count) =>
          if count =? 0 then (col', Some (Ok tt))
          else scan fuel' col' date_str (page + 1) clock
      end
  end.

Definition run (fuel : nat) (routes_col : collection) (date_str : string)
    (specific_page : option Z) (clock : Z -> Z)
    : collection * option (res unit) :=
  match specific_page with
  | Some page =>
      match _upsert_routes_for_page routes_col date_str page (clock page) with
      | (col', Raise e) => (col', Some (Raise e))
      | (col', Ok _) => (col', Some (Ok tt))
      end
  | None => scan fuel routes_col date_str 1 clock
  end.
End job.
End get_routes.

(** ** trash/jobs/get_details_from_route.py *)

Module get_details_from_route.
Section job.
(** [fetch_route_details(route_key)] of the API client. *)
Variable fetch_route_details : value -> res value.

(** The payload is unwrapped from ["response"], then from ["route"]. *)
Definition unwrap (raw : value) : value :=
  let raw :=
    match raw with
    | VDict d => if has_key "response" d then get "response" d else raw
    | _ => raw
    end in
  match raw with
  | VDict d => if has_key "route" d then get "route" d else raw
  | _ => raw
  end.

(** The body of the loop over the open routes of the date. An API error
    is logged and the route skipped; any other exception ends the run. *)
Definition refresh (now : Z) (route_doc : nat * dict)
    (routes_col : collection) : collection * res unit :=
  let route_key := get "route_key" route_doc.2 in
  if negb (truthy route_key) then (routes_col, Ok tt)
  else
    match fetch_route_details route_key with
    | Raise DispatchTrackAPIError => (routes_col, Ok tt)
    | Raise e => (routes_col, Raise e)
    | Ok raw =>
        (update_by_id route_doc.1
           [("full_raw", unwrap raw); ("has_full_details", VBool true);
            ("last_refreshed_at", VDate now)] routes_col, Ok tt)
    end.

Definition run (routes_col : collection) (date_str : string) (now : Z)
    : collection * res unit :=
  let query := [("date", CEq (VStr date_str));
                ("is_closed", CNe (VBool true))] in
  for_each (refresh now) (find query routes_col) routes_col.
End job.
End get_details_from_route.

(** ** trash/jobs/close_route_if_all_dispatches_closed.py *)

Module close_route_if_all_dispatches_closed.
Section job.
Context `{PyRuntime}.

Definition _get_route_payload (route_doc : dict) : value :=
  py_or (py_or (get "full_raw" route_doc) (get "minified_raw" route_doc))
        (VDict []).

Fixpoint ids_loop (dispatches : list value) (ids : list string)
    : res (list string) :=
  match dispatches with
  | [] => Ok ids
  | disp :: rest =>
      let? ident := attr_get "identifier" disp in
      if is_None ident then ids_loop rest ids
      else ids_loop rest (ids ++ [py_str ident])
  end.

Definition _extract_dispatch_ids (route_payload : value)
    : res (list string) :=
  let? dispatches := attr_get "dispatches" route_payload in
  match dispatches with
  | VList l => ids_loop l []
  | _ => Ok []
  end.

(** [found]: dispatch_key -> [cierre is True], a later document of the
    cursor overwriting an earlier one with the same key. *)
Definition found_of (cursor : list (nat * dict)) : gmap string bool :=
  fold_left
    (fun found doc =>
       <[py_str (get "dispatch_key" doc.2) := is_True (get "cierre" doc.2)]>
         found)
    cursor ∅.

(** The loop that sets [all_closed] and collects the offending keys. *)
Definition check (found : gmap string bool) (dispatch_ids : list string)
    : bool * list string :=
  fold_left
    (fun (st : bool * list string) dk =>
       match found !! dk with
       | None => (false, st.2 ++ [String.append dk " (missing)"])
       | Some false => (false, st.2 ++ [String.append dk " (cierre!=true)"])
       | Some true => st
       end)
    dispatch_ids (true, []).

Definition mark_closed (now : Z) (i : nat) (routes_col : collection)
    : collection :=
  update_by_id i [("is_closed", VBool true); ("closed_at", VDate now)]
    routes_col.

(** [run(route_key)]: the routes collection after the run. Every
    exception comes before the first write, so nothing else is kept. *)
Definition run (routes_col disp_col : collection) (route_key : string)
    (now : Z) : res collection :=
  match find_one [("route_key", CEq (VStr route_key))] routes_col with
  | None => Ok routes_col
  | Some (i, route_doc) =>
      if is_True (get "is_closed" route_doc) then Ok routes_col
      else
        let route_payload := _get_route_payload route_doc in
        let? dispatch_ids := _extract_dispatch_ids route_payload in
        match dispatch_ids with
        | [] => Ok (mark_closed now i routes_col)
        | _ =>
            let cursor :=
              find [("dispatch_key", CIn (VStr <$> dispatch_ids))] disp_col in
            let found := found_of cursor in
            let '(all_closed, _) := check found dispatch_ids in
            if all_closed then Ok (mark_closed now i routes_col)
            else Ok routes_col
        end
  end.
End job.
End close_route_if_all_dispatches_closed.

Module closure := close_route_if_all_dispatches_closed.

(** ** trash/jobs/get_dispatches.py *)

Module get_dispatches.
Section job.
Context `{PyRuntime}.

Definition _get_route_payload (route_doc : dict) : value :=
  py_or (py_or (get "full_raw" route_doc) (get "minified_raw" route_doc))
        (VDict []).

Definition _extract_dispatch_list (route_payload : value)
    : res (list value) :=
  let? dispatches := attr_get "dispatches" route_payload in
  match dispatches with
  | VList l => Ok l
  | _ => Ok []
  end.

Definition _extract_route_meta (route_payload : value) : res dict :=
  let? dispatch_date := attr_get "dispatch_date" route_payload in
  let? truck0 := attr_get "truck" route_payload in
  let truck := py_or truck0 (VDict []) in
  let? truck_identifier := attr_get "identifier" truck in
  Ok [("dispatch_date", dispatch_date);
      ("truck_identifier", truck_identifier)].

Definition _extract_dispatch_key (dispatch : value) : res (option string) :=
  let? ident := attr_get "identifier" dispatch in
  if is_None ident then Ok None else Ok (Some (py_str ident)).

(** What [run] reads from the route document before its loop. *)
Record route_ctx : Type := mkCtx {
  route_id : value;
  route_key : string;
  route_dispatch_date : value;
  route_page : value;
  truck_identifier : value;
  now_utc : Z;
}.

Definition flattened (disp : dict) : dict :=
  [("status", get "status" disp);
   ("status_id", get "status_id" disp);
   ("substatus", get "substatus" disp);
   ("substatus_code", get "substatus_code" disp);
   ("is_trunk", get "is_trunk" disp);
   ("is_pickup", get "is_pickup" disp);
   ("estimated_at", get "estimated_at" disp);
   ("min_delivery_time", get "min_delivery_time" disp);
   ("max_delivery_time", get "max_delivery_time" disp);
   ("delivery_time", get "delivery_time" disp);
   ("beecode", get "beecode" disp)].

Definition doc_meta (c : route_ctx) (disp : dict) : dict :=
  [("route_id", route_id c);
   ("route_key", VStr (route_key c));
   ("route_dispatch_date", route_dispatch_date c);
   ("route_page", route_page c);
   ("truck_identifier", truck_identifier c);
   ("dispatch_raw", VDict disp);
   ("last_refreshed_at", VDate (now_utc c))] ++ flattened disp.

Definition dispatch_op (c : route_ctx) (disp_key : string) (disp : dict)
    : UpdateOne :=
  {| uo_filter := [("dispatch_key", CEq (VStr disp_key))];
     uo_set := doc_meta c disp;
     uo_setOnInsert := [("created_at", VDate (now_utc c)); ("ct", VNone)];
     uo_upsert := true |}.

(** The body of the loop; the state is the collection with the pending
    [bulk_ops], flushed when 500 of them are waiting. *)
Definition step (c : route_ctx) (disp : value)
    (st : collection * list UpdateOne)
    : (collection * list UpdateOne) * res unit :=
  match _extract_dispatch_key disp, disp with
  | Raise e, _ => (st, Raise e)
  | Ok None, _ | Ok (Some ""), _ => (st, Ok tt)
  | Ok (Some disp_key), VDict d =>
      let bulk_ops := st.2 ++ [dispatch_op c disp_key d] in
      if bool_decide (500 <= length bulk_ops)%nat
      then ((bulk_write bulk_ops st.1, []), Ok tt)
      else ((st.1, bulk_ops), Ok tt)
  | Ok (Some _), _ => (st, Raise AttributeError)
  end.

(** [run(route_key)]: the dispatches collection after the run, and how
    the run ended. The count of dispatches only feeds the log. *)
Definition run (routes_col disp_col : collection) (route_key : string)
    (now : Z) : collection * res unit :=
  match find_one [("route_key", CEq (VStr route_key))] routes_col with
  | None => (disp_col, Ok tt)
  | Some (i, route_doc) =>
      let route_payload := _get_route_payload route_doc in
      match _extract_route_meta route_payload,
            _extract_dispatch_list route_payload with
      | Raise e, _ | Ok _, Raise e => (disp_col, Raise e)
      | Ok route_meta, Ok dispatch_list =>
          let c := {| route_id := VOid i;
                      route_key := route_key;
                      route_dispatch_date :=
                        py_or (get "dispatch_date" route_meta)
                              (get "date" route_doc);
                      route_page := get "page" route_doc;
                      truck_identifier := get "truck_identifier" route_meta;
                      now_utc := now |} in
          match for_each (step c) dispatch_list (disp_col, []) with
          | ((col, _), Raise e) => (col, Raise e)
          | ((col, []), Ok _) => (col, Ok tt)
          | ((col, bulk_ops), Ok _) => (bulk_write bulk_ops col, Ok tt)
          end
      end
  end.
End job.
End get_dispatches.

(** ** backfill_ct.py *)

Module backfill_ct.
Section job.
Context `{PyRuntime}.

Definition tag_name (tag : dict) : value :=
  py_or (get "name" tag) (get "Name" tag).

Definition tag_value (tag : dict) : value :=
  py_or (get "value" tag) (get "Value" tag).

(** [str(name).strip().upper() == "CODCOMU"], for a name that is set. *)
Definition is_codcomu (tag : dict) : bool :=
  truthy (tag_name tag) &&
  String.eqb (upper (strip (py_str (tag_name tag)))) "CODCOMU".

Fixpoint tags_loop (tags : list value) : res (option string) :=
  match tags with
  | [] => Ok None
  | VDict tag :: rest =>
      if is_codcomu tag then
        let value := tag_value tag in
        if is_None value then Ok None
        else Ok (Some (strip (py_str value)))
      else tags_loop rest
  | _ :: _ => Raise AttributeError
  end.

Definition _extract_codcomu_value (disp_doc : dict) : res (option string) :=
  match get "tags" disp_doc with
  | VList tags => tags_loop tags
  | _ => Ok None
  end.

(** The dispatches that miss [ct]. *)
Definition missing_ct : list filter :=
  [[("ct", CEq VNone)]; [("ct", CExists false)]].

(** The body of the loop of [run]. A document that [find_one] returns
    carries its [_id], so [not mapping] never holds for it. *)
Definition visit (ct_col : collection) (disp : nat * dict)
    (disp_col : collection) : collection * res unit :=
  match _extract_codcomu_value disp.2 with
  | Raise e => (disp_col, Raise e)
  | Ok None | Ok (Some "") => (disp_col, Ok tt)
  | Ok (Some external_id) =>
      match find_one [("Id Externo", CEq (VStr external_id))] ct_col with
      | None => (disp_col, Ok tt)
      | Some (_, mapping) =>
          let ct_value := get "CT CORRESPONDE" mapping in
          if negb (truthy ct_value) then (disp_col, Ok tt)
          else
            let ct_str := strip (py_str ct_value) in
            (update_by_id disp.1
               [("ct", VStr ct_str); ("ct_match_codcomu", VStr external_id)]
               disp_col, Ok tt)
      end
  end.

(** [run()]: the dispatches collection after the run, and how the run
    ended. The counters only feed the log. *)
Definition run (ct_col disp_col : collection) : collection * res unit :=
  for_each (visit ct_col) (find_where (matches_any missing_ct) disp_col)
    disp_col.
End job.
End backfill_ct.

(** ** backfill_tipo_orden_from_tags.py *)

Module backfill_tipo_orden_from_tags.

Fixpoint tags_loop (tags : list value) : value :=
  match tags with
  | [] => VNone
  | VDict tag :: rest =>
      if eq_str (get "name" tag) "TIPO_ORDEN" then get "value" tag
      else tags_loop rest
  | _ :: rest => tags_loop rest
  end.

Definition extract_tipo_orden (tags : value) : value :=
  match tags with
  | VList l => tags_loop l
  | _ => VNone
  end.

(** The body of the loop of [run]; the state is the collection with the
    count of updated documents. *)
Definition visit (st : collection * Z) (doc : nat * dict) : collection * Z :=
  let tags := get_default "tags" (VList []) doc.2 in
  let tipo_orden_value := extract_tipo_orden tags in
  if is_None tipo_orden_value then st
  else (update_by_id doc.1 [("tipo_orden", tipo_orden_value)] st.1, st.2 + 1).

(** [run()]: the collection after the run and the count it returns. *)
Definition run (col : collection) : collection * Z :=
  fold_left visit (find [("tipo_orden", CExists false)] col) (col, 0).

End backfill_tipo_orden_from_tags.

(** ** fetch_dispatches.py *)

Module fetch_dispatches.
Section job.
(** [requests.get] on the page [page] of the range, with the status code
    and the decoded body of the answer. *)
Variable requests_get : string -> string -> Z -> res (Z * value).

Definition copied_fields : list string :=
  ["dispatch_id"; "identifier"; "status"; "contact_name"; "contact_address";
   "contact_phone"; "contact_email"; "latitude"; "longitude"; "route_id";
   "substatus"; "substatus_code"; "tags"; "is_trunk"; "is_pickup";
   "delivered_in_client"; "arrived_at"; "estimated_at"; "min_delivery_time";
   "max_delivery_time"; "beecode"; "locked"; "end_type"; "number_of_retries";
   "min_age_required"; "address_reference"; "pickup_address_reference";
   "to_be_payed"; "external_pincode"; "items"; "last_refreshed_at"].

Definition dispatch_doc (dispatch : dict) : dict :=
  (fun k => (k, get k dispatch)) <$> copied_fields.

Definition save_dispatch_to_mongo (dispatch : dict)
    (dispatches_col : collection) : collection :=
  let dispatch_id := get "identifier" dispatch in
  match find_one [("identifier", CEq dispatch_id)] dispatches_col with
  | Some _ => dispatches_col
  | None =>
      update_one {| uo_filter := [("identifier", CEq dispatch_id)];
                    uo_set := dispatch_doc dispatch;
                    uo_setOnInsert := [];
                    uo_upsert := true |} dispatches_col
  end.

Definition save (dispatch : value) (dispatches_col : collection)
    : collection * res unit :=
  match dispatch with
  | VDict d => (save_dispatch_to_mongo d dispatches_col, Ok tt)
  | _ => (dispatches_col, Raise AttributeError)
  end.

(** The pages of [fetch_dispatches_by_dates], from [page] on. The loop
    has no bound of its own: [fuel] pages are tried, and [None] says that
    the loop was still going on after them. *)
Fixpoint pages (fuel : nat) (start_date end_date : string) (page : Z)
    (col : collection) : collection * option (res unit) :=
  match fuel with
  | O => (col, None)
  | S fuel' =>
      match requests_get start_date end_date page with
      | Raise e => (col, Some (Raise e))
      | Ok (status_code, data) =>
          if status_code =? 200 then
            match data with
            | VDict d =>
                let response_dispatches := get_default "response" (VList []) d in
                if negb (truthy response_dispatches) then (col, Some (Ok tt))
                else
                  match response_dispatches with
                  | VList l =>
                      match for_each save l col with
                      | (col', Ok _) =>
                          pages fuel' start_date end_date (page + 1) col'
                      | (col', Raise e) => (col', Some (Raise e))
                      end
                  | VDict _ | VStr _ => (col, Some (Raise AttributeError))
                  | _ => (col, Some (Raise TypeError))
                  end
            | _ => (col, Some (Raise AttributeError))
            end
          else (col, Some (Ok tt))
      end
  end.

Definition fetch_dispatches_by_dates (fuel : nat)
    (start_date end_date : string) (col : collection)
    : collection * option (res unit) :=
  pages fuel start_date end_date 1 col.
End job.
End fetch_dispatches.

(** ** backfill_promise_date_from_tags.py *)

Module backfill_promise_date_from_tags.
Section job.
Context `{PyRuntime}.

Fixpoint tags_loop (tags : list value) : value :=
  match tags with
  | [] => VNone
  | VDict tag :: rest =>
      if eq_str (get "name" tag) "FECSOLDES" then get "value" tag
      else tags_loop rest
  | _ :: rest => tags_loop rest
  end.

Definition extract_fecsoldes (tags : value) : value :=
  match tags with
  | VList l => tags_loop l
  | _ => VNone
  end.

(** YYYYMMDD to YYYY-MM-DD, absent for any other text. *)
Definition normalize_promise_date (raw : value) : option string :=
  if negb (truthy raw) then None
  else
    let s := strip (py_str raw) in
    if negb (Nat.eqb (py_len s) 8) || negb (isdigit s) then None
    else Some (String.append (py_slice 0 4 s)
                 (String.append "-"
                    (String.append (py_slice 4 6 s)
                       (String.append "-" (py_slice 6 8 s))))).

(** The body of the loop of [run], on the collection with the count of
    updated documents. *)
Definition visit (st : collection * Z) (doc : nat * dict) : collection * Z :=
  let tags := get_default "tags" (VList []) doc.2 in
  let raw_fecsoldes := extract_fecsoldes tags in
  if is_None raw_fecsoldes then st
  else
    match normalize_promise_date raw_fecsoldes with
    | None => st
    | Some promise_date =>
        (update_by_id doc.1 [("promise_date_raw", raw_fecsoldes);
                             ("promise_date", VStr promise_date)] st.1,
         st.2 + 1)
    end.

Definition run (col : collection) : collection * Z :=
  fold_left visit (find [("promise_date", CExists false)] col) (col, 0).
End job.
End backfill_promise_date_from_tags.

(** ** orchestrator/orchestrator.py *)

Module orchestrator.
Section scheduler.
(** The callables and the triggers of the scheduling library. *)
Variable callable trigger : Type.
(** [importlib.import_module(module_path)]: the [run] attribute of the
    module when it has one, or the exception of the import. *)
Variable import_module : value -> res (option callable).
Variable IntervalTrigger : value -> res trigger.
Variable CronTrigger_from_crontab : value -> res trigger.

(** A job as [add_job] receives it. *)
Record Job : Type := mkJob {
  func : callable;
  job_trigger : trigger;
  id : value;
  max_instances : Z;
  coalesce : bool;
}.

(** What [add_job] checks of a job before it takes it: the callable has
    to be callable without arguments and the id has to be a text, or the
    library raises. *)
Variable job_check : Job -> res unit.

(** [d[k]]. *)
Definition item (k : string) (d : dict) : res value :=
  match dict_lookup k d with
  | Some v => Ok v
  | None => Raise KeyError
  end.

Definition load_job_callable (module_path : value) : res callable :=
  let? module := import_module module_path in
  match module with
  | Some run => Ok run
  | None => Raise AttributeError
  end.

(** The body of the loop of [schedule_jobs]: the job to add. *)
Definition job_of (job_cfg : dict) : res Job :=
  let? job_id := item "id" job_cfg in
  let? module := item "module" job_cfg in
  let? run_callable := load_job_callable module in
  let? trg :=
    if eq_str (get "type" job_cfg) "interval"
    then (let? seconds := item "seconds" job_cfg in IntervalTrigger seconds)
    else (let? cron_expr := item "cron" job_cfg in
          CronTrigger_from_crontab cron_expr) in
  Ok {| func := run_callable; job_trigger := trg; id := job_id;
        max_instances := 1; coalesce := true |}.

(** [scheduler.add_job(...)] on a scheduler that is not started: the job
    is checked and put after the jobs added before it. *)
Definition add_job (job : Job) (scheduler : list Job) : list Job * res unit :=
  match job_check job with
  | Ok _ => (scheduler ++ [job], Ok tt)
  | Raise e => (scheduler, Raise e)
  end.

(** [schedule_jobs(scheduler)] over the job table [JOBS]; the scheduler is
    the list of the jobs added to it. *)
Definition schedule_jobs (JOBS : list dict) (scheduler : list Job)
    : list Job * res unit :=
  for_each
    (λ job_cfg scheduler,
       match job_of job_cfg with
       | Ok job => add_job job scheduler
       | Raise e => (scheduler, Raise e)
       end)
    JOBS scheduler.
End scheduler.
End orchestrator.

(** ** orchestrator/dispatchtrack_client.py *)

Module dispatchtrack_client.
Section client.

(** What the code reads of an answer: [status_code], [text] and the
    outcome of [json()]. *)
Record Response : Type := mkResponse {
  status_code : Z;
  text : string;
  json : res value;
}.

(** The headers of a fresh [requests.Session], and its [get], which is
    given the URL, the headers of the session and the query parameters. *)
Variable default_headers : dict.
Variable session_get : string -> dict -> dict -> res Response.

Record DispatchTrackClient : Type := mkClient {
  base_url : string;
  session_headers : dict;
}.

(** [s.rstrip("/")]. *)
Fixpoint rstrip_slash (s : string) : string :=
  match s with
  | EmptyString => EmptyString
  | String c s' =>
      match rstrip_slash s' with
      | EmptyString =>
          if Ascii.eqb c "/" then EmptyString else String c EmptyString
      | r => String c r
      end
  end.

(** The constructor, on a base URL and a token that are a text or [None]. *)
Definition __init__ (base_url token : option string)
    : res DispatchTrackClient :=
  match base_url with
  | None => Raise ValueError
  | Some base_url =>
      match token with
      | None => Raise ValueError
      | Some token =>
          Ok {| base_url := rstrip_slash base_url;
                session_headers :=
                  apply_set [("X-AUTH-TOKEN", VStr token);
                             ("Content-Type", VStr "application/json");
                             ("Accept", VStr "application/json")]
                    default_headers |}
      end
  end.

(** [resp.raise_for_status()]. *)
Definition raise_for_status (resp : Response) : res unit :=
  if (400 <=? status_code resp) && (status_code resp <? 600)
  then Raise (OtherError "HTTPError")
  else Ok tt.

Definition get_vehicles (self : DispatchTrackClient) (params : dict)
    : res value :=
  let url := String.append (base_url self) "/trucks" in
  let? resp := session_get url (session_headers self) params in
  if status_code resp =? 401 then Raise (OtherError "RuntimeError")
  else
    let? _ := raise_for_status resp in
    json resp.
End client.
End dispatchtrack_client.

(** ** trash/jobs/get_substatus.py

    [_is_bad_number], [_normalize_code], [_code_variants] and
    [_lookup_substatus] are those of backfill_substatus.py, and so is the
    body of the loop; the cursor is that of one route. *)

Module get_substatus.
Section job.
Context `{PyRuntime}.

Definition run (sub_col disp_col : collection) (route_key : string)
    : collection * res unit :=
  for_each (backfill_substatus.visit sub_col)
    (find [("route_key", CEq (VStr route_key))] disp_col) disp_col.
End job.
End get_substatus.

(** ** trash/jobs/backfill_tipo_orden_from_tags.py and
       trash/jobs/backfill_promise_date_from_tags.py

    The jobs of one route, which read the tags below [dispatch_raw]. *)

Module jobs.

Module backfill_tipo_orden_from_tags.

Fixpoint tags_loop (tags : list value) (tag_name : string) : value :=
  match tags with
  | [] => VNone
  | VDict t :: rest =>
      if eq_str (get "name" t) tag_name then get "value" t
      else tags_loop rest tag_name
  | _ :: rest => tags_loop rest tag_name
  end.

Definition _get_tag_value_from_dispatch (doc : dict) (tag_name : string)
    : res value :=
  let dispatch_raw := get_default "dispatch_raw" (VDict []) doc in
  let? tags := attr_get_default "tags" (VList []) dispatch_raw in
  match tags with
  | VList l => Ok (tags_loop l tag_name)
  | _ => Ok VNone
  end.

(** The query of [run]: the route, and a [tipo_orden] that is missing,
    null or the empty text. *)
Definition query (route_key : string) (d : dict) : bool :=
  matches [("route_key", CEq (VStr route_key))] d &&
  matches_any [[("tipo_orden", CExists false)];
               [("tipo_orden", CEq VNone)];
               [("tipo_orden", CEq (VStr ""))]] d.

(** The body of the loop of [run], on a document of the cursor, which
    holds the projection of the stored one. *)
Definition visit (doc : nat * dict) (col : collection)
    : collection * res unit :=
  match _get_tag_value_from_dispatch doc.2 "TIPO_ORDEN" with
  | Raise e => (col, Raise e)
  | Ok tipo_orden_value =>
      if negb (truthy tipo_orden_value) then (col, Ok tt)
      else (update_by_id doc.1 [("tipo_orden", tipo_orden_value)] col, Ok tt)
  end.

Definition run (col : collection) (route_key : string)
    : collection * res unit :=
  for_each visit
    ((fun id : nat * dict => (id.1, project_path "dispatch_raw" "tags" id.2))
       <$> find_where (query route_key) col)
    col.

End backfill_tipo_orden_from_tags.

Module backfill_promise_date_from_tags.
Section job.
Context `{PyRuntime}.

(** [extract_fecsoldes] and [normalize_promise_date] are those of the job
    of the whole collection. *)
Definition extract_fecsoldes := backfill_promise_date_from_tags.extract_fecsoldes.
Definition normalize_promise_date :=
  backfill_promise_date_from_tags.normalize_promise_date.

(** The body of the loop of [run], on the collection with the count of
    updated documents. *)
Definition visit (doc : nat * dict) (st : collection * Z)
    : (collection * Z) * res unit :=
  let dispatch_raw := get_default "dispatch_raw" (VDict []) doc.2 in
  match attr_get_default "tags" (VList []) dispatch_raw with
  | Raise e => (st, Raise e)
  | Ok tags =>
      let raw_fecsoldes := extract_fecsoldes tags in
      let promise_date := normalize_promise_date raw_fecsoldes in
      if is_None raw_fecsoldes then (st, Ok tt)
      else
        match promise_date with
        | None => (st, Ok tt)
        | Some promise_date =>
            ((update_by_id doc.1 [("promise_date_raw", raw_fecsoldes);
                                  ("promise_date", VStr promise_date)] st.1,
              st.2 + 1), Ok tt)
        end
  end.

(** [run(route_key)]: the collection after the run, the count of updated
    documents, which the run returns when it ends normally, and how it
    ended. *)
Definition run (col : collection) (route_key : string)
    : (collection * Z) * res unit :=
  for_each visit
    ((fun id : nat * dict => (id.1, project_path "dispatch_raw" "tags" id.2))
       <$> find [("route_key", CEq (VStr route_key));
                 ("promise_date", CExists false)] col)
    (col, 0).
End job.
End backfill_promise_date_from_tags.

End jobs.

(** ** Notions used in the statements *)

(** No blank character anywhere in the text. *)
Fixpoint no_space (s : string) : bool :=
  match s with
  | EmptyString => true
  | String c s' => negb (is_space c) && no_space s'
  end.

(** A tag object named exactly TIPO_ORDEN. *)
Definition is_tipo_orden_tag (tag : value) : bool :=
  match tag with
  | VDict t => eq_str (get "name" t) "TIPO_ORDEN"
  | _ => false
  end.

(** The loop of the order-type job, read as one rewrite per document of the
    cursor. *)
Definition tipo_orden_rewrite (d : dict) : dict → dict :=
  let v := backfill_tipo_orden_from_tags.extract_tipo_orden
             (get_default "tags" (VList []) d) in
  if is_None v then id else apply_set [("tipo_orden", v)].

(** The fields the sub-status job computes for a dispatch, none when the
    computation raises. *)
Definition substatus_fields `{PyRuntime} (sub_col : collection) (disp : dict)
    : dict :=
  match backfill_substatus.update_fields sub_col disp with
  | Ok fields => fields
  | Raise _ => []
  end.

(** The dispatch as the sub-status job rewrites it. *)
Definition rederived `{PyRuntime} (sub_col : collection) (disp : dict) : dict :=
  apply_set (substatus_fields sub_col disp) disp.

(** The code of the dispatch can be looked up: when it is valid and its
    text is all digits, [int] parses the text to a number that fits in 8
    bytes. *)
Definition code_parses `{PyRuntime} (disp : dict) : Prop :=
  ∀ norm,
    backfill_substatus._normalize_code (get "substatus_code" disp) = Some norm →
    isdigit norm = true →
    ∃ n, py_int norm = Ok n ∧ bson_int n = true.

(** The code of the dispatch cannot be looked up: its text is all digits,
    and [int] raises on it, or parses it to a number that the driver does
    not encode. *)
Definition code_fails `{PyRuntime} (disp : dict) (e : exn) : Prop :=
  ∃ norm,
    backfill_substatus._normalize_code (get "substatus_code" disp) = Some norm ∧
    isdigit norm = true ∧
    (py_int norm = Raise e ∨
     ∃ n, py_int norm = Ok n ∧ bson_int n = false ∧ e = OverflowError).

(** The three fields the sub-status job writes. *)
Definition substatus_targets : list string :=
  ["estado_beetrack"; "estado_guia"; "cierre"].

(** An update that writes neither [is_closed] nor [full_raw]. *)
Definition keeps_closure (op : UpdateOne) : Prop :=
  ("is_closed" ∉ (uo_set op).*1) ∧ ("full_raw" ∉ (uo_set op).*1).

(** The document at [i] is still closed and has the [full_raw] of [d]. *)
Definition still_closed (i : nat) (d : dict) (col : collection) : Prop :=
  ∃ d', col !! i = Some d' ∧ get "is_closed" d' = VBool true ∧
        get "full_raw" d' = get "full_raw" d.

(** The invariant of the dispatches collection: a [dispatch_key] is a text
    and belongs to one document only. *)
Definition dispatch_keys_wf (col : collection) : Prop :=
  (∀ d v, d ∈ col → dict_lookup "dispatch_key" d = Some v → ∃ s, v = VStr s) ∧
  (∀ i j d1 d2 v, col !! i = Some d1 → col !! j = Some d2 →
     dict_lookup "dispatch_key" d1 = Some v →
     dict_lookup "dispatch_key" d2 = Some v → i = j).

(** The payload on which the closure evaluator works is [payload]: the
    detailed payload of the route when it has one, the item of the listing
    otherwise. *)
Definition working_payload (route_doc payload : dict) : Prop :=
  (get "full_raw" route_doc = VDict payload ∧ payload ≠ []) ∨
  (truthy (get "full_raw" route_doc) = false ∧
   get "minified_raw" route_doc = VDict payload ∧ payload ≠ []).

(** The items list the dispatch [id]: one of them has an identifier, whose
    text is [id]. *)
Definition listed `{PyRuntime} (items : list dict) (id : string) : Prop :=
  ∃ item, item ∈ items ∧ get "identifier" item ≠ VNone ∧
          id = py_str (get "identifier" item).

(** The dispatch [id] has a stored record whose [cierre] is [True]. *)
Definition closed_record (disp_col : collection) (id : string) : Prop :=
  ∃ d, d ∈ disp_col ∧ get "dispatch_key" d = VStr id ∧
       get "cierre" d = VBool true.

(** The key under which the extractor upserts an embedded dispatch: its
    stringified identifier, when it has one and the text is not empty. *)
Definition dispatch_key_of `{PyRuntime} (disp : value) : option string :=
  match disp with
  | VDict d =>
      if is_None (get "identifier" d) then None
      else match py_str (get "identifier" d) with
           | "" => None
           | key => Some key
           end
  | _ => None
  end.

Definition dispatch_keys `{PyRuntime} (items : list value) : list string :=
  omap dispatch_key_of items.

(** The operations the loop of the extractor queues for the items. *)
Definition dispatch_ops `{PyRuntime} (c : get_dispatches.route_ctx)
    (items : list value) : list UpdateOne :=
  omap (λ disp,
          match disp, dispatch_key_of disp with
          | VDict d, Some key => Some (get_dispatches.dispatch_op c key d)
          | _, _ => None
          end) items.

(** What an upsert keeps of a stored dispatch. *)
Definition same_identity (x x' : dict) : Prop :=
  dict_lookup "dispatch_key" x' = dict_lookup "dispatch_key" x ∧
  get "created_at" x' = get "created_at" x ∧
  get "ct" x' = get "ct" x.

(** [col'] is [col] after upserts at the time [now] under the keys [K]:
    the invariant holds, the stored documents keep their identity, the new
    ones are stamped with [now], every key of [K] has its document, and no
    document is added when every key had one. *)
Definition refreshed (now : Z) (K : list string) (col col' : collection)
    : Prop :=
  dispatch_keys_wf col' ∧
  (∀ i x, col !! i = Some x →
     ∃ x', col' !! i = Some x' ∧ same_identity x x' ∧
           (get "last_refreshed_at" x = VDate now →
            get "last_refreshed_at" x' = VDate now)) ∧
  (∀ i x', col' !! i = Some x' → (length col ≤ i)%nat →
     (∃ k, k ∈ K ∧ get "dispatch_key" x' = VStr k) ∧
     get "created_at" x' = VDate now ∧ get "ct" x' = VNone) ∧
  (∀ k, k ∈ K →
     ∃ i x', col' !! i = Some x' ∧ get "dispatch_key" x' = VStr k ∧
             get "last_refreshed_at" x' = VDate now) ∧
  ((∀ k, k ∈ K → ∃ x, x ∈ col ∧ get "dispatch_key" x = VStr k) →
     length col' = length col).

(** A loop body that leaves the visited document as it is, rewrites it
    at its [_id] with the fields that [F] computes from it, or raises. *)
Definition rewrite_step (F : dict → res (option dict)) (doc : nat * dict)
    (col : collection) : collection * res unit :=
  match F doc.2 with
  | Ok (Some sets) => (update_by_id doc.1 sets col, Ok tt)
  | Ok None => (col, Ok tt)
  | Raise e => (col, Raise e)
  end.

(** What such a body does to the document it visits. *)
Definition rewrite_of (F : dict → res (option dict)) (d : dict)
    : dict → dict :=
  match F d with
  | Ok (Some sets) => apply_set sets
  | _ => id
  end.

(** The fields that the sub-status jobs write on a dispatch. *)
Definition substatus_sets `{PyRuntime} (sub_col : collection) (d : dict)
    : res (option dict) :=
  let? fields := backfill_substatus.update_fields sub_col d in
  Ok (Some fields).

(** The fields that the carrier job writes on a dispatch, if any. *)
Definition ct_sets `{PyRuntime} (ct_col : collection) (d : dict)
    : res (option dict) :=
  let? external_id := backfill_ct._extract_codcomu_value d in
  match external_id with
  | None | Some "" => Ok None
  | Some external_id =>
      match find_one [("Id Externo", CEq (VStr external_id))] ct_col with
      | None => Ok None
      | Some (_, mapping) =>
          let ct_value := get "CT CORRESPONDE" mapping in
          if negb (truthy ct_value) then Ok None
          else Ok (Some [("ct", VStr (strip (py_str ct_value)));
                         ("ct_match_codcomu", VStr external_id)])
      end
  end.

(** What the jobs of one route read of a stored dispatch through the
    projection on [dispatch_raw.tags]: the tags of the embedded document,
    no tag when [dispatch_raw] is missing or is not a document, and an
    exception when it is an array. *)
Definition raw_tags (d : dict) : res value :=
  match dict_lookup "dispatch_raw" d with
  | Some (VDict r) => Ok (get_default "tags" (VList []) r)
  | Some (VList _) => Raise AttributeError
  | _ => Ok (VList [])
  end.

(** The field that the order-type job of one route writes, if any. *)
Definition route_tipo_orden_sets (d : dict) : res (option dict) :=
  let? v := jobs.backfill_tipo_orden_from_tags._get_tag_value_from_dispatch
              (project_path "dispatch_raw" "tags" d) "TIPO_ORDEN" in
  if truthy v then Ok (Some [("tipo_orden", v)]) else Ok None.

(** The fields that the promise-date jobs write for the tags of a
    dispatch, if any. *)
Definition promise_sets `{PyRuntime} (tags : value) : option dict :=
  let raw := backfill_promise_date_from_tags.extract_fecsoldes tags in
  match backfill_promise_date_from_tags.normalize_promise_date raw with
  | Some p => Some [("promise_date_raw", raw); ("promise_date", VStr p)]
  | None => None
  end.

(** The fields that the promise-date job of one route writes, if any. *)
Definition route_promise_sets `{PyRuntime} (d : dict) : res (option dict) :=
  let? tags := raw_tags d in Ok (promise_sets tags).

(** The rewriting of a dispatch by the promise-date job of the whole
    collection. *)
Definition promise_rewrite `{PyRuntime} (d : dict) : dict → dict :=
  match promise_sets (get_default "tags" (VList []) d) with
  | Some sets => apply_set sets
  | None => id
  end.

(** The documents of a collection that have the field [k]. *)
Definition count_with (k : string) (col : collection) : Z :=
  Z.of_nat (length (List.filter (has_key k) col)).



(** The fields of a route that the ingestion of a listing page rewrites. *)
Definition listing_fields : list string :=
  ["date"; "page"; "minified_raw"; "last_refreshed_at"].

(** A route as the ingestion inserts it: open and without details, under
    a key that is a text and is not empty. *)
Definition fresh_route (d : dict) : Prop :=
  get "is_closed" d = VBool false ∧ get "has_full_details" d = VBool false ∧
  dict_lookup "full_raw" d = None ∧ dict_lookup "closed_at" d = None ∧
  (∃ t, get "created_at" d = VDate t) ∧
  ∃ key, get "route_key" d = VStr key ∧ key ≠ "".

(** [col] is [col0] after ingestions: the routes of [col0] are at their
    places with everything but the listing fields as it was, and the
    routes that were added are fresh. *)
Definition ingested (col0 col : collection) : Prop :=
  (∀ i d, col0 !! i = Some d →
     ∃ d', col !! i = Some d' ∧
       ∀ k, k ∉ listing_fields → dict_lookup k d' = dict_lookup k d) ∧
  (∀ i d', col !! i = Some d' → (length col0 ≤ i)%nat → fresh_route d').

(** A listing item that has a route key, which is not the empty text. *)
Definition keyed `{PyRuntime} (route : dict) : bool :=
  match get_routes._extract_route_key route with
  | Some (String _ _) => true
  | _ => false
  end.

(** What the extractor reads of the route before its loop. *)
Definition ctx_of (i : nat) (route_doc : dict) (route_key : string)
    (meta : dict) (now : Z) : get_dispatches.route_ctx :=
  {| get_dispatches.route_id := VOid i;
     get_dispatches.route_key := route_key;
     get_dispatches.route_dispatch_date :=
       py_or (get "dispatch_date" meta) (get "date" route_doc);
     get_dispatches.route_page := get "page" route_doc;
     get_dispatches.truck_identifier := get "truck_identifier" meta;
     get_dispatches.now_utc := now |}.

(** The fields of an item that the extractor copies beside
    [dispatch_raw]. *)
Definition flattened_fields : list string :=
  ["status"; "status_id"; "substatus"; "substatus_code"; "is_trunk";
   "is_pickup"; "estimated_at"; "min_delivery_time"; "max_delivery_time";
   "delivery_time"; "beecode"].

(** The fetcher finds a stored document under the identifier of the
    dispatch. *)
Definition known (col : collection) (dispatch : dict) : Prop :=
  is_Some (find_one [("identifier", CEq (get "identifier" dispatch))] col).

(** A route is stored under the key [k]. *)
Definition stored_route (k : string) (col : collection) : Prop :=
  ∃ x, x ∈ col ∧ matches [("route_key", CEq (VStr k))] x = true.

(** ** Sample data

    A runtime and a few documents on which the properties below are
    evaluated. *)

(** The runtime of the examples. Beside the ASCII digits it knows the
    superscript digits of Latin-1 (U+00B2, U+00B3 and U+00B9), which
    [isdigit] accepts and [int] does not parse, and its [int] parses
    nothing but the texts of ASCII digits. *)
Fixpoint plain_digits (s : string) : bool :=
  match s with
  | EmptyString => true
  | String c s' =>
      if is_digit c then plain_digits s'
      else
        match s' with
        | String c' s'' =>
            (code c =? 194)%N &&
            ((code c' =? 178) || (code c' =? 179) || (code c' =? 185))%N &&
            plain_digits s''
        | EmptyString => false
        end
  end.

Definition plain_isdigit (s : string) : bool :=
  negb (String.eqb s "") && plain_digits s.

Definition plain_repr : PyRuntime :=
  {| py_repr := λ _, "<repr>";
     unicode_isdigit := plain_isdigit;
     int_other := λ _, Raise ValueError |}.


(** A dispatch whose only tag is named [codcomu] between two blanks. *)
Definition disp_padded_codcomu : dict :=
  [("dispatch_key", VStr "D1");
   ("tags", VList [VDict [("name", VStr " codcomu "); ("value", VStr "123")]])].

(** A dispatch whose carrier tag comes second, spelt [Name] and [Value]. *)
Definition disp_two_tags : dict :=
  [("tags",
    VList [VDict [("name", VStr "FECSOLDES"); ("value", VStr "20251126")];
           VDict [("Name", VStr "CodComu"); ("Value", VStr " 123 ")]])].

(** A dispatch without [tipo_orden] whose order-type tag has an empty
    value, and one whose order-type tag comes second. *)
Definition disp_empty_tipo_orden : dict :=
  [("dispatch_key", VStr "D1");
   ("tags", VList [VDict [("name", VStr "TIPO_ORDEN"); ("value", VStr "")]])].

Definition disp_with_tipo_orden : dict :=
  [("dispatch_key", VStr "D2");
   ("tags",
    VList [VDict [("name", VStr "tipo_orden"); ("value", VStr "x")];
           VDict [("name", VStr "TIPO_ORDEN"); ("value", VStr "RETIRO")]])].

(** A reference collection with the code 1 stored as a number, and three
    dispatches: a code that maps, no code, and a code without a row. The
    last two carry values of an earlier run. *)
Definition sample_substatus : collection :=
  [[("Código Sub", VInt 1); ("Estado Beetrack", VStr "Entregado");
    ("Estado Guía", VStr "ENTREGADA"); ("Cierre", VBool true)]].

Definition sample_dispatches : collection :=
  [[("dispatch_key", VStr "D1"); ("substatus_code", VStr "1")];
   [("dispatch_key", VStr "D2"); ("substatus_code", VNone);
    ("cierre", VBool true)];
   [("dispatch_key", VStr "D3"); ("substatus_code", VStr "77");
    ("estado_guia", VStr "old")]].

(** A dispatch whose code is a superscript two, one whose code has twenty
    digits, and a dispatch without code that carries the [cierre] of an
    earlier run. *)
Definition disp_superscript_code : dict :=
  [("dispatch_key", VStr "D1"); ("substatus_code", VStr "²")].

Definition disp_long_code : dict :=
  [("dispatch_key", VStr "D1");
   ("substatus_code", VStr "12345678901234567890")].

Definition disp_stale : dict :=
  [("dispatch_key", VStr "D2"); ("substatus_code", VNone);
   ("cierre", VBool true)].



(** A closed route, and the listing item under which the API returns it
    again. *)
Definition closed_route_R1 : dict :=
  [("route_key", VStr "R1"); ("date", VStr "2025-11-26"); ("page", VInt 1);
   ("minified_raw", VDict [("number", VStr "R1"); ("status", VStr "started")]);
   ("last_refreshed_at", VDate 1000); ("created_at", VDate 1000);
   ("has_full_details", VBool true); ("is_closed", VBool true);
   ("full_raw", VDict [("number", VStr "R1"); ("dispatches", VList [])]);
   ("closed_at", VDate 2000)].

Definition listing_item_R1 : dict :=
  [("number", VStr "R1"); ("status", VStr "finished")].

(** An open route with two dispatches and an item without identifier, and
    a dispatches collection in which both are closed. *)
Definition open_route_R2 : dict :=
  [("route_key", VStr "R2"); ("is_closed", VBool false);
   ("full_raw",
    VDict [("dispatches",
            VList [VDict [("identifier", VInt 11)];
                   VDict [("identifier", VStr "12")];
                   VDict [("status", VStr "no identifier")]])])].

Definition closed_dispatches : collection :=
  [[("dispatch_key", VStr "12"); ("cierre", VBool true)];
   [("dispatch_key", VStr "11"); ("cierre", VBool true)];
   [("identifier", VStr "13")]].

(** An open route whose listing item names the dispatch 99 and whose
    detailed payload lists the dispatches 11 and 12 and an item without
    identifier; and dispatches among which 11 has a [cierre] that is only
    truthy. *)
Definition open_route_R13 : dict :=
  [("route_key", VStr "R13"); ("is_closed", VBool false);
   ("minified_raw",
    VDict [("number", VStr "R13");
           ("dispatches", VList [VDict [("identifier", VInt 99)]])]);
   ("full_raw",
    VDict [("dispatches",
            VList [VDict [("identifier", VInt 11)];
                   VDict [("identifier", VStr "12")];
                   VDict [("status", VStr "no identifier")]])])].

Definition half_closed_dispatches : collection :=
  [[("dispatch_key", VStr "12"); ("cierre", VBool true)];
   [("dispatch_key", VStr "11"); ("cierre", VInt 1)]].

(** A route with two dispatches, the second listed twice, and an item
    without identifier. *)
Definition route_R3 : dict :=
  [("route_key", VStr "R3"); ("date", VStr "2025-11-26"); ("page", VInt 2);
   ("minified_raw",
    VDict [("number", VStr "R3");
           ("truck", VDict [("identifier", VStr "TRK-9")]);
           ("dispatches",
            VList [VDict [("identifier", VInt 501); ("status", VStr "ok")];
                   VDict [("identifier", VStr "502")];
                   VDict [("status", VStr "no identifier")];
                   VDict [("identifier", VStr "502");
                          ("substatus_code", VStr "7")]])])].

(** The modules of the examples, each with the parameters that its [run]
    needs, and the check of [add_job], which refuses an id that is not a
    text and a callable that needs arguments, since [schedule_jobs] gives
    none. *)
Definition sample_modules (module_path : value)
    : res (option (list string)) :=
  if eq_str module_path "backfill_substatus" then Ok (Some [])
  else if eq_str module_path "backfill_ct" then Ok (Some [])
  else if eq_str module_path "jobs.get_routes" then Ok (Some ["date_str"])
  else Raise (OtherError "ModuleNotFoundError").

Definition sample_job_check (job : orchestrator.Job (list string) value)
    : res unit :=
  match orchestrator.id _ _ job, orchestrator.func _ _ job with
  | VStr _, [] => Ok tt
  | VStr _, _ :: _ => Raise ValueError
  | _, _ => Raise TypeError
  end.

(** A job table with a cron job and an interval job. *)
Definition sample_JOBS : list dict :=
  [[("id", VStr "substatus"); ("module", VStr "backfill_substatus");
    ("cron", VStr "0 6 1 1 1")];
   [("id", VStr "ct"); ("module", VStr "backfill_ct");
    ("type", VStr "interval"); ("seconds", VInt 60)]].

(** A reference collection of carriers, and three dispatches: one that
    misses [ct] and names the external id 123, one that has a [ct], and
    one whose [ct] is null and whose external id is not in the reference
    collection. *)
Definition sample_ct : collection :=
  [[("Id Externo", VStr "123"); ("CT CORRESPONDE", VStr " CT Norte ")]].

Definition sample_ct_dispatches : collection :=
  [disp_padded_codcomu;
   [("dispatch_key", VStr "D2"); ("ct", VStr "CT Sur");
    ("tags", VList [VDict [("name", VStr "CODCOMU"); ("value", VStr "123")]])];
   [("dispatch_key", VStr "D3"); ("ct", VNone);
    ("tags", VList [VDict [("name", VStr "CODCOMU"); ("value", VStr "999")]])]].

(** Dispatches of the route R1 as the extractor stores them: one with an
    empty [tipo_orden] and an order-type tag, one whose order-type tag is
    empty, and a dispatch of another route. *)
Definition sample_route_dispatches : collection :=
  [[("dispatch_key", VStr "D1"); ("route_key", VStr "R1");
    ("substatus_code", VStr "1"); ("tipo_orden", VStr "");
    ("dispatch_raw",
     VDict [("identifier", VStr "D1");
            ("tags", VList [VDict [("name", VStr "TIPO_ORDEN");
                                   ("value", VStr "RETIRO")];
                            VDict [("name", VStr "FECSOLDES");
                                   ("value", VStr "20251126")]])])];
   [("dispatch_key", VStr "D2"); ("route_key", VStr "R1");
    ("substatus_code", VStr "77");
    ("dispatch_raw",
     VDict [("identifier", VStr "D2");
            ("tags", VList [VDict [("name", VStr "TIPO_ORDEN");
                                   ("value", VStr "")]])])];
   [("dispatch_key", VStr "D3"); ("route_key", VStr "R2");
    ("substatus_code", VInt 1); ("cierre", VStr "old");
    ("dispatch_raw",
     VDict [("identifier", VStr "D3");
            ("tags", VList [VDict [("name", VStr "TIPO_ORDEN");
                                   ("value", VStr "ENTREGA")]])])]].

(** Dispatches with tags: a promise date to write, a promise date that
    is there, a tag that is not eight digits, and no tag. *)
Definition sample_promise_dispatches : collection :=
  [disp_two_tags;
   [("promise_date", VStr "2025-01-01");
    ("tags", VList [VDict [("name", VStr "FECSOLDES");
                           ("value", VStr "20251126")]])];
   [("tags", VList [VDict [("name", VStr "FECSOLDES");
                           ("value", VStr "26/11/2025")]])];
   [("dispatch_key", VStr "D4")]].



(** A listing of three pages: a route with a key, items without key, and
    a route that the scan does not reach. *)
Definition sample_listing (date_str : string) (page : Z)
    : res (list dict) :=
  if page =? 1 then Ok [[("number", VStr "R8")]]
  else if page =? 2 then Ok [[("truck", VStr "T1")]; [("number", VStr "")]]
  else if page =? 3 then Ok [[("number", VStr "R9")]]
  else Ok [].

(** A route whose payload lists a dispatch and then a text. *)
Definition route_bad_item : dict :=
  [("route_key", VStr "R10");
   ("full_raw",
    VDict [("dispatches",
            VList [VDict [("identifier", VStr "D1")]; VStr "D2"])])].

(** An open route whose two dispatches have a code that the sample
    reference collection closes, and the same route with a third
    dispatch whose identifier is the empty text. *)
Definition route_R11 : dict :=
  [("route_key", VStr "R11"); ("is_closed", VBool false);
   ("full_raw",
    VDict [("dispatches",
            VList (VDict <$>
                     [[("identifier", VStr "D1"); ("substatus_code", VStr "1")];
                      [("identifier", VInt 7); ("substatus_code", VInt 1)]]))])].

Definition route_R12 : dict :=
  [("route_key", VStr "R12"); ("is_closed", VBool false);
   ("full_raw",
    VDict [("dispatches",
            VList (VDict <$>
                     [[("identifier", VStr "D1"); ("substatus_code", VStr "1")];
                      [("identifier", VStr ""); ("substatus_code", VInt 1)]]))])].

(** A job table whose second entry names a module whose [run] needs an
    argument. *)
Definition sample_bad_JOBS : list dict :=
  [[("id", VStr "substatus"); ("module", VStr "backfill_substatus");
    ("cron", VStr "0 6 1 1 1")];
   [("id", VStr "get_routes"); ("module", VStr "jobs.get_routes");
    ("cron", VStr "0 5 1 1 1")];
   [("id", VStr "ct"); ("module", VStr "backfill_ct");
    ("type", VStr "interval"); ("seconds", VInt 60)]].


(** ** Proof steps *)

(** Facts about the literal keys of a dict, by computation: a key is not
    among them, they are distinct, a key is among them. *)
Ltac key_notin := apply (bool_decide_unpack _); vm_compute; exact I.
Ltac key_nodup := apply (bool_decide_unpack _); vm_compute; exact I.
Ltac key_in := apply (bool_decide_unpack _); vm_compute; exact I.

(** Membership of a binding in a literal dict. *)
Ltac binding_in :=
  first [apply list_elem_of_here | apply list_elem_of_further; binding_in].

(** * Properties *)

(** ** Dictionaries and updates *)

Lemma dict_lookup_set_eq k v (d : dict) :
  dict_lookup k (dict_set k v d) = Some v.
Proof.
  induction d as [|[k' v'] d IH]; simpl.
  - by rewrite String.eqb_refl.
  - destruct (String.eqb k k') eqn:E; simpl; rewrite ?String.eqb_refl, ?E; done.
Qed.

Lemma dict_lookup_set_ne k k' v (d : dict) :
  k ≠ k' → dict_lookup k' (dict_set k v d) = dict_lookup k' d.
Proof.
  intros Hne. induction d as [|[k0 v0] d IH]; simpl.
  - by apply String.eqb_neq in Hne; rewrite String.eqb_sym, Hne.
  - destruct (String.eqb k k0) eqn:E; simpl.
    + apply String.eqb_eq in E as <-.
      assert (String.eqb k' k = false) as -> by (apply String.eqb_neq; congruence).
      done.
    + by rewrite IH.
Qed.

Lemma dict_lookup_apply_set_notin k (sets d : dict) :
  k ∉ sets.*1 → dict_lookup k (apply_set sets d) = dict_lookup k d.
Proof.
  unfold apply_set. revert d.
  induction sets as [|[k0 v0] sets IH]; intros d Hk; simpl; [done|].
  rewrite IH by (intros ?; apply Hk; simpl; by right).
  apply dict_lookup_set_ne. intros ->. apply Hk. simpl. by left.
Qed.

Lemma dict_lookup_apply_set_in k v (sets d : dict) :
  NoDup sets.*1 → (k, v) ∈ sets → dict_lookup k (apply_set sets d) = Some v.
Proof.
  unfold apply_set. revert d.
  induction sets as [|[k0 v0] sets IH]; intros d Hnd Hin; simpl.
  - by apply not_elem_of_nil in Hin.
  - apply NoDup_cons in Hnd as [Hk0 Hnd].
    apply elem_of_cons in Hin as [[= -> ->]|Hin].
    + fold (apply_set sets (dict_set k0 v0 d)).
      rewrite dict_lookup_apply_set_notin by done.
      apply dict_lookup_set_eq.
    + by apply IH.
Qed.

Lemma get_apply_set_notin k (sets d : dict) :
  k ∉ sets.*1 → get k (apply_set sets d) = get k d.
Proof. intros. unfold get. by rewrite dict_lookup_apply_set_notin. Qed.

Lemma get_apply_set_in k v (sets d : dict) :
  NoDup sets.*1 → (k, v) ∈ sets → get k (apply_set sets d) = v.
Proof. intros. unfold get. by erewrite dict_lookup_apply_set_in. Qed.

(** ** Queries and cursors *)

Lemma find_cons q d (col : collection) :
  find q (d :: col) =
    (if matches q d then [(0%nat, d)] else []) ++
    ((λ id : nat * dict, (S id.1, id.2)) <$> find q col).
Proof.
  unfold find. rewrite imap_cons. simpl.
  assert (imap ((λ i (d0 : dict), (i, d0)) ∘ S) col =
          (λ id : nat * dict, (S id.1, id.2)) <$> imap (λ i d0, (i, d0)) col) as ->.
  { rewrite fmap_imap. by apply imap_ext. }
  change (fmap ?f ?l) with (List.map f l).
  rewrite filter_map_swap. simpl.
  by destruct (matches q d).
Qed.

Lemma elem_of_find q (col : collection) i d :
  (i, d) ∈ find q col ↔ col !! i = Some d ∧ matches q d = true.
Proof.
  unfold find. rewrite list_elem_of_In, filter_In, <- list_elem_of_In.
  rewrite elem_of_lookup_imap. simpl. split.
  - intros [(j & y & [= -> ->] & Hl) Hm]. done.
  - intros [Hl Hm]. split; [|done]. by exists i, d.
Qed.

Lemma find_NoDup q (col : collection) : NoDup (find q col).*1.
Proof.
  induction col as [|d col IH]; [constructor|].
  rewrite find_cons, fmap_app, <- list_fmap_compose.
  assert (NoDup ((fst ∘ (λ id : nat * dict, (S id.1, id.2))) <$> find q col)) as Htl.
  { change (fst ∘ _) with (S ∘ (fst : nat * dict → nat)).
    rewrite list_fmap_compose. by apply (NoDup_fmap_2 S). }
  destruct (matches q d); simpl; [|done].
  apply NoDup_cons. split; [|done].
  intros (y & Hy & _)%list_elem_of_fmap. simpl in Hy. lia.
Qed.

Lemma find_one_Some q (col : collection) i d :
  find_one q col = Some (i, d) →
  col !! i = Some d ∧ matches q d = true ∧
  ∀ j d', (j < i)%nat → col !! j = Some d' → matches q d' = false.
Proof.
  unfold find_one. revert i.
  induction col as [|d0 col IH]; intros i; [done|].
  rewrite find_cons. destruct (matches q d0) eqn:Hm; simpl.
  - intros [= <- <-]. repeat split; [done|]. intros; lia.
  - destruct (find q col) as [|[i' d'] l] eqn:Hf; simpl; [done|].
    intros [= <- <-]. destruct (IH i' eq_refl) as (Hl & Hd & Hlt).
    repeat split; [done..|].
    intros [|j] d'' Hj Hlk; simpl in Hlk; [congruence|].
    apply (Hlt j); [lia|done].
Qed.

Lemma find_one_None q (col : collection) :
  find_one q col = None ↔ ∀ d, d ∈ col → matches q d = false.
Proof.
  unfold find_one. rewrite head_None. split.
  - intros Hnil d [i Hi]%list_elem_of_lookup.
    destruct (matches q d) eqn:Hm; [|done].
    assert ((i, d) ∈ find q col) as Hin by by apply elem_of_find.
    rewrite Hnil in Hin. by apply not_elem_of_nil in Hin.
  - intros Hall. destruct (find q col) as [|[i d] l] eqn:Hf; [done|].
    assert ((i, d) ∈ find q col) as [Hl Hm]%elem_of_find
      by (rewrite Hf; apply list_elem_of_here).
    rewrite Hall in Hm; [done|]. apply list_elem_of_lookup; eauto.
Qed.

Lemma find_one_is_Some q (col : collection) d :
  d ∈ col → matches q d = true → is_Some (find_one q col).
Proof.
  intros Hin Hm. destruct (find_one q col) eqn:Hf; [eauto|].
  rewrite find_one_None in Hf. rewrite (Hf d Hin) in Hm. done.
Qed.

(** A loop over a cursor in which every document is rewritten at its own
    [_id]: the documents outside the cursor stay as they are, the others are
    rewritten once. *)
Lemma fold_alter_notin (G : dict → dict → dict) (cursor : list (nat * dict))
    (col : collection) i :
  i ∉ cursor.*1 →
  fold_left (λ c id, alter (G id.2) id.1 c) cursor col !! i = col !! i.
Proof.
  revert col. induction cursor as [|[j dj] cursor IH]; intros col Hi; [done|].
  simpl. rewrite IH by (intros ?; apply Hi; by right).
  apply list_lookup_alter_ne. intros ->. apply Hi. by left.
Qed.

Lemma fold_alter_in (G : dict → dict → dict) (cursor : list (nat * dict))
    (col : collection) i d :
  NoDup cursor.*1 → (i, d) ∈ cursor →
  fold_left (λ c id, alter (G id.2) id.1 c) cursor col !! i = G d <$> col !! i.
Proof.
  revert col. induction cursor as [|[j dj] cursor IH]; intros col Hnd Hin.
  - by apply not_elem_of_nil in Hin.
  - apply NoDup_cons in Hnd as [Hj Hnd]. simpl.
    apply elem_of_cons in Hin as [[= -> ->]|Hin].
    + rewrite fold_alter_notin by done. apply list_lookup_alter_eq.
    + rewrite IH by done. rewrite list_lookup_alter_ne; [done|].
      intros ->. apply Hj. apply list_elem_of_fmap. by exists (i, d).
Qed.

Lemma fold_alter_find (G : dict → dict → dict) q (col : collection) i d :
  col !! i = Some d →
  fold_left (λ c id, alter (G id.2) id.1 c) (find q col) col !! i =
    Some (if matches q d then G d d else d).
Proof.
  intros Hi. destruct (matches q d) eqn:Hm.
  - rewrite (fold_alter_in G _ _ i d); [by rewrite Hi|apply find_NoDup|].
    by apply elem_of_find.
  - rewrite fold_alter_notin; [done|].
    intros ([j d'] & -> & [Hl Hm']%elem_of_find)%list_elem_of_fmap.
    simpl in *. congruence.
Qed.

(** ** Text *)

Lemma is_space_upper_char c : is_space (upper_char c) = is_space c.
Proof. by destruct c as [[] [] [] [] [] [] [] []]. Qed.

Lemma no_space_upper s : no_space (upper s) = no_space s.
Proof.
  unfold upper. induction s as [|c s IH]; simpl; [done|].
  by rewrite is_space_upper_char, IH.
Qed.

Lemma lstrip_no_space s : no_space s = true → lstrip s = s.
Proof. destruct s as [|c s]; simpl; [done|]. by destruct (is_space c). Qed.

Lemma rstrip_no_space s : no_space s = true → rstrip s = s.
Proof.
  induction s as [|c s IH]; simpl; [done|].
  intros [Hc Hs]%andb_prop. rewrite IH by done.
  destruct s; [|done]. by destruct (is_space c).
Qed.

Lemma strip_no_space s : no_space s = true → strip s = s.
Proof.
  intros Hs. unfold strip. rewrite lstrip_no_space by done.
  by apply rstrip_no_space.
Qed.

(** Slices: a text cut at a character is its two parts put together. *)
Lemma append_String c (a b : string) :
  (String c a ++ b)%string = String c (a ++ b)%string.
Proof. reflexivity. Qed.

Lemma append_assoc (a b c : string) :
  ((a ++ b) ++ c)%string = (a ++ b ++ c)%string.
Proof.
  induction a as [|x a IH]; [done|]. by rewrite !append_String, IH.
Qed.

Lemma take_chars_nil n : take_chars n "" = "".
Proof. by destruct n. Qed.

Lemma drop_chars_nil n : drop_chars n "" = "".
Proof. by destruct n. Qed.

Lemma take_skip_cont s : (take_cont s ++ skip_cont s)%string = s.
Proof.
  induction s as [|c s IH]; [done|].
  cbn [take_cont skip_cont]. destruct (is_cont c); [|done].
  by rewrite append_String, IH.
Qed.

Lemma take_chars_add n m s :
  take_chars (n + m) s
  = (take_chars n s ++ take_chars m (drop_chars n s))%string.
Proof.
  revert s. induction n as [|n IH]; intros s; [done|].
  destruct s as [|c s]; [by rewrite drop_chars_nil, !take_chars_nil|].
  cbn [Nat.add take_chars drop_chars].
  by rewrite IH, append_String, append_assoc.
Qed.

Lemma drop_chars_add n m s :
  drop_chars (n + m) s = drop_chars m (drop_chars n s).
Proof.
  revert s. induction n as [|n IH]; intros s; simpl; [done|].
  destruct s as [|c s]; simpl; [by rewrite drop_chars_nil|apply IH].
Qed.

Lemma take_drop_chars n s : (take_chars n s ++ drop_chars n s)%string = s.
Proof.
  revert s. induction n as [|n IH]; intros s; [done|].
  destruct s as [|c s]; [done|].
  cbn [take_chars drop_chars].
  by rewrite append_String, append_assoc, IH, take_skip_cont.
Qed.

(** On an ASCII text the characters are the bytes. *)
Lemma is_ascii_not_cont c : (code c <? 128)%N = true → is_cont c = false.
Proof.
  unfold is_cont. intros Hc%N.ltb_lt.
  destruct (N.leb_spec 128 (code c)); [lia|done].
Qed.

Lemma skip_cont_ascii s : is_ascii_text s = true → skip_cont s = s.
Proof.
  destruct s as [|c s]; simpl; [done|].
  intros [Hc _]%andb_prop. by rewrite is_ascii_not_cont.
Qed.

Lemma take_cont_ascii s : is_ascii_text s = true → take_cont s = "".
Proof.
  destruct s as [|c s]; simpl; [done|].
  intros [Hc _]%andb_prop. by rewrite is_ascii_not_cont.
Qed.

Lemma py_len_ascii s : is_ascii_text s = true → py_len s = String.length s.
Proof.
  induction s as [|c s IH]; simpl; [done|].
  intros [Hc Hs]%andb_prop. by rewrite is_ascii_not_cont, IH.
Qed.

Lemma drop_chars_ascii n s :
  is_ascii_text s = true →
  is_ascii_text (drop_chars n s) = true ∧
  ∀ m, take_chars m (drop_chars n s) = substring n m s.
Proof.
  revert s. induction n as [|n IH]; intros s Hs.
  - split; [done|]. intros m. revert s Hs.
    induction m as [|m IHm]; intros s Hs; [by destruct s|].
    destruct s as [|c s]; [done|]. simpl in Hs.
    apply andb_prop in Hs as [Hc Hs]. cbn [drop_chars take_chars substring].
    rewrite take_cont_ascii, skip_cont_ascii by done.
    f_equal. by apply (IHm s).
  - destruct s as [|c s].
    + split; [done|]. intros m. by destruct m.
    + simpl in Hs. apply andb_prop in Hs as [Hc Hs].
      cbn [drop_chars substring]. rewrite skip_cont_ascii by done.
      by apply IH.
Qed.

Lemma py_slice_ascii a b s :
  is_ascii_text s = true → py_slice a b s = substring a (b - a) s.
Proof. intros Hs. by apply drop_chars_ascii. Qed.

(** The texts of ASCII digits: [isdigit] holds of them, and [int] parses
    those that are not too long. *)
Lemma all_digits_ascii s : all_digits s = true → is_ascii_text s = true.
Proof.
  induction s as [|c s IH]; simpl; [done|].
  intros [Hc Hs]%andb_prop. rewrite IH by done.
  by destruct c as [[] [] [] [] [] [] [] []].
Qed.

Lemma all_digits_no_space s : all_digits s = true → no_space s = true.
Proof.
  induction s as [|c s IH]; simpl; [done|].
  intros [Hc Hs]%andb_prop. rewrite IH by done.
  by destruct c as [[] [] [] [] [] [] [] []].
Qed.

Lemma isdigit_digits `{PyRuntime} s :
  all_digits s = true → s ≠ "" → isdigit s = true.
Proof.
  intros Hs Hne. unfold isdigit. rewrite all_digits_ascii, Hs by done.
  by apply String.eqb_neq in Hne as ->.
Qed.

Lemma uint_of_char_digit c d :
  is_digit c = true → is_Some (uint_of_char c (Some d)).
Proof.
  destruct c as [[] [] [] [] [] [] [] []]; try discriminate; intros _;
    by eexists.
Qed.

Lemma uint_of_string_digits s :
  all_digits s = true → is_Some (NilEmpty.uint_of_string s).
Proof.
  induction s as [|c s IH]; simpl; [eauto|].
  intros [Hc Hs]%andb_prop. destruct (IH Hs) as [d ->].
  by apply uint_of_char_digit.
Qed.

Lemma py_int_digits `{PyRuntime} s :
  all_digits s = true → s ≠ "" →
  (String.length s ≤ int_max_str_digits)%nat →
  ∃ d, NilEmpty.uint_of_string s = Some d ∧ py_int s = Ok (Z.of_uint d).
Proof.
  intros Hs Hne Hlen. unfold py_int.
  destruct (uint_of_string_digits s Hs) as [d ->]. exists d. split; [done|].
  apply String.eqb_neq in Hne as ->.
  by apply Nat.leb_le in Hlen as ->.
Qed.

(** ** The code normaliser *)

Import backfill_substatus.

(** [_normalize_code] sends [None] and every NaN or infinite float to
    absent; any other input is stringified and stripped, the empty text and
    the text "nan" in any casing are absent, and the stripped text is
    returned otherwise. *)
Lemma normalize_code_rules `{PyRuntime} (code : value) :
  (code = VNone → _normalize_code code = None) ∧
  (∀ f, code = VFloat f → isnan f = true ∨ isinf f = true →
        _normalize_code code = None) ∧
  (code ≠ VNone →
   (∀ f, code = VFloat f → isnan f = false ∧ isinf f = false) →
   _normalize_code code =
     if decide (strip (py_str code) = "" ∨ lower (strip (py_str code)) = "nan")
     then None else Some (strip (py_str code))).
Proof.
  split; [|split].
  - by intros ->.
  - intros f -> [Hf|Hf]; unfold _normalize_code; simpl; rewrite Hf; simpl;
      [done|by rewrite orb_true_r].
  - intros Hnone Hfin. unfold _normalize_code.
    assert (is_None code = false) as -> by by destruct code.
    assert (_is_bad_number code = false) as ->.
    { destruct code; try done. simpl.
      by destruct (Hfin f eq_refl) as [-> ->]. }
    destruct (String.eqb_spec (strip (py_str code)) "") as [E1|E1]; simpl.
    { rewrite decide_True; [done|by left]. }
    destruct (String.eqb_spec (lower (strip (py_str code))) "nan") as [E2|E2].
    { rewrite decide_True; [done|by right]. }
    rewrite decide_False; [done|]. by intros [?|?].
Qed.

(** The outcomes of [_code_variants]: no set for a code that is not valid;
    the canonical text alone when it is not all digits; the text and the
    number it is parsed to when it is; and the exception of [int] when the
    text is all digits and [int] does not parse it. *)
Lemma code_variants_cases `{PyRuntime} (code : value) :
  match _code_variants code with
  | Ok None => _normalize_code code = None
  | Ok (Some vs) =>
      ∃ norm, _normalize_code code = Some norm ∧
        (isdigit norm = false ∧ vs = [VStr norm] ∨
         isdigit norm = true ∧ ∃ n, py_int norm = Ok n ∧ vs = [VStr norm; VInt n])
  | Raise e =>
      ∃ norm, _normalize_code code = Some norm ∧ isdigit norm = true ∧
        py_int norm = Raise e
  end.
Proof.
  unfold _code_variants.
  destruct (_normalize_code code) as [norm|]; [|done].
  destruct (isdigit norm) eqn:Hd.
  - destruct (py_int norm) as [n|e] eqn:Hint; simpl.
    + exists norm. split; [done|]. right. split; [done|]. by exists n.
    + by exists norm.
  - exists norm. split; [done|]. by left.
Qed.

Lemma normalize_code_Some `{PyRuntime} code norm :
  _normalize_code code = Some norm →
  norm = strip (py_str code) ∧ norm ≠ "" ∧ lower norm ≠ "nan".
Proof.
  unfold _normalize_code.
  destruct (is_None code); [done|].
  destruct (_is_bad_number code); [done|].
  destruct (String.eqb (strip (py_str code)) "") eqn:E1; [done|].
  destruct (String.eqb (lower (strip (py_str code))) "nan") eqn:E2; [done|].
  intros [= <-]. by apply String.eqb_neq in E1, E2.
Qed.

(** The variants of a valid code whose canonical text is ASCII, whatever
    the runtime: the text alone when it is not all digits, and the text
    with the number it writes when it is all digits, and not so long that
    an interpreter may refuse to parse it. *)
Theorem code_variants_of_ascii_code `{PyRuntime} (code : value) (norm : string) :
  _normalize_code code = Some norm →
  is_ascii_text norm = true →
  (all_digits norm = false → _code_variants code = Ok (Some [VStr norm])) ∧
  (all_digits norm = true →
   (String.length norm ≤ int_max_str_digits)%nat →
   ∃ d, NilEmpty.uint_of_string norm = Some d ∧
        _code_variants code = Ok (Some [VStr norm; VInt (Z.of_uint d)])).
Proof.
  intros Hn Hascii. pose proof (normalize_code_Some code norm Hn) as (_ & Hne & _).
  unfold _code_variants. rewrite Hn. split.
  - intros Hd. unfold isdigit. rewrite Hascii, Hd. by rewrite andb_false_r.
  - intros Hd Hlen. rewrite isdigit_digits by done.
    destruct (py_int_digits norm Hd Hne Hlen) as (d & Hparse & ->).
    by exists d.
Qed.

(** The variants of " 007 " are "007" and 7. *)
Lemma code_variants_of_ascii_code_witness :
  @_code_variants plain_repr (VStr " 007 ") = Ok (Some [VStr "007"; VInt 7]).
Proof.
  destruct (proj2 (@code_variants_of_ascii_code plain_repr (VStr " 007 ")
                     "007" eq_refl eq_refl) eq_refl)
    as (d & Hd & Hv).
  - vm_compute. lia.
  - injection Hd as <-. exact Hv.
Defined.

(** The normaliser and the variants on the inputs the specification lists:
    the variants of "007" are "007" and 7. *)
Example normalize_code_on_samples :
  @_normalize_code plain_repr VNone = None ∧
  @_normalize_code plain_repr (VFloat S754_nan) = None ∧
  @_normalize_code plain_repr (VStr "") = None ∧
  @_normalize_code plain_repr (VStr " NaN ") = None ∧
  @_normalize_code plain_repr (VStr " 007 ") = Some "007" ∧
  @_code_variants plain_repr (VStr "007") = Ok (Some [VStr "007"; VInt 7]) ∧
  @_code_variants plain_repr (VInt 12) = Ok (Some [VStr "12"; VInt 12]) ∧
  @_code_variants plain_repr (VStr "A-7") = Ok (Some [VStr "A-7"]).
Proof. by vm_compute. Qed.

(** C5. A code that is a superscript two is valid, and its text is all
    digits for [isdigit]; [int] does not parse it, so [_code_variants]
    raises [ValueError] where a set that holds the canonical text is
    expected. *)
Theorem code_variants_raise_on_superscript_two :
  @_normalize_code plain_repr (VStr "²") = Some "²" ∧
  @isdigit plain_repr "²" = true ∧
  @py_int plain_repr "²" = Raise ValueError ∧
  @_code_variants plain_repr (VStr "²") = Raise ValueError.
Proof. by vm_compute. Qed.

(** ** The route key *)

Import get_routes.





(** ** The carrier tag *)

Import backfill_ct.

(** A name that is CODCOMU in some casing is recognised as it stands. *)
Lemma is_codcomu_any_casing `{PyRuntime} (tag : dict) s :
  tag_name tag = VStr s → upper s = "CODCOMU" → is_codcomu tag = true.
Proof.
  intros Hn Hu. unfold is_codcomu. rewrite Hn. simpl.
  assert (no_space s = true) as Hs by by rewrite <- no_space_upper, Hu.
  rewrite strip_no_space, Hu by done.
  destruct s; [done|]. done.
Qed.

Lemma tags_loop_skip `{PyRuntime} (pre : list dict) (rest : list value) :
  Forall (λ t, is_codcomu t = false) pre →
  tags_loop ((VDict <$> pre) ++ rest) = tags_loop rest.
Proof. induction 1 as [|t pre Ht _ IH]; simpl; [done|by rewrite Ht]. Qed.

(** C6, as the code has it. A tag is the CODCOMU entry when its name (read
    from [name], or from [Name] when [name] is unset), stringified and
    stripped of surrounding blanks, is CODCOMU in any casing. The value of
    the first such entry (read from [value], or from [Value] when [value]
    is unset) is returned stringified and stripped, absent when it is
    [None]; a list of tags without such an entry, and a [tags] field that
    is not a list, give absent. *)
Theorem extract_codcomu_value_spec `{PyRuntime} (disp_doc : dict) :
  ((∀ l, get "tags" disp_doc ≠ VList l) →
     _extract_codcomu_value disp_doc = Ok None) ∧
  (∀ tags, get "tags" disp_doc = VList (VDict <$> tags) →
     Forall (λ t, is_codcomu t = false) tags →
     _extract_codcomu_value disp_doc = Ok None) ∧
  (∀ pre tag post,
     get "tags" disp_doc = VList (VDict <$> pre ++ tag :: post) →
     Forall (λ t, is_codcomu t = false) pre →
     is_codcomu tag = true →
     _extract_codcomu_value disp_doc =
       Ok (if is_None (tag_value tag) then None
           else Some (strip (py_str (tag_value tag))))) ∧
  (∀ tag s, tag_name tag = VStr s → upper (strip s) = "CODCOMU" →
     is_codcomu tag = true).
Proof.
  unfold _extract_codcomu_value. repeat split.
  - intros Hl. destruct (get "tags" disp_doc); try done. by destruct (Hl l).
  - intros tags -> Hall.
    rewrite <- (app_nil_r (VDict <$> tags)). by rewrite tags_loop_skip.
  - intros pre tag post -> Hpre Htag.
    rewrite fmap_app, tags_loop_skip by done. simpl. rewrite Htag.
    by destruct (is_None (tag_value tag)).
  - intros tag s Hn Hu. unfold is_codcomu. rewrite Hn. simpl. rewrite Hu.
    destruct s; [done|]. done.
Qed.

(** The second tag is the entry; its name is spelt [Name] and [CodComu]. *)
Lemma extract_codcomu_value_spec_witness :
  @_extract_codcomu_value plain_repr disp_two_tags = Ok (Some "123").
Proof.
  refine (eq_trans (proj1 (proj2 (proj2
            (@extract_codcomu_value_spec plain_repr disp_two_tags)))
            [[("name", VStr "FECSOLDES"); ("value", VStr "20251126")]]
            [("Name", VStr "CodComu"); ("Value", VStr " 123 ")] [] _ _ _) _).
  - reflexivity.
  - repeat constructor.
  - reflexivity.
  - reflexivity.
Defined.

(** The name [" codcomu "] is not CODCOMU in any casing, and the list has no
    other entry, yet the value of the entry is returned. *)
Lemma padded_codcomu_name_is_matched :
  String.eqb (upper " codcomu ") "CODCOMU" = false ∧
  @_extract_codcomu_value plain_repr disp_padded_codcomu = Ok (Some "123").
Proof. split; reflexivity. Qed.

(** ** The order type *)

Import backfill_tipo_orden_from_tags.

Lemma tipo_orden_tags_loop_skip (pre rest : list value) :
  Forall (λ t, is_tipo_orden_tag t = false) pre →
  backfill_tipo_orden_from_tags.tags_loop (pre ++ rest) =
  backfill_tipo_orden_from_tags.tags_loop rest.
Proof.
  induction 1 as [|t pre Ht _ IH]; simpl; [done|].
  destruct t; try done. simpl in Ht. by rewrite Ht.
Qed.

Lemma tipo_orden_run_fold (cursor : list (nat * dict)) (st : collection * Z) :
  (fold_left visit cursor st).1 =
  fold_left (λ c id, alter (tipo_orden_rewrite id.2) id.1 c) cursor st.1.
Proof.
  revert st. induction cursor as [|[j dj] cursor IH]; intros st; [done|].
  simpl. rewrite IH. f_equal.
  unfold visit, tipo_orden_rewrite. simpl.
  destruct (is_None _); simpl; [|done].
  symmetry. by apply list_alter_id.
Qed.

(** What [run] leaves at the place of each document. *)
Lemma tipo_orden_run_lookup (col : collection) i (d : dict) :
  col !! i = Some d →
  (run col).1 !! i =
    Some (if matches [("tipo_orden", CExists false)] d
          then tipo_orden_rewrite d d else d).
Proof.
  intros Hi. unfold run. rewrite tipo_orden_run_fold.
  exact (fold_alter_find tipo_orden_rewrite _ col i d Hi).
Qed.

(** What the job writes. A dispatch is scanned when it has no
    [tipo_orden] field. [tipo_orden] is written exactly when the first tag
    object named TIPO_ORDEN, letter for letter, has a value other than
    [None], and that value is written as it is; without such a tag, or
    when its value is [None], the document is left as it was, like every
    document that is not scanned. *)
Theorem tipo_orden_written_unless_None (col : collection) i (d : dict) :
  col !! i = Some d →
  let v := extract_tipo_orden (get_default "tags" (VList []) d) in
  (dict_lookup "tipo_orden" d ≠ None → (run col).1 !! i = Some d) ∧
  (dict_lookup "tipo_orden" d = None → v = VNone →
     (run col).1 !! i = Some d) ∧
  (dict_lookup "tipo_orden" d = None → v ≠ VNone →
     (run col).1 !! i = Some (dict_set "tipo_orden" v d)) ∧
  (∀ pre tag post,
     get_default "tags" (VList []) d = VList (pre ++ VDict tag :: post) →
     Forall (λ t, is_tipo_orden_tag t = false) pre →
     get "name" tag = VStr "TIPO_ORDEN" →
     v = get "value" tag) ∧
  (∀ l, get_default "tags" (VList []) d = VList l →
     Forall (λ t, is_tipo_orden_tag t = false) l → v = VNone) ∧
  ((∀ l, get_default "tags" (VList []) d ≠ VList l) → v = VNone).
Proof.
  intros Hi v.
  pose proof (tipo_orden_run_lookup col i d Hi) as Hrun.
  unfold matches, tipo_orden_rewrite in Hrun. simpl in Hrun. fold v in Hrun.
  repeat split.
  - intros Hex. rewrite Hrun.
    destruct (dict_lookup "tipo_orden" d); [|done].
    by rewrite bool_decide_eq_true_2.
  - intros _ Hv. rewrite Hrun, Hv. simpl. by destruct (Bool.eqb _ _ && true).
  - intros Hex Hv. rewrite Hrun, Hex. simpl.
    by destruct v.
  - intros pre tag post Ht Hpre Hn. unfold v. rewrite Ht. simpl.
    rewrite tipo_orden_tags_loop_skip by done. simpl. by rewrite Hn.
  - intros l Ht Hl. unfold v. rewrite Ht. simpl.
    rewrite <- (app_nil_r l). by rewrite tipo_orden_tags_loop_skip.
  - intros Hl. unfold v. destruct (get_default _ _ d); try done.
    by destruct (Hl l).
Qed.

(** The second tag is the one named TIPO_ORDEN; its value is written. *)
Lemma tipo_orden_written_unless_None_witness :
  (run [disp_empty_tipo_orden; disp_with_tipo_orden]).1 !! 1%nat =
  Some (disp_with_tipo_orden ++ [("tipo_orden", VStr "RETIRO")]).
Proof.
  refine (eq_trans (proj1 (proj2 (proj2
            (tipo_orden_written_unless_None
               [disp_empty_tipo_orden; disp_with_tipo_orden] 1
               disp_with_tipo_orden eq_refl))) eq_refl _) eq_refl).
  vm_compute. discriminate.
Defined.

(** C7. A dispatch without [tipo_orden] whose TIPO_ORDEN tag has the
    empty text for value: the job writes the empty text as the order type
    and counts an update, where nothing is to be written for a value that
    is not present or is empty, and a second run does not look at the
    dispatch any more. The job of one route, on a dispatch with the same
    tag, writes nothing. *)
Theorem tipo_orden_empty_value_is_written :
  run [disp_empty_tipo_orden] =
    ([disp_empty_tipo_orden ++ [("tipo_orden", VStr "")]], 1) ∧
  run (run [disp_empty_tipo_orden]).1 =
    ([disp_empty_tipo_orden ++ [("tipo_orden", VStr "")]], 0) ∧
  jobs.backfill_tipo_orden_from_tags.run
    [[("dispatch_key", VStr "D1"); ("route_key", VStr "R1");
      ("dispatch_raw", VDict disp_empty_tipo_orden)]] "R1"
  = ([[("dispatch_key", VStr "D1"); ("route_key", VStr "R1");
       ("dispatch_raw", VDict disp_empty_tipo_orden)]], Ok tt).
Proof. by vm_compute. Qed.

(** ** The sub-status mapping *)

Lemma dict_lookup_project k fields (d : dict) :
  k ∈ fields → dict_lookup k (project fields d) = dict_lookup k d.
Proof.
  intros Hk. unfold project.
  induction d as [|[k' v'] d IH]; simpl; [done|].
  destruct (String.eqb_spec k k') as [<-|Hne].
  - rewrite bool_decide_eq_true_2 by done. simpl. by rewrite String.eqb_refl.
  - destruct (bool_decide (k' ∈ fields)); simpl; [|done].
    by apply String.eqb_neq in Hne as ->.
Qed.

Lemma matches_In_lookup fld vs (row : dict) :
  Forall (λ v, is_None v = false) vs →
  matches [(fld, CIn vs)] row = true → is_Some (dict_lookup fld row).
Proof.
  unfold matches. simpl. rewrite andb_true_r.
  destruct (dict_lookup fld row); [eauto|].
  intros Hvs Hex. exfalso.
  induction Hvs as [|v vs Hv _ IH]; simpl in Hex; [done|].
  rewrite Hv in Hex. by apply IH.
Qed.

(** The three fields computed for a dispatch, by the cases of the code.
    The computation raises for a valid code whose text is all digits, when
    [int] does not parse the text or parses it to a number that does not
    fit in 8 bytes, which the driver does not encode; it raises for no
    other code. *)
Lemma update_fields_cases `{PyRuntime} (sub_col : collection) (disp : dict) :
  let code := get "substatus_code" disp in
  match update_fields sub_col disp with
  | Ok fields =>
      ∃ eb eg ci,
        fields = [("estado_beetrack", eb); ("estado_guia", eg); ("cierre", ci)] ∧
        (_normalize_code code = None → eb = VNone ∧ eg = VNone ∧ ci = VNone) ∧
        (∀ vs, _code_variants code = Ok (Some vs) →
           find_one [("Código Sub", CIn vs)] sub_col = None →
           eb = VNone ∧ eg = VNone ∧ ci = VNone) ∧
        (∀ vs j row, _code_variants code = Ok (Some vs) →
           find_one [("Código Sub", CIn vs)] sub_col = Some (j, row) →
           eb = get "Estado Beetrack" row ∧ eg = get "Estado Guía" row ∧
           ci = get "Cierre" row)
  | Raise e =>
      ∃ norm, _normalize_code code = Some norm ∧ isdigit norm = true ∧
        (py_int norm = Raise e ∨
         ∃ n, py_int norm = Ok n ∧ bson_int n = false ∧ e = OverflowError)
  end.
Proof.
  intros code. unfold update_fields. fold code.
  pose proof (code_variants_cases code) as Hcases.
  destruct (_normalize_code code) as [norm|] eqn:Hn.
  2:{ do 3 eexists. split; [done|]. split; [done|].
      destruct (_code_variants code) as [[vs|]|e]; [|by split|].
      - by destruct Hcases as (? & ? & _).
      - by destruct Hcases as (? & ? & _). }
  unfold _lookup_substatus.
  destruct (_code_variants code) as [[vs|]|e] eqn:Hv; simpl.
  - destruct Hcases as (norm' & [= <-] & Hvs).
    assert (vs ≠ [] ∧ Forall (λ v, is_None v = false) vs) as [Hne Hnn].
    { destruct Hvs as [[_ ->]|(_ & n & _ & ->)]; by repeat constructor. }
    destruct vs as [|v vs]; [done|].
    destruct (forallb encodable (v :: vs)) eqn:Henc; simpl.
    + destruct (find_one [("Código Sub", CIn (v :: vs))] sub_col)
        as [[j row]|] eqn:Hf; simpl.
      * pose proof (find_one_Some _ _ _ _ Hf) as (_ & Hm & _).
        apply matches_In_lookup in Hm as [x Hx]; [|done].
        set (fields := ["Código Sub"; "Estado Beetrack"; "Estado Guía"; "Cierre"]).
        assert (project fields row ≠ []) as Hp.
        { intros E.
          pose proof (dict_lookup_project "Código Sub" fields row) as Hl.
          rewrite E, Hx in Hl. discriminate Hl. key_in. }
        rewrite bool_decide_eq_false_2 by done. simpl.
        do 3 eexists. split; [done|]. split; [done|].
        split; intros vs' **; simplify_eq.
        unfold get. rewrite !dict_lookup_project by key_in. done.
      * do 3 eexists. split; [done|]. split; [done|].
        split; intros vs' **; by simplify_eq.
    + exists norm. split; [done|].
      destruct Hvs as [[_ [= -> ->]]|(Hd & n & Hint & [= -> ->])]; [done|].
      split; [done|]. right. exists n. split; [done|].
      simpl in Henc. by rewrite andb_true_r in Henc.
  - discriminate Hcases.
  - destruct Hcases as (norm' & [= <-] & Hd & Hint).
    exists norm. split; [done|]. split; [done|]. by left.
Qed.

Lemma update_fields_shape `{PyRuntime} (sub_col : collection) (disp : dict)
    fields :
  update_fields sub_col disp = Ok fields →
  ∃ eb eg ci,
    fields = [("estado_beetrack", eb); ("estado_guia", eg); ("cierre", ci)].
Proof.
  intros Hu. pose proof (update_fields_cases sub_col disp) as Hc.
  simpl in Hc. rewrite Hu in Hc. destruct Hc as (eb & eg & ci & -> & _).
  by exists eb, eg, ci.
Qed.

(** The fields depend on the [substatus_code] of the dispatch only. *)
Lemma update_fields_code `{PyRuntime} (sub_col : collection) (d d' : dict) :
  get "substatus_code" d' = get "substatus_code" d →
  update_fields sub_col d' = update_fields sub_col d.
Proof. intros Hc. unfold update_fields. by rewrite Hc. Qed.

(** The computation raises exactly on the codes that cannot be looked up. *)
Lemma update_fields_raise `{PyRuntime} (sub_col : collection) (disp : dict) e :
  update_fields sub_col disp = Raise e ↔ code_fails disp e.
Proof.
  split.
  - intros Hu. pose proof (update_fields_cases sub_col disp) as Hc.
    simpl in Hc. by rewrite Hu in Hc.
  - intros (norm & Hn & Hd & Hint).
    unfold update_fields, _lookup_substatus, _code_variants.
    rewrite Hn, Hd.
    destruct Hint as [->|(n & -> & Hb & ->)]; [done|].
    simpl. by rewrite Hb.
Qed.

Lemma update_fields_ok `{PyRuntime} (sub_col : collection) (disp : dict) :
  (∃ fields, update_fields sub_col disp = Ok fields) ↔ code_parses disp.
Proof.
  split.
  - intros [fields Hu] norm Hn Hd.
    destruct (py_int norm) as [n|e] eqn:Hint.
    + exists n. split; [done|].
      destruct (bson_int n) eqn:Hb; [done|].
      assert (update_fields sub_col disp = Raise OverflowError) as Hr.
      { apply update_fields_raise. exists norm. split; [done|].
        split; [done|]. right. by exists n. }
      congruence.
    + assert (update_fields sub_col disp = Raise e) as Hr.
      { apply update_fields_raise. exists norm. split; [done|].
        split; [done|]. by left. }
      congruence.
  - intros Hp. destruct (update_fields sub_col disp) as [fields|e] eqn:Hu;
      [by exists fields|].
    apply update_fields_raise in Hu as (norm & Hn & Hd & Hint).
    destruct (Hp norm Hn Hd) as (n & Hn' & Hb).
    destruct Hint as [?|(n' & ? & ? & _)]; congruence.
Qed.

(** C3. A dispatch whose code is a superscript two, or a text of twenty
    digits, stops the job: the code is valid and no row of the reference
    collection has it, yet the three fields of the dispatch are not set to
    [None], since [int] raises [ValueError] on the first code and the
    driver raises [OverflowError] on the number the second is parsed to;
    and the dispatch that follows keeps the [cierre] of an earlier run,
    which the job would set to [None]. *)
Theorem substatus_run_aborts_on_unparsable_code :
  @backfill_substatus.run plain_repr sample_substatus
    [disp_superscript_code; disp_stale]
  = ([disp_superscript_code; disp_stale], Raise ValueError) ∧
  @backfill_substatus.run plain_repr sample_substatus
    [disp_long_code; disp_stale]
  = ([disp_long_code; disp_stale], Raise OverflowError) ∧
  @backfill_substatus.run plain_repr sample_substatus [disp_stale]
  = ([[("dispatch_key", VStr "D2"); ("substatus_code", VNone);
       ("cierre", VNone); ("estado_beetrack", VNone);
       ("estado_guia", VNone)]], Ok tt).
Proof. by vm_compute. Qed.

(** ** The date-range fetcher *)

Import fetch_dispatches.

Lemma save_dispatch_extends dispatch (col : collection) :
  ∃ added, save_dispatch_to_mongo dispatch col = col ++ added.
Proof.
  unfold save_dispatch_to_mongo, update_one. simpl.
  destruct (find_one _ col) as [[i d]|].
  - exists []. by rewrite app_nil_r.
  - by eexists.
Qed.

Lemma for_each_save_extends (l : list value) (col : collection) :
  ∃ added, (for_each save l col).1 = col ++ added.
Proof.
  revert col. induction l as [|x l IH]; intros col; simpl.
  - exists []. by rewrite app_nil_r.
  - unfold save at 1. destruct x; try (exists []; by rewrite app_nil_r).
    destruct (save_dispatch_extends d col) as [a1 ->].
    destruct (IH (col ++ a1)) as [a2 Ha2].
    exists (a1 ++ a2). by rewrite Ha2, app_assoc.
Qed.

Lemma pages_extends requests_get fuel start_date end_date page
    (col : collection) :
  ∃ added, (pages requests_get fuel start_date end_date page col).1 = col ++ added.
Proof.
  revert page col. induction fuel as [|fuel IH]; intros page col; simpl;
    [exists []; by rewrite app_nil_r|].
  destruct (requests_get _ _ _) as [[status_code data]|];
    [|exists []; by rewrite app_nil_r].
  destruct (status_code =? 200); [|exists []; by rewrite app_nil_r].
  destruct data as [| | | | | | | |d]; try (exists []; by rewrite app_nil_r).
  destruct (negb _); [exists []; by rewrite app_nil_r|].
  destruct (get_default "response" (VList []) d) as [| | | | | | |l|];
    try (exists []; by rewrite app_nil_r).
  destruct (for_each_save_extends l col) as [a1 Ha1].
  destruct (for_each save l col) as [col' [[]|e]]; simpl in Ha1; subst col'.
  - destruct (IH (page + 1) (col ++ a1)) as [a2 Ha2].
    exists (a1 ++ a2). by rewrite Ha2, app_assoc.
  - by exists a1.
Qed.



(** ** Closed routes *)

Lemma update_one_still_closed op (col : collection) i d :
  keeps_closure op → still_closed i d col → still_closed i d (update_one op col).
Proof.
  intros [Hc Hf] (d' & Hi & Hcl & Hfr). unfold update_one.
  destruct (find_one (uo_filter op) col) as [[j dj]|].
  - unfold update_by_id. destruct (decide (j = i)) as [->|Hne].
    + exists (apply_set (uo_set op) d').
      rewrite list_lookup_alter_eq, Hi. split; [done|].
      by rewrite !get_apply_set_notin.
    + exists d'. by rewrite list_lookup_alter_ne.
  - destruct (uo_upsert op); [|by exists d'].
    exists d'. split; [|done]. by apply lookup_app_l_Some.
Qed.

Lemma bulk_write_still_closed ops (col : collection) i d :
  Forall keeps_closure ops → still_closed i d col →
  still_closed i d (bulk_write ops col).
Proof.
  unfold bulk_write. intros Hops. revert col.
  induction Hops as [|op ops Hop _ IH]; intros col Hcol; simpl; [done|].
  by apply IH, update_one_still_closed.
Qed.

Lemma route_op_keeps_closure `{PyRuntime} date_str page now route op :
  route_op date_str page now route = Some op → keeps_closure op.
Proof.
  unfold route_op. destruct (_extract_route_key route) as [[|c k]|]; [done| |done].
  intros [= <-]. split; key_notin.
Qed.

Lemma page_ops_keep_closure `{PyRuntime} date_str page now routes bulk_ops total :
  Forall keeps_closure bulk_ops →
  Forall keeps_closure (page_ops date_str page now routes bulk_ops total).1.
Proof.
  revert bulk_ops total.
  induction routes as [|route routes IH]; intros bulk_ops total Hb; simpl; [done|].
  destruct (route_op date_str page now route) as [op|] eqn:Hop; [|by apply IH].
  apply IH. apply Forall_app. split; [done|].
  constructor; [|done]. by eapply route_op_keeps_closure.
Qed.

Lemma upsert_page_still_closed `{PyRuntime} fetch (col : collection)
    date_str page now i d :
  still_closed i d col →
  still_closed i d (_upsert_routes_for_page fetch col date_str page now).1.
Proof.
  intros Hcol. unfold _upsert_routes_for_page.
  destruct (fetch date_str page) as [[|r routes_page]|]; [done| |done].
  pose proof (page_ops_keep_closure date_str page now (r :: routes_page) [] 0
                (Forall_nil_2 _)) as Hops.
  destruct (page_ops _ _ _ _ _ _) as [bulk_ops total]. simpl in *.
  destruct bulk_ops as [|op bulk_ops]; [done|].
  by apply bulk_write_still_closed.
Qed.

Lemma scan_still_closed `{PyRuntime} fetch fuel (col : collection)
    date_str page clock i d :
  still_closed i d col →
  still_closed i d (scan fetch fuel col date_str page clock).1.
Proof.
  revert col page. induction fuel as [|fuel IH]; intros col page Hcol; simpl;
    [done|].
  pose proof (upsert_page_still_closed fetch col date_str page (clock page)
                i d Hcol) as Hp.
  destruct (_upsert_routes_for_page _ _ _ _ _) as [col' [count|e]]; [|done].
  destruct (count =? 0); [done|]. by apply IH.
Qed.

Lemma for_each_refresh_notin fetch now (cursor : list (nat * dict))
    (col : collection) i :
  i ∉ cursor.*1 →
  (for_each (get_details_from_route.refresh fetch now) cursor col).1 !! i
  = col !! i.
Proof.
  revert col. induction cursor as [|[j dj] cursor IH]; intros col Hi; [done|].
  assert (j ≠ i) as Hne by (intros ->; apply Hi; by left).
  assert (i ∉ cursor.*1) as Hi' by (intros ?; apply Hi; by right).
  simpl. unfold get_details_from_route.refresh at 1. simpl.
  destruct (negb (truthy _)); [by apply IH|].
  destruct (fetch _) as [raw|[]]; simpl; try done; [|by apply IH].
  rewrite IH by done. unfold update_by_id. by rewrite list_lookup_alter_ne.
Qed.

Lemma mark_closed_lookup now i (col : collection) d :
  col !! i = Some d →
  ∃ d', closure.mark_closed now i col !! i = Some d' ∧
        get "is_closed" d' = VBool true ∧ get "closed_at" d' = VDate now ∧
        ∀ k, k ≠ "is_closed" → k ≠ "closed_at" →
             dict_lookup k d' = dict_lookup k d.
Proof.
  intros Hi. unfold closure.mark_closed, update_by_id.
  rewrite list_lookup_alter_eq, Hi. eexists. split; [reflexivity|].
  split; [by apply get_apply_set_in; [key_nodup|binding_in]|].
  split; [by apply get_apply_set_in; [key_nodup|binding_in]|].
  intros k H1 H2. apply dict_lookup_apply_set_notin. simpl.
  intros [->|[->|[]%elem_of_nil]%elem_of_cons]%elem_of_cons; done.
Qed.

Lemma mark_closed_other now i j (col : collection) :
  i ≠ j → closure.mark_closed now i col !! j = col !! j.
Proof. intros. unfold closure.mark_closed, update_by_id. by apply list_lookup_alter_ne. Qed.

(** C1, as the code has it. A route that is closed stays closed and keeps
    its [full_raw] under every job that writes the routes: the ingestion
    of a page and the whole scan, the detail refresh and the closure
    evaluator. The last two leave the whole document as it was; the
    ingestion rewrites [date], [page], [minified_raw] and
    [last_refreshed_at] of a closed route like those of an open one. *)
Theorem closed_route_stays_closed `{PyRuntime} (routes_col : collection)
    i (d : dict) :
  routes_col !! i = Some d →
  get "is_closed" d = VBool true →
  (∀ fetch date_str page now,
     still_closed i d
       (_upsert_routes_for_page fetch routes_col date_str page now).1) ∧
  (∀ fetch fuel date_str specific_page clock,
     still_closed i d
       (get_routes.run fetch fuel routes_col date_str specific_page clock).1) ∧
  (∀ fetch date_str now,
     (get_details_from_route.run fetch routes_col date_str now).1 !! i
     = Some d) ∧
  (∀ disp_col route_key now col',
     closure.run routes_col disp_col route_key now = Ok col' →
     col' !! i = Some d).
Proof.
  intros Hi Hcl.
  assert (still_closed i d routes_col) as Hst by by exists d.
  split; [|split; [|split]].
  - intros. by apply upsert_page_still_closed.
  - intros fetch fuel date_str [page|] clock; simpl.
    + pose proof (upsert_page_still_closed fetch routes_col date_str page
                    (clock page) i d Hst) as Hp.
      by destruct (_upsert_routes_for_page _ _ _ _ _) as [col' [count|e]].
    + by apply scan_still_closed.
  - intros fetch date_str now. unfold get_details_from_route.run.
    rewrite for_each_refresh_notin; [done|].
    intros ([j d'] & -> & [Hl Hm]%elem_of_find)%list_elem_of_fmap.
    simpl in *. rewrite Hi in Hl. injection Hl as <-.
    unfold matches in Hm. simpl in Hm.
    apply andb_prop in Hm as [_ Hm]. apply andb_prop in Hm as [Hm _].
    unfold get in Hcl. destruct (dict_lookup "is_closed" d) as [v|]; [|done].
    simpl in *. by subst v.
  - intros disp_col route_key now col'. unfold closure.run.
    destruct (find_one _ routes_col) as [[j route_doc]|] eqn:Hf;
      [|by intros [= <-]].
    apply find_one_Some in Hf as (Hj & _ & _).
    destruct (is_True (get "is_closed" route_doc)) eqn:Ht; [by intros [= <-]|].
    assert (j ≠ i) as Hne.
    { intros ->. rewrite Hi in Hj. injection Hj as <-. by rewrite Hcl in Ht. }
    destruct (closure._extract_dispatch_ids _) as [ids|e]; simpl; [|done].
    destruct ids as [|id ids].
    + intros [= <-]. by rewrite mark_closed_other.
    + destruct (closure.check _ _) as [[] ?]; intros [= <-];
        [by rewrite mark_closed_other|done].
Qed.

(** R1 is closed; the refresh and the evaluator do not touch it, and the
    ingestion of its page keeps it closed. *)
Lemma closed_route_stays_closed_witness :
  still_closed 0 closed_route_R1
    (@_upsert_routes_for_page plain_repr (λ _ _, Ok [listing_item_R1])
       [closed_route_R1] "2025-11-26" 1 3000).1 ∧
  (get_details_from_route.run (λ _, Ok (VDict [("number", VStr "R1")]))
     [closed_route_R1] "2025-11-26" 3000).1 !! 0%nat = Some closed_route_R1.
Proof.
  destruct (@closed_route_stays_closed plain_repr [closed_route_R1] 0
              closed_route_R1 eq_refl eq_refl) as (H1 & _ & H3 & _).
  split; [apply H1|apply H3].
Defined.

(** The ingestion of the page on which R1 is listed again writes the new
    listing item over the [minified_raw] of the closed route. *)
Lemma reingestion_rewrites_minified_raw_of_closed_route :
  get "is_closed" closed_route_R1 = VBool true ∧
  get "minified_raw" closed_route_R1 =
    VDict [("number", VStr "R1"); ("status", VStr "started")] ∧
  get "minified_raw" <$>
    (@_upsert_routes_for_page plain_repr (λ _ _, Ok [listing_item_R1])
       [closed_route_R1] "2025-11-26" 1 3000).1 !! 0%nat =
    Some (VDict [("number", VStr "R1"); ("status", VStr "finished")]).
Proof. repeat split. Qed.

(** ** The closure evaluator *)

Import closure.

Lemma check_fold (found : gmap string bool) ids (st : bool * list string) :
  (fold_left
     (λ (st : bool * list string) dk,
        match found !! dk with
        | None => (false, st.2 ++ [String.append dk " (missing)"])
        | Some false => (false, st.2 ++ [String.append dk " (cierre!=true)"])
        | Some true => st
        end) ids st).1
  = st.1 && forallb (λ dk, bool_decide (found !! dk = Some true)) ids.
Proof.
  revert st. induction ids as [|dk ids IH]; intros st; simpl.
  - by rewrite andb_true_r.
  - rewrite IH. destruct (found !! dk) as [[]|]; simpl.
    + done.
    + by rewrite andb_false_r.
    + by rewrite andb_false_r.
Qed.

Lemma check_all_closed (found : gmap string bool) ids :
  (check found ids).1 = true ↔ ∀ dk, dk ∈ ids → found !! dk = Some true.
Proof.
  unfold check. rewrite check_fold. simpl.
  rewrite forallb_forall. setoid_rewrite <- list_elem_of_In.
  split; intros Hall dk Hdk.
  - by apply (bool_decide_eq_true_1 _), Hall.
  - by apply (bool_decide_eq_true_2 _), Hall.
Qed.

(** The key and the flag under which a document of the cursor is entered
    in [found]. *)
Lemma found_fold_Some `{PyRuntime} (cursor : list (nat * dict))
    (m : gmap string bool) k b :
  fold_left
    (λ found (doc : nat * dict),
       <[py_str (get "dispatch_key" doc.2) := is_True (get "cierre" doc.2)]>
         found) cursor m !! k = Some b →
  m !! k = Some b ∨
  ∃ doc, doc ∈ cursor ∧ py_str (get "dispatch_key" doc.2) = k ∧
         b = is_True (get "cierre" doc.2).
Proof.
  revert m. induction cursor as [|doc cursor IH]; intros m; simpl; [by left|].
  intros [Hm|(doc' & Hin & Hk & Hb)]%IH.
  - destruct (decide (py_str (get "dispatch_key" doc.2) = k)) as [Hk|Hk].
    + rewrite <- Hk, lookup_insert_eq in Hm. injection Hm as <-.
      right. exists doc. split; [apply list_elem_of_here|done].
    + rewrite lookup_insert_ne in Hm by done. by left.
  - right. exists doc'. split; [by apply list_elem_of_further|done].
Qed.

Lemma found_fold_is_Some `{PyRuntime} (cursor : list (nat * dict))
    (m : gmap string bool) k :
  is_Some (m !! k) ∨
    (∃ doc, doc ∈ cursor ∧ py_str (get "dispatch_key" doc.2) = k) →
  is_Some (fold_left
    (λ found (doc : nat * dict),
       <[py_str (get "dispatch_key" doc.2) := is_True (get "cierre" doc.2)]>
         found) cursor m !! k).
Proof.
  revert m. induction cursor as [|doc cursor IH]; intros m; simpl.
  - intros [?|(doc & []%not_elem_of_nil & _)]. done.
  - intros [Hm|(doc' & [->|Hin]%elem_of_cons & Hk)]; apply IH.
    + left. destruct (decide (py_str (get "dispatch_key" doc.2) = k)) as [<-|Hk].
      * rewrite lookup_insert_eq. eauto.
      * by rewrite lookup_insert_ne.
    + left. rewrite <- Hk, lookup_insert_eq. eauto.
    + right. eauto.
Qed.

Lemma field_eq_str (s id : string) :
  field_eq (Some (VStr s)) (VStr id) = true ↔ s = id.
Proof.
  simpl. rewrite orb_false_r. apply String.eqb_eq.
Qed.

Lemma matches_key_In (ids : list string) (d : dict) s :
  dict_lookup "dispatch_key" d = Some (VStr s) →
  matches [("dispatch_key", CIn (VStr <$> ids))] d = true ↔ s ∈ ids.
Proof.
  intros Hk. unfold matches. simpl. rewrite Hk, andb_true_r.
  rewrite existsb_exists. setoid_rewrite <- list_elem_of_In. split.
  - intros (q & (id & -> & Hid)%list_elem_of_fmap & Hq).
    apply field_eq_str in Hq. by subst.
  - intros Hs. exists (VStr s). split; [by apply list_elem_of_fmap_2|].
    by apply field_eq_str.
Qed.

Lemma get_str_lookup k (d : dict) s :
  get k d = VStr s → dict_lookup k d = Some (VStr s).
Proof. unfold get. destruct (dict_lookup k d); simpl; [by intros ->|done]. Qed.

(** Under the invariant, [found] holds for a listed key the flag of the one
    record stored under it, and nothing for a key without a record. *)
Lemma found_of_wf `{PyRuntime} (disp_col : collection) ids dk :
  dispatch_keys_wf disp_col → dk ∈ ids →
  found_of (find [("dispatch_key", CIn (VStr <$> ids))] disp_col) !! dk
    = Some true
  ↔ closed_record disp_col dk.
Proof.
  intros [Hstr Huniq] Hdk. unfold found_of.
  set (cursor := find _ disp_col).
  assert (∀ doc, doc ∈ cursor →
            disp_col !! doc.1 = Some doc.2 ∧
            ∃ s, dict_lookup "dispatch_key" doc.2 = Some (VStr s) ∧ s ∈ ids)
    as Hcur.
  { intros [j doc] [Hl Hm]%elem_of_find. split; [done|]. simpl.
    destruct (dict_lookup "dispatch_key" doc) as [v|] eqn:Hv.
    - destruct (Hstr doc v) as [s ->]; [apply list_elem_of_lookup; eauto|done|].
      exists s. split; [done|]. by apply (matches_key_In ids doc s).
    - exfalso. unfold matches in Hm. simpl in Hm. rewrite Hv in Hm.
      rewrite andb_true_r in Hm. apply existsb_exists in Hm as (q & Hq & Hn).
      apply list_elem_of_In, list_elem_of_fmap in Hq as (id & -> & _). done. }
  split.
  - intros [Hm|((j & doc) & Hin & Hk & Hb)]%found_fold_Some; [done|].
    destruct (Hcur _ Hin) as (Hl & s & Hs & _). simpl in *.
    exists doc. split; [apply list_elem_of_lookup; eauto|].
    unfold get in *. rewrite Hs in *. simpl in Hk. subst s.
    split; [done|]. destruct (default VNone _) as [|[]| | | | | | |]; done.
  - intros (d & [j Hj]%list_elem_of_lookup & Hk & Hc).
    apply get_str_lookup in Hk.
    assert ((j, d) ∈ cursor) as Hin.
    { apply elem_of_find. split; [done|]. by apply (matches_key_In ids d dk). }
    destruct (found_fold_is_Some cursor ∅ dk) as [b Hb].
    { right. exists (j, d). split; [done|]. simpl. unfold get. by rewrite Hk. }
    rewrite Hb. f_equal.
    apply found_fold_Some in Hb as [Hm|((j' & d') & Hin' & Hk' & ->)]; [done|].
    destruct (Hcur _ Hin') as (Hl' & s & Hs & _). simpl in *.
    assert (s = dk) as -> by (unfold get in Hk'; by rewrite Hs in Hk').
    assert (j' = j) as -> by by eapply Huniq.
    assert (d' = d) as -> by congruence.
    by rewrite Hc.
Qed.

(** The identifier list of a payload whose dispatches are objects: the
    stringified identifiers, in order, of the items that have one. *)
Lemma extract_dispatch_ids_spec `{PyRuntime} (payload : dict)
    (items : list dict) :
  get "dispatches" payload = VList (VDict <$> items) →
  _extract_dispatch_ids (VDict payload) =
    Ok (omap (λ d, if is_None (get "identifier" d) then None
                   else Some (py_str (get "identifier" d))) items).
Proof.
  intros Hd. unfold _extract_dispatch_ids. simpl. rewrite Hd. clear Hd.
  change (omap ?f items) with ([] ++ omap f items).
  generalize (@nil string) as ids.
  induction items as [|d items IH]; intros ids; simpl.
  - by rewrite app_nil_r.
  - destruct (is_None (get "identifier" d)); [apply IH|].
    fold (VDict <$> items). rewrite IH. by rewrite <- app_assoc.
Qed.

(** The decision of the evaluator, for the identifier list that it reads
    from the payload. *)
Lemma closure_run_on_ids `{PyRuntime}
    (routes_col disp_col : collection) route_key now i route_doc ids :
  find_one [("route_key", CEq (VStr route_key))] routes_col
    = Some (i, route_doc) →
  get "is_closed" route_doc ≠ VBool true →
  _extract_dispatch_ids (_get_route_payload route_doc) = Ok ids →
  dispatch_keys_wf disp_col →
  ((∀ id, id ∈ ids → closed_record disp_col id) →
     ∃ col' d', closure.run routes_col disp_col route_key now = Ok col' ∧
       col' !! i = Some d' ∧
       get "is_closed" d' = VBool true ∧ get "closed_at" d' = VDate now ∧
       (∀ k, k ≠ "is_closed" → k ≠ "closed_at" →
             dict_lookup k d' = dict_lookup k route_doc) ∧
       (∀ j, j ≠ i → col' !! j = routes_col !! j)) ∧
  (¬ (∀ id, id ∈ ids → closed_record disp_col id) →
     closure.run routes_col disp_col route_key now = Ok routes_col) ∧
  (ids = [] →
     closure.run routes_col disp_col route_key now
     = Ok (mark_closed now i routes_col)) ∧
  (∀ id, id ∈ ids →
     (∀ d, d ∈ disp_col → get "dispatch_key" d = VStr id →
           get "cierre" d ≠ VBool true) →
     closure.run routes_col disp_col route_key now = Ok routes_col).
Proof.
  intros Hf Hopen Hids Hwf.
  pose proof (find_one_Some _ _ _ _ Hf) as (Hi & _ & _).
  assert (closure.run routes_col disp_col route_key now =
          Ok (if (check (found_of (find [("dispatch_key", CIn (VStr <$> ids))]
                                      disp_col)) ids).1
              then mark_closed now i routes_col else routes_col)) as Hrun.
  { unfold closure.run. rewrite Hf.
    assert (is_True (get "is_closed" route_doc) = false) as ->.
    { destruct (get "is_closed" route_doc) as [|[]| | | | | | |]; done. }
    rewrite Hids. simpl. destruct ids as [|id ids]; [done|].
    by destruct (check _ _) as [[] ?]. }
  assert ((check (found_of (find [("dispatch_key", CIn (VStr <$> ids))]
                              disp_col)) ids).1 = true
          ↔ ∀ id, id ∈ ids → closed_record disp_col id) as Hiff.
  { rewrite check_all_closed. split; intros Hall id Hid.
    - by apply (found_of_wf disp_col ids id), Hall.
    - by apply (found_of_wf disp_col ids id), Hall. }
  assert (¬ (∀ id, id ∈ ids → closed_record disp_col id) →
            closure.run routes_col disp_col route_key now = Ok routes_col)
    as Hno.
  { intros Hnot. rewrite Hrun. destruct (check _ _).1; [|done].
    destruct Hnot. by apply Hiff. }
  split; [|split; [|split]].
  - intros Hall. apply Hiff in Hall. rewrite Hrun, Hall.
    destruct (mark_closed_lookup now i routes_col route_doc Hi)
      as (d' & Hd' & Hc & Ha & Hk).
    exists (mark_closed now i routes_col), d'.
    repeat split; try done. intros j Hj. by apply mark_closed_other.
  - apply Hno.
  - intros ->. rewrite Hrun. done.
  - intros id Hid Hnone. apply Hno. intros Hall.
    destruct (Hall id Hid) as (d & Hd & Hk & Hc). by apply (Hnone d).
Qed.

Lemma working_payload_get `{PyRuntime} (route_doc payload : dict) :
  working_payload route_doc payload →
  _get_route_payload route_doc = VDict payload.
Proof.
  unfold _get_route_payload, py_or.
  intros [[-> Hne]|(-> & -> & Hne)]; simpl;
    rewrite !bool_decide_eq_false_2 by done; simpl;
    by rewrite ?bool_decide_eq_false_2 by done.
Qed.

Lemma listed_ids `{PyRuntime} (items : list dict) id :
  id ∈ omap (λ d, if is_None (get "identifier" d) then None
                  else Some (py_str (get "identifier" d))) items
  ↔ listed items id.
Proof.
  rewrite list_elem_of_omap. unfold listed.
  split; intros (item & Hin & Hid); exists item; (split; [done|]).
  - destruct (get "identifier" item); simpl in Hid; by simplify_eq.
  - destruct Hid as [Hn ->]. by destruct (get "identifier" item).
Qed.

(** C2. For a route that is stored and not closed, over a dispatches
    collection that keeps one record per key. The evaluator works on the
    detailed payload of the route when it has one and on the item of the
    listing otherwise, and the dispatches it asks for are those of the
    items of that payload that have an identifier, each under the text of
    its identifier. It writes [is_closed = True] and [closed_at = now] on
    the route, and nothing else, exactly when every one of them has a
    record whose [cierre] is the boolean [True]; so it does when the
    payload lists nothing, and it leaves the routes as they were as soon
    as one listed dispatch has no record or a [cierre] that is not
    [True]. *)
Theorem route_closes_iff_every_cierre_true `{PyRuntime}
    (routes_col disp_col : collection) route_key now i route_doc
    (payload : dict) (items : list dict) :
  find_one [("route_key", CEq (VStr route_key))] routes_col
    = Some (i, route_doc) →
  get "is_closed" route_doc ≠ VBool true →
  working_payload route_doc payload →
  get "dispatches" payload = VList (VDict <$> items) →
  dispatch_keys_wf disp_col →
  ((∀ id, listed items id → closed_record disp_col id) →
     ∃ col' d', closure.run routes_col disp_col route_key now = Ok col' ∧
       col' !! i = Some d' ∧
       get "is_closed" d' = VBool true ∧ get "closed_at" d' = VDate now ∧
       (∀ k, k ≠ "is_closed" → k ≠ "closed_at" →
             dict_lookup k d' = dict_lookup k route_doc) ∧
       (∀ j, j ≠ i → col' !! j = routes_col !! j)) ∧
  (¬ (∀ id, listed items id → closed_record disp_col id) →
     closure.run routes_col disp_col route_key now = Ok routes_col) ∧
  (items = [] →
     closure.run routes_col disp_col route_key now
     = Ok (mark_closed now i routes_col)) ∧
  (∀ id, listed items id →
     (∀ d, d ∈ disp_col → get "dispatch_key" d = VStr id →
           get "cierre" d ≠ VBool true) →
     closure.run routes_col disp_col route_key now = Ok routes_col).
Proof.
  intros Hf Hopen Hpay Hdisp Hwf.
  apply working_payload_get in Hpay.
  pose proof (extract_dispatch_ids_spec payload items Hdisp) as Hids.
  rewrite <- Hpay in Hids.
  destruct (closure_run_on_ids routes_col disp_col route_key now i route_doc
              _ Hf Hopen Hids Hwf) as (Hyes & Hno & Hnil & Hone).
  split; [|split; [|split]].
  - intros Hall. apply Hyes. intros id Hid. by apply Hall, listed_ids.
  - intros Hnot. apply Hno. intros Hall. apply Hnot.
    intros id Hid. by apply Hall, listed_ids.
  - intros ->. by apply Hnil.
  - intros id Hid. apply Hone. by apply listed_ids.
Qed.

(** R13 has a detailed payload that lists 11 and 12, and a listing item
    that names 99, which is not stored. With both stored under
    [cierre = True] the evaluator closes the route; with the [cierre] of
    11 only truthy it leaves the routes as they were. *)
Lemma route_closes_iff_every_cierre_true_witness :
  (∃ col' d',
     @closure.run plain_repr [closed_route_R1; open_route_R13]
       closed_dispatches "R13" 5000 = Ok col' ∧
     col' !! 1%nat = Some d' ∧
     get "is_closed" d' = VBool true ∧ get "closed_at" d' = VDate 5000) ∧
  @closure.run plain_repr [closed_route_R1; open_route_R13]
    half_closed_dispatches "R13" 5000
  = Ok [closed_route_R1; open_route_R13].
Proof.
  pose (items := [[("identifier", VInt 11)]; [("identifier", VStr "12")];
                  [("status", VStr "no identifier")]] : list dict).
  pose (payload := [("dispatches", VList (VDict <$> items))] : dict).
  assert (working_payload open_route_R13 payload) as Hpay
    by (left; by split).
  assert (get "is_closed" open_route_R13 ≠ VBool true) as Hopen
    by (vm_compute; discriminate).
  split.
  - destruct (@route_closes_iff_every_cierre_true plain_repr
                [closed_route_R1; open_route_R13] closed_dispatches "R13" 5000
                1 open_route_R13 payload items eq_refl Hopen Hpay eq_refl)
      as (Hclose & _).
    + split.
      * intros d v
          [->|[->|[->|[]%elem_of_nil]%elem_of_cons]%elem_of_cons]%elem_of_cons;
          vm_compute; intros [= <-]; eauto.
      * intros [|[|[|i]]] [|[|[|j]]] d1 d2 v; vm_compute; intros;
          simplify_eq; done.
    + destruct Hclose as (col' & d' & Hr & Hl & Hc & Ha & _).
      * intros id (item & Hin & Hn & ->).
        apply elem_of_cons in Hin as [->|Hin];
          [eexists; split;
             [apply list_elem_of_further, list_elem_of_here|done]|].
        apply elem_of_cons in Hin as [->|Hin];
          [eexists; split; [apply list_elem_of_here|done]|].
        apply list_elem_of_singleton in Hin as ->. by destruct Hn.
      * by exists col', d'.
  - destruct (@route_closes_iff_every_cierre_true plain_repr
                [closed_route_R1; open_route_R13] half_closed_dispatches
                "R13" 5000 1 open_route_R13 payload items eq_refl Hopen Hpay
                eq_refl)
      as (_ & _ & _ & Hone).
    + split.
      * intros d v [->|[->|[]%elem_of_nil]%elem_of_cons]%elem_of_cons;
          vm_compute; intros [= <-]; eauto.
      * intros [|[|i]] [|[|j]] d1 d2 v; vm_compute; intros; simplify_eq; done.
    + apply (Hone "11").
      * exists [("identifier", VInt 11)].
        split; [apply list_elem_of_here|]. by split.
      * intros d [->|[->|[]%elem_of_nil]%elem_of_cons]%elem_of_cons;
          vm_compute; intros; simplify_eq.
Defined.

(** The evaluator on small stores: a listed dispatch without record, or
    with a [cierre] that is only truthy, keeps the route open; a payload
    without dispatches closes it. *)
Example route_stays_open_when_a_dispatch_is_missing :
  @closure.run plain_repr [open_route_R2]
    [[("dispatch_key", VStr "12"); ("cierre", VBool true)]] "R2" 5000
  = Ok [open_route_R2].
Proof. reflexivity. Qed.

Example route_stays_open_when_cierre_is_only_truthy :
  @closure.run plain_repr [open_route_R2]
    [[("dispatch_key", VStr "12"); ("cierre", VBool true)];
     [("dispatch_key", VStr "11"); ("cierre", VInt 1)]] "R2" 5000
  = Ok [open_route_R2].
Proof. reflexivity. Qed.

Example route_without_dispatches_closes :
  @closure.run plain_repr
    [[("route_key", VStr "R4"); ("minified_raw", VDict [("number", VStr "R4")])]]
    [] "R4" 5000
  = Ok [[("route_key", VStr "R4");
         ("minified_raw", VDict [("number", VStr "R4")]);
         ("is_closed", VBool true); ("closed_at", VDate 5000)]].
Proof. reflexivity. Qed.

(** ** The dispatch extractor *)

Lemma bulk_write_app ops1 ops2 (col : collection) :
  bulk_write (ops1 ++ ops2) col = bulk_write ops2 (bulk_write ops1 col).
Proof. apply fold_left_app. Qed.

Lemma dispatch_ops_cons `{PyRuntime} c d (items : list value) :
  dispatch_ops c (VDict d :: items) =
    match dispatch_key_of (VDict d) with
    | Some key => get_dispatches.dispatch_op c key d :: dispatch_ops c items
    | None => dispatch_ops c items
    end.
Proof.
  unfold dispatch_ops. cbn [omap list_omap].
  by destruct (dispatch_key_of (VDict d)).
Qed.

(** Without an exception the loop, with its flushes every 500 operations,
    writes what one [bulk_write] of all the operations writes. *)
Lemma for_each_step_flushes `{PyRuntime} c (items : list value)
    (col : collection) (pend : list UpdateOne) :
  Forall (λ v, ∃ d, v = VDict d) items →
  ∃ col' pend',
    for_each (get_dispatches.step c) items (col, pend) = ((col', pend'), Ok tt) ∧
    bulk_write pend' col' = bulk_write (pend ++ dispatch_ops c items) col.
Proof.
  intros Hitems. revert col pend.
  induction Hitems as [|v items [d ->] _ IH]; intros col pend.
  - exists col, pend. by rewrite app_nil_r.
  - rewrite dispatch_ops_cons. cbn [for_each]. unfold get_dispatches.step at 1.
    unfold get_dispatches._extract_dispatch_key, dispatch_key_of.
    cbn [attr_get res_bind].
    destruct (is_None (get "identifier" d)); [by apply IH|].
    destruct (py_str (get "identifier" d)) as [|ch key]; [by apply IH|].
    set (op := get_dispatches.dispatch_op c (String ch key) d).
    cbn [fst snd]. case_bool_decide.
    + destruct (IH (bulk_write (pend ++ [op]) col) []) as (col' & pend' & -> & Hw).
      exists col', pend'. split; [done|]. rewrite Hw. simpl.
      replace (pend ++ op :: dispatch_ops c items)
        with ((pend ++ [op]) ++ dispatch_ops c items)
        by (by rewrite <- app_assoc).
      symmetry. apply bulk_write_app.
    + destruct (IH col (pend ++ [op])) as (col' & pend' & -> & Hw).
      exists col', pend'. split; [done|]. by rewrite Hw, <- app_assoc.
Qed.

Lemma dispatch_ops_keys `{PyRuntime} c (items : list value) :
  Forall2 (λ op k, ∃ d, op = get_dispatches.dispatch_op c k d)
    (dispatch_ops c items) (dispatch_keys items).
Proof.
  induction items as [|v items IH]; [constructor|].
  unfold dispatch_ops, dispatch_keys. simpl.
  destruct v; simpl; try apply IH.
  destruct (is_None _); simpl; [apply IH|].
  destruct (py_str _); simpl; [apply IH|].
  constructor; [by eexists|apply IH].
Qed.


Lemma matches_dispatch_key (col : collection) (d : dict) k :
  dispatch_keys_wf col → d ∈ col →
  matches [("dispatch_key", CEq (VStr k))] d = true
  ↔ dict_lookup "dispatch_key" d = Some (VStr k).
Proof.
  intros [Hstr _] Hd. unfold matches. simpl. rewrite andb_true_r.
  destruct (dict_lookup "dispatch_key" d) as [v|] eqn:Hv.
  - destruct (Hstr d v Hd Hv) as [s ->]. rewrite field_eq_str.
    split; congruence.
  - done.
Qed.

Lemma get_of_lookup k (d d' : dict) :
  dict_lookup k d' = dict_lookup k d → get k d' = get k d.
Proof. unfold get. by intros ->. Qed.

Lemma same_identity_refl x : same_identity x x.
Proof. done. Qed.

Lemma same_identity_trans x y z :
  same_identity x y → same_identity y z → same_identity x z.
Proof. intros (?&?&?) (?&?&?). repeat split; congruence. Qed.

Lemma refreshed_nil now (col : collection) :
  dispatch_keys_wf col → refreshed now [] col col.
Proof.
  intros Hwf. split; [done|]. split; [|split; [|split]].
  - intros i x Hi. exists x. split; [done|]. by split.
  - intros i x' Hi Hlen. apply lookup_lt_Some in Hi. lia.
  - intros k []%not_elem_of_nil.
  - done.
Qed.

Lemma refreshed_trans now K1 K2 (col col1 col2 : collection) :
  refreshed now K1 col col1 → refreshed now K2 col1 col2 →
  refreshed now (K1 ++ K2) col col2.
Proof.
  intros (Hwf1 & Hold1 & Hnew1 & Hkey1 & Hlen1) (Hwf2 & Hold2 & Hnew2 & Hkey2 & Hlen2).
  split; [done|]. split; [|split; [|split]].
  - intros i x Hi.
    destruct (Hold1 i x Hi) as (x1 & Hi1 & Hid1 & Hlr1).
    destruct (Hold2 i x1 Hi1) as (x2 & Hi2 & Hid2 & Hlr2).
    exists x2. split; [done|]. split; [by eapply same_identity_trans|auto].
  - intros i x' Hi Hlen.
    destruct (decide (i < length col1)%nat) as [Hlt|Hge].
    + destruct (lookup_lt_is_Some_2 col1 i Hlt) as [x1 Hi1].
      destruct (Hnew1 i x1 Hi1 Hlen) as ((k & Hk & Hkey) & Hcr & Hct).
      destruct (Hold2 i x1 Hi1) as (x2 & Hi2 & (Hid & Hcr2 & Hct2) & _).
      assert (x2 = x') as -> by congruence.
      split; [|split; congruence].
      exists k. split; [apply elem_of_app; by left|].
      by rewrite (get_of_lookup _ _ _ Hid).
    + destruct (Hnew2 i x' Hi) as ((k & Hk & Hkey) & Hcr & Hct); [lia|].
      split; [|done]. exists k. split; [apply elem_of_app; by right|done].
  - intros k [Hk|Hk]%elem_of_app; [|by apply Hkey2].
    destruct (Hkey1 k Hk) as (i & x1 & Hi1 & Hkey & Hlr).
    destruct (Hold2 i x1 Hi1) as (x2 & Hi2 & (Hid & _) & Hlr2).
    exists i, x2. split; [done|]. split; [|auto].
    by rewrite (get_of_lookup _ _ _ Hid).
  - intros Hall. rewrite Hlen2, Hlen1; [done| |].
    + intros k Hk. apply Hall, elem_of_app. by left.
    + intros k Hk. destruct (Hall k) as (x & [i Hi]%list_elem_of_lookup & Hkey);
        [apply elem_of_app; by right|].
      destruct (Hold1 i x Hi) as (x1 & Hi1 & (Hid & _) & _).
      exists x1. split; [apply list_elem_of_lookup; eauto|].
      by rewrite (get_of_lookup _ _ _ Hid).
Qed.

Lemma doc_meta_keeps_identity c d (x : dict) :
  same_identity x (apply_set (get_dispatches.doc_meta c d) x) ∧
  get "last_refreshed_at" (apply_set (get_dispatches.doc_meta c d) x)
    = VDate (get_dispatches.now_utc c).
Proof.
  split; [split; [|split]|].
  - apply dict_lookup_apply_set_notin. key_notin.
  - apply get_apply_set_notin. key_notin.
  - apply get_apply_set_notin. key_notin.
  - apply get_apply_set_in; [key_nodup|].
    do 6 apply list_elem_of_further. apply list_elem_of_here.
Qed.

Lemma inserted_dispatch c k d :
  let x := apply_set [("created_at", VDate (get_dispatches.now_utc c)); ("ct", VNone)]
             (apply_set (get_dispatches.doc_meta c d) [("dispatch_key", VStr k)]) in
  dict_lookup "dispatch_key" x = Some (VStr k) ∧
  get "created_at" x = VDate (get_dispatches.now_utc c) ∧
  get "ct" x = VNone ∧
  get "last_refreshed_at" x = VDate (get_dispatches.now_utc c).
Proof.
  intros x. unfold x. split; [|split; [|split]].
  - rewrite !dict_lookup_apply_set_notin by key_notin. done.
  - apply get_apply_set_in; [key_nodup|binding_in].
  - apply get_apply_set_in; [key_nodup|binding_in].
  - rewrite get_apply_set_notin by key_notin.
    apply get_apply_set_in; [key_nodup|].
    do 6 apply list_elem_of_further. apply list_elem_of_here.
Qed.

(** One upsert of the extractor. *)
Lemma refreshed_one c k d (col : collection) :
  dispatch_keys_wf col →
  refreshed (get_dispatches.now_utc c) [k] col
    (update_one (get_dispatches.dispatch_op c k d) col).
Proof.
  intros Hwf. pose proof Hwf as [Hstr Huniq].
  unfold update_one, get_dispatches.dispatch_op.
  cbn [uo_filter uo_set uo_setOnInsert uo_upsert filter_fields omap list_omap
       fst snd].
  destruct (find_one _ col) as [[i x]|] eqn:Hf.
  - apply find_one_Some in Hf as (Hi & Hm & _).
    apply (matches_dispatch_key col) in Hm;
      [|done|apply list_elem_of_lookup; eauto].
    destruct (doc_meta_keeps_identity c d x) as [Hid Hlr].
    set (x' := apply_set (get_dispatches.doc_meta c d) x) in *.
    unfold update_by_id.
    assert (∀ j y, alter (apply_set (get_dispatches.doc_meta c d)) i col !! j
                   = Some y →
              ∃ y0, col !! j = Some y0 ∧ same_identity y0 y) as Hback.
    { intros j y. destruct (decide (i = j)) as [<-|Hne].
      - rewrite list_lookup_alter_eq, Hi. intros [= <-]. by exists x.
      - rewrite list_lookup_alter_ne by done. intros Hj. by exists y. }
    split; [|split; [|split; [|split]]].
    + split.
      * intros y v [j Hj]%list_elem_of_lookup Hv.
        destruct (Hback j y Hj) as (y0 & Hj0 & Hid0 & _).
        apply (Hstr y0 v); [apply list_elem_of_lookup; eauto|congruence].
      * intros j1 j2 y1 y2 v Hj1 Hj2 Hv1 Hv2.
        destruct (Hback j1 y1 Hj1) as (z1 & Hz1 & Hid1 & _).
        destruct (Hback j2 y2 Hj2) as (z2 & Hz2 & Hid2 & _).
        apply (Huniq j1 j2 z1 z2 v); congruence.
    + intros j y Hj. destruct (decide (i = j)) as [<-|Hne].
      * exists x'. rewrite list_lookup_alter_eq, Hi.
        assert (y = x) as -> by congruence. split; [done|]. by split.
      * exists y. rewrite list_lookup_alter_ne by done. split; [done|]. by split.
    + intros j y Hj Hlen. apply lookup_lt_Some in Hj.
      rewrite length_alter in Hj. lia.
    + intros k' ->%list_elem_of_singleton. exists i, x'.
      rewrite list_lookup_alter_eq, Hi. split; [done|]. split; [|done].
      destruct Hid as [Hid _]. unfold get. by rewrite Hid, Hm.
    + intros _. apply length_alter.
  - rewrite find_one_None in Hf.
    destruct (inserted_dispatch c k d) as (Hk & Hcr & Hct & Hlr).
    set (x' := apply_set _ (apply_set _ _)) in *.
    split; [|split; [|split; [|split]]].
    + split.
      * intros y v [Hy|Hy%list_elem_of_singleton]%elem_of_app Hv.
        -- by apply (Hstr y v).
        -- subst y. rewrite Hk in Hv. injection Hv as <-. eauto.
      * intros j1 j2 y1 y2 v Hj1 Hj2 Hv1 Hv2.
        apply lookup_app_Some in Hj1 as [Hj1|[Hl1 Hj1]];
          apply lookup_app_Some in Hj2 as [Hj2|[Hl2 Hj2]].
        -- by apply (Huniq j1 j2 y1 y2 v).
        -- apply list_lookup_singleton_Some in Hj2 as [_ <-].
           rewrite Hk in Hv2. injection Hv2 as <-.
           assert (y1 ∈ col) as Hin by (apply list_elem_of_lookup; eauto).
           apply (matches_dispatch_key col y1 k Hwf Hin) in Hv1.
           by rewrite (Hf y1 Hin) in Hv1.
        -- apply list_lookup_singleton_Some in Hj1 as [_ <-].
           rewrite Hk in Hv1. injection Hv1 as <-.
           assert (y2 ∈ col) as Hin by (apply list_elem_of_lookup; eauto).
           apply (matches_dispatch_key col y2 k Hwf Hin) in Hv2.
           by rewrite (Hf y2 Hin) in Hv2.
        -- apply list_lookup_singleton_Some in Hj1 as [? _].
           apply list_lookup_singleton_Some in Hj2 as [? _]. lia.
    + intros j y Hj. exists y. split; [by apply lookup_app_l_Some|].
      by split.
    + intros j y Hj Hlen.
      apply lookup_app_Some in Hj as [Hj|[_ Hj]];
        [apply lookup_lt_Some in Hj; lia|].
      apply list_lookup_singleton_Some in Hj as [_ <-].
      split; [|done]. exists k. split; [apply list_elem_of_here|].
      unfold get. by rewrite Hk.
    + intros k' ->%list_elem_of_singleton. exists (length col), x'.
      split; [by rewrite lookup_app_r, Nat.sub_diag by lia|].
      split; [unfold get; by rewrite Hk|done].
    + intros Hall. destruct (Hall k) as (y & Hy & Hky); [apply list_elem_of_here|].
      apply get_str_lookup in Hky.
      apply (matches_dispatch_key col y k Hwf Hy) in Hky.
      by rewrite (Hf y Hy) in Hky.
Qed.

(** A run of upserts of the extractor. *)
Lemma refreshed_bulk c ops keys (col : collection) :
  Forall2 (λ op k, ∃ d, op = get_dispatches.dispatch_op c k d) ops keys →
  dispatch_keys_wf col →
  refreshed (get_dispatches.now_utc c) keys col (bulk_write ops col).
Proof.
  intros Hops. revert col.
  induction Hops as [|op k ops keys [d ->] _ IH]; intros col Hwf.
  - by apply refreshed_nil.
  - pose proof (refreshed_one c k d col Hwf) as H1.
    change (k :: keys) with ([k] ++ keys).
    eapply refreshed_trans; [exact H1|]. apply IH. by destruct H1.
Qed.



(** The collection the two runs leave on the sample. *)
Example extract_twice_sample :
  ((λ d, (get "dispatch_key" d, get "created_at" d, get "last_refreshed_at" d,
          get "substatus_code" d, dict_lookup "ct" d)) <$>
   (@get_dispatches.run plain_repr [route_R3]
      (@get_dispatches.run plain_repr [route_R3] [] "R3" 100).1 "R3" 200).1)
  = [(VStr "501", VDate 100, VDate 200, VNone, Some VNone);
     (VStr "502", VDate 100, VDate 200, VStr "7", Some VNone)].
Proof. reflexivity. Qed.

(** ** The promise date *)

Import backfill_promise_date_from_tags.

(** The promise date: a truthy value whose stripped text is eight
    characters long, all of them digits, becomes that text with a dash
    after its fourth and after its sixth character, so that a text of
    eight ASCII digits YYYYMMDD gives YYYY-MM-DD; [None], the empty text
    and every other falsy value, and any value whose stripped text is not
    eight digits, give absent. *)
Theorem normalize_promise_date_spec `{PyRuntime} (raw : value) :
  let s := strip (py_str raw) in
  (truthy raw = true → py_len s = 8%nat → isdigit s = true →
   normalize_promise_date raw =
     Some (String.append (py_slice 0 4 s)
             (String.append "-"
                (String.append (py_slice 4 6 s)
                   (String.append "-" (py_slice 6 8 s)))))) ∧
  (truthy raw = false ∨ py_len s ≠ 8%nat ∨ isdigit s = false →
   normalize_promise_date raw = None) ∧
  (py_slice 0 4 s ++ py_slice 4 6 s ++ py_slice 6 8 s)%string
  = py_slice 0 8 s ∧
  (∀ t, String.length t = 8%nat → all_digits t = true →
     normalize_promise_date (VStr t) =
       Some (String.append (substring 0 4 t)
               (String.append "-"
                  (String.append (substring 4 2 t)
                     (String.append "-" (substring 6 2 t)))))).
Proof.
  intros s.
  assert (∀ raw, truthy raw = true →
            py_len (strip (py_str raw)) = 8%nat →
            isdigit (strip (py_str raw)) = true →
            normalize_promise_date raw =
              Some (String.append (py_slice 0 4 (strip (py_str raw)))
                      (String.append "-"
                         (String.append (py_slice 4 6 (strip (py_str raw)))
                            (String.append "-"
                               (py_slice 6 8 (strip (py_str raw)))))))) as Hyes.
  { intros raw' Ht Hl Hd. unfold normalize_promise_date.
    by rewrite Ht, Hl, Hd. }
  split; [apply Hyes|]. split; [|split].
  - unfold normalize_promise_date. fold s.
    intros [->|[Hl|Hd]]; [done| |].
    + destruct (negb (truthy raw)); [done|].
      by destruct (Nat.eqb_spec (py_len s) 8).
    + destruct (negb (truthy raw)); [done|]. rewrite Hd. simpl.
      by rewrite orb_true_r.
  - unfold py_slice. cbn [Nat.sub drop_chars].
    change 8%nat with (4 + (2 + 2))%nat.
    rewrite (take_chars_add 4), (take_chars_add 2).
    by rewrite <- (drop_chars_add 4 2).
  - intros t Hl Ht.
    assert (t ≠ "") as Hne by (intros ->; done).
    pose proof (all_digits_ascii t Ht) as Hascii.
    assert (strip (py_str (VStr t)) = t) as Hstrip
      by (simpl; by apply strip_no_space, all_digits_no_space).
    rewrite Hyes; rewrite ?Hstrip.
    + by rewrite !py_slice_ascii.
    + simpl. by apply String.eqb_neq in Hne as ->.
    + by rewrite py_len_ascii.
    + by apply isdigit_digits.
Qed.

(** The tag value 20251126, as a text between blanks or as a number, is
    the promise date 2025-11-26; a date written with dashes is not eight
    digits. *)
Lemma normalize_promise_date_spec_witness :
  @normalize_promise_date plain_repr (VStr " 20251126 ") = Some "2025-11-26" ∧
  @normalize_promise_date plain_repr (VInt 20251126) = Some "2025-11-26" ∧
  @normalize_promise_date plain_repr (VStr "2025-11-26") = None.
Proof.
  split; [|split].
  - by apply (proj1 (@normalize_promise_date_spec plain_repr
                       (VStr " 20251126 "))).
  - by apply (proj1 (@normalize_promise_date_spec plain_repr
                       (VInt 20251126))).
  - apply (proj1 (proj2 (@normalize_promise_date_spec plain_repr
                           (VStr "2025-11-26")))).
    right. left. vm_compute. discriminate.
Defined.

(** ** The scheduler *)

Import orchestrator.

Lemma job_of_fields callable trigger import_module IntervalTrigger
    CronTrigger_from_crontab (job_cfg : dict) (job : Job callable trigger) :
  job_of callable trigger import_module IntervalTrigger
    CronTrigger_from_crontab job_cfg = Ok job →
  dict_lookup "id" job_cfg = Some (id _ _ job) ∧
  max_instances _ _ job = 1 ∧ coalesce _ _ job = true.
Proof.
  unfold job_of, item. intros Hjob.
  destruct (dict_lookup "id" job_cfg); simpl in Hjob; [|done].
  destruct (dict_lookup "module" job_cfg); simpl in Hjob; [|done].
  destruct (load_job_callable _ _ _); simpl in Hjob; [|done].
  destruct (eq_str _ _); simpl in Hjob.
  - destruct (dict_lookup "seconds" job_cfg); simpl in Hjob; [|done].
    destruct (IntervalTrigger _); simpl in Hjob; [|done].
    by injection Hjob as <-.
  - destruct (dict_lookup "cron" job_cfg); simpl in Hjob; [|done].
    destruct (CronTrigger_from_crontab _); simpl in Hjob; [|done].
    by injection Hjob as <-.
Qed.

Lemma schedule_jobs_registers callable trigger import_module
    IntervalTrigger CronTrigger_from_crontab job_check (JOBS : list dict)
    (scheduler : list (Job callable trigger)) :
  let r := schedule_jobs callable trigger import_module IntervalTrigger
             CronTrigger_from_crontab job_check JOBS scheduler in
  ∃ added, r.1 = scheduler ++ added ∧
    Forall (λ job, max_instances _ _ job = 1 ∧ coalesce _ _ job = true) added ∧
    (r.2 = Ok tt →
     Forall2 (λ job_cfg job, dict_lookup "id" job_cfg = Some (id _ _ job))
       JOBS added).
Proof.
  unfold schedule_jobs. revert scheduler.
  induction JOBS as [|job_cfg JOBS IH]; intros scheduler; simpl.
  - exists []. rewrite app_nil_r. by repeat constructor.
  - destruct (job_of _ _ _ _ _ job_cfg) as [job|e] eqn:Hjob; simpl.
    + assert (add_job callable trigger job_check job scheduler =
              match job_check job with
              | Ok _ => (scheduler ++ [job], Ok tt)
              | Raise e => (scheduler, Raise e)
              end) as -> by done.
      destruct (job_check job) as [[]|e]; simpl.
      * destruct (IH (scheduler ++ [job])) as (added & Ha & Hall & Hids).
        exists (job :: added). rewrite Ha, <- app_assoc. split; [done|].
        apply job_of_fields in Hjob as (Hid & Hmax & Hco).
        split; [by constructor|]. intros Hok.
        constructor; [done|by apply Hids].
      * exists []. rewrite app_nil_r. split; [done|].
        split; [constructor|done].
    + exists []. rewrite app_nil_r. split; [done|]. split; [constructor|done].
Qed.

(** Every job that [schedule_jobs] adds to the scheduler is added with
    [max_instances = 1] and [coalesce = True], and when the function
    returns, the scheduler holds one job per entry of the job table, in the
    order of the table and under the [id] of the entry. *)
Theorem schedule_jobs_single_instance_coalesce callable trigger
    import_module IntervalTrigger CronTrigger_from_crontab job_check
    (JOBS : list dict) :
  Forall (λ job, max_instances callable trigger job = 1 ∧
                 coalesce callable trigger job = true)
    (schedule_jobs callable trigger import_module IntervalTrigger
       CronTrigger_from_crontab job_check JOBS []).1 ∧
  ((schedule_jobs callable trigger import_module IntervalTrigger
      CronTrigger_from_crontab job_check JOBS []).2 = Ok tt →
   Forall2 (λ job_cfg job, dict_lookup "id" job_cfg = Some (id _ _ job))
     JOBS
     (schedule_jobs callable trigger import_module IntervalTrigger
        CronTrigger_from_crontab job_check JOBS []).1).
Proof.
  destruct (schedule_jobs_registers callable trigger import_module
              IntervalTrigger CronTrigger_from_crontab job_check JOBS [])
    as (added & Ha & Hall & Hids).
  simpl in Ha. rewrite Ha. split; [done|]. intros Hok. by apply Hids.
Qed.

(** The sample table, whose modules have a [run] without parameters, with
    every trigger accepted: two jobs, under the ids of the table. *)
Lemma schedule_jobs_single_instance_coalesce_witness :
  Forall2 (λ job_cfg job, dict_lookup "id" job_cfg = Some (id _ _ job))
    sample_JOBS
    (schedule_jobs (list string) value sample_modules (λ s, Ok s) (λ c, Ok c)
       sample_job_check sample_JOBS []).1.
Proof.
  apply (proj2 (schedule_jobs_single_instance_coalesce (list string) value
                  sample_modules (λ s, Ok s) (λ c, Ok c) sample_job_check
                  sample_JOBS)).
  reflexivity.
Defined.

(** ** A second run of the order-type job *)

Lemma fold_alter_length (G : dict → dict → dict) (cursor : list (nat * dict))
    (col : collection) :
  length (fold_left (λ c id, alter (G id.2) id.1 c) cursor col) = length col.
Proof.
  revert col. induction cursor as [|[j dj] cursor IH]; intros col; [done|].
  simpl. by rewrite IH, length_alter.
Qed.

Lemma fold_visit_nothing_to_write (cursor : list (nat * dict))
    (st : collection * Z) :
  Forall (λ doc : nat * dict,
            extract_tipo_orden (get_default "tags" (VList []) doc.2) = VNone)
    cursor →
  fold_left backfill_tipo_orden_from_tags.visit cursor st = st.
Proof.
  intros Hall. revert st.
  induction Hall as [|doc cursor Hdoc _ IH]; intros st; [done|].
  simpl. unfold backfill_tipo_orden_from_tags.visit at 2.
  rewrite Hdoc. simpl. apply IH.
Qed.

(** Run twice in a row, the order-type job updates nothing the second time:
    the collection is the one the first run left and the count is zero. *)
Theorem tipo_orden_second_run_updates_nothing (col : collection) :
  backfill_tipo_orden_from_tags.run (backfill_tipo_orden_from_tags.run col).1
  = ((backfill_tipo_orden_from_tags.run col).1, 0).
Proof.
  set (col' := (backfill_tipo_orden_from_tags.run col).1).
  unfold backfill_tipo_orden_from_tags.run at 1.
  apply fold_visit_nothing_to_write.
  apply Forall_forall. intros [i d'] [Hi Hm]%elem_of_find. simpl.
  assert (length col' = length col) as Hlen.
  { unfold col', backfill_tipo_orden_from_tags.run.
    rewrite tipo_orden_run_fold. apply fold_alter_length. }
  destruct (lookup_lt_is_Some_2 col i) as [d Hd].
  { rewrite <- Hlen. by eapply lookup_lt_Some. }
  pose proof (tipo_orden_run_lookup col i d Hd) as Hrun.
  fold col' in Hrun. rewrite Hi in Hrun. injection Hrun as ->.
  unfold matches, tipo_orden_rewrite in *. simpl in *.
  rewrite andb_true_r in *.
  destruct (dict_lookup "tipo_orden" d) as [w|] eqn:Hw; simpl in *.
  - by rewrite Hw in Hm.
  - destruct (extract_tipo_orden (get_default "tags" (VList []) d))
      as [| | | | | | | |] eqn:Hv; simpl in *;
      try (rewrite dict_lookup_set_eq in Hm; done).
    by rewrite Hv.
Qed.

(** * Further properties of the jobs *)

Arguments apply_set : simpl never.
Arguments matches : simpl never.
Arguments matches_any : simpl never.

(** ** Loops that rewrite the documents of a cursor *)

Lemma for_each_ext {A S : Type} (f g : A → S → S * res unit) (l : list A)
    (s : S) :
  (∀ a s, f a s = g a s) → for_each f l s = for_each g l s.
Proof.
  intros Hfg. revert s. induction l as [|a l IH]; intros s; [done|].
  simpl. rewrite Hfg. destruct (g a s) as [s' [[]|e]]; [apply IH|done].
Qed.

Lemma for_each_fmap {A B S : Type} (h : A → B) (f : B → S → S * res unit)
    (l : list A) (s : S) :
  for_each f (h <$> l) s = for_each (λ a, f (h a)) l s.
Proof.
  revert s. induction l as [|a l IH]; intros s; [done|].
  simpl. destruct (f (h a) s) as [s' [[]|e]]; [apply IH|done].
Qed.

Lemma find_where_cons (p : dict → bool) d (col : collection) :
  find_where p (d :: col) =
    (if p d then [(0%nat, d)] else []) ++
    ((λ id : nat * dict, (S id.1, id.2)) <$> find_where p col).
Proof.
  unfold find_where. rewrite imap_cons. simpl.
  assert (imap ((λ i (d0 : dict), (i, d0)) ∘ S) col =
          (λ id : nat * dict, (S id.1, id.2)) <$> imap (λ i d0, (i, d0)) col) as ->.
  { rewrite fmap_imap. by apply imap_ext. }
  change (fmap ?f ?l) with (List.map f l).
  rewrite filter_map_swap. simpl.
  by destruct (p d).
Qed.

Lemma elem_of_find_where (p : dict → bool) (col : collection) i d :
  (i, d) ∈ find_where p col ↔ col !! i = Some d ∧ p d = true.
Proof.
  unfold find_where. rewrite list_elem_of_In, filter_In, <- list_elem_of_In.
  rewrite elem_of_lookup_imap. simpl. split.
  - intros [(j & y & [= -> ->] & Hl) Hm]. done.
  - intros [Hl Hm]. split; [|done]. by exists i, d.
Qed.

Lemma find_where_NoDup (p : dict → bool) (col : collection) :
  NoDup (find_where p col).*1.
Proof.
  induction col as [|d col IH]; [constructor|].
  rewrite find_where_cons, fmap_app, <- list_fmap_compose.
  assert (NoDup ((fst ∘ (λ id : nat * dict, (S id.1, id.2)))
                   <$> find_where p col)) as Htl.
  { change (fst ∘ _) with (S ∘ (fst : nat * dict → nat)).
    rewrite list_fmap_compose. by apply (NoDup_fmap_2 S). }
  destruct (p d); simpl; [|done].
  apply NoDup_cons. split; [|done].
  intros (y & Hy & _)%list_elem_of_fmap. simpl in Hy. lia.
Qed.

Section rewrite_loop.
Variable F : dict → res (option dict).

Lemma rewrite_loop_length (cursor : list (nat * dict)) (col : collection) :
  length (for_each (rewrite_step F) cursor col).1 = length col.
Proof.
  revert col. induction cursor as [|[j dj] cursor IH]; intros col; [done|].
  simpl. unfold rewrite_step at 1. simpl.
  destruct (F dj) as [[sets|]|e]; simpl; [|apply IH|done].
  rewrite IH. apply length_alter.
Qed.

Lemma rewrite_loop_notin (cursor : list (nat * dict)) (col : collection) i :
  i ∉ cursor.*1 → (for_each (rewrite_step F) cursor col).1 !! i = col !! i.
Proof.
  revert col. induction cursor as [|[j dj] cursor IH]; intros col Hi; [done|].
  assert (j ≠ i) as Hne by (intros ->; apply Hi; by left).
  assert (i ∉ cursor.*1) as Hi' by (intros ?; apply Hi; by right).
  simpl. unfold rewrite_step at 1. simpl.
  destruct (F dj) as [[sets|]|e]; simpl; [|by apply IH|done].
  rewrite IH by done. unfold update_by_id. by rewrite list_lookup_alter_ne.
Qed.

(** The loop ends normally exactly when [F] raises on no document of the
    cursor. *)
Lemma rewrite_loop_ok (cursor : list (nat * dict)) (col : collection) :
  (for_each (rewrite_step F) cursor col).2 = Ok tt ↔
  Forall (λ doc : nat * dict, ∃ o, F doc.2 = Ok o) cursor.
Proof.
  revert col. induction cursor as [|[j dj] cursor IH]; intros col; simpl.
  - split; [constructor|done].
  - unfold rewrite_step at 1. simpl.
    destruct (F dj) as [[sets|]|e] eqn:HF; simpl.
    + rewrite IH. split; [intros; constructor; eauto|by inversion 1].
    + rewrite IH. split; [intros; constructor; eauto|by inversion 1].
    + split; [done|]. inversion 1 as [|? ? [o Ho]]. simpl in Ho. congruence.
Qed.

Lemma rewrite_loop_fold (cursor : list (nat * dict)) (col : collection) :
  (for_each (rewrite_step F) cursor col).2 = Ok tt →
  (for_each (rewrite_step F) cursor col).1 =
    fold_left (λ c id, alter (rewrite_of F id.2) id.1 c) cursor col.
Proof.
  revert col. induction cursor as [|[j dj] cursor IH]; intros col; [done|].
  unfold rewrite_step, rewrite_of in *. simpl.
  destruct (F dj) as [[sets|]|e]; simpl; [apply IH| |done].
  intros Hok. rewrite IH by done. f_equal. symmetry. by apply list_alter_id.
Qed.

(** Whatever the end of the loop, a document of the cursor is as it was
    or rewritten with the fields computed from it. *)
Lemma rewrite_loop_in (cursor : list (nat * dict)) (col : collection) i d x :
  NoDup cursor.*1 → (i, d) ∈ cursor → col !! i = Some x →
  (for_each (rewrite_step F) cursor col).1 !! i = Some x ∨
  ∃ sets, F d = Ok (Some sets) ∧
    (for_each (rewrite_step F) cursor col).1 !! i = Some (apply_set sets x).
Proof.
  revert col. induction cursor as [|[j dj] cursor IH]; intros col Hnd Hin Hx.
  - by apply not_elem_of_nil in Hin.
  - apply NoDup_cons in Hnd as [Hj Hnd]. simpl.
    unfold rewrite_step at 1 3. simpl.
    apply elem_of_cons in Hin as [[= -> ->]|Hin].
    + destruct (F dj) as [[sets|]|e] eqn:HF; simpl.
      * right. exists sets. split; [done|].
        rewrite rewrite_loop_notin by done. unfold update_by_id.
        by rewrite list_lookup_alter_eq, Hx.
      * left. by rewrite rewrite_loop_notin.
      * by left.
    + assert (j ≠ i) as Hne.
      { intros ->. apply Hj. apply list_elem_of_fmap. by exists (i, d). }
      destruct (F dj) as [[sets|]|e] eqn:HF; simpl.
      * apply IH; [done..|]. unfold update_by_id.
        by rewrite list_lookup_alter_ne.
      * by apply IH.
      * by left.
Qed.

(** A loop in which nothing is to be written leaves the collection. *)
Lemma rewrite_loop_idle (cursor : list (nat * dict)) (col : collection) :
  Forall (λ doc : nat * dict, F doc.2 = Ok None) cursor →
  for_each (rewrite_step F) cursor col = (col, Ok tt).
Proof.
  induction 1 as [|[j dj] cursor Hd _ IH]; [done|].
  simpl in *. unfold rewrite_step at 1. simpl. by rewrite Hd.
Qed.

(** The loop over the documents that a query selects. *)
Lemma rewrite_run_lookup (p : dict → bool) (col : collection) i d :
  (for_each (rewrite_step F) (find_where p col) col).2 = Ok tt →
  col !! i = Some d →
  (for_each (rewrite_step F) (find_where p col) col).1 !! i =
    Some (if p d then rewrite_of F d d else d).
Proof.
  intros Hok Hi. rewrite rewrite_loop_fold by done.
  destruct (p d) eqn:Hp.
  - rewrite (fold_alter_in (rewrite_of F) _ _ i d);
      [by rewrite Hi|apply find_where_NoDup|by apply elem_of_find_where].
  - rewrite fold_alter_notin; [done|].
    intros ([j d'] & -> & [Hl Hm']%elem_of_find_where)%list_elem_of_fmap.
    simpl in *. congruence.
Qed.

Lemma rewrite_run_any (p : dict → bool) (col : collection) i d :
  col !! i = Some d →
  (for_each (rewrite_step F) (find_where p col) col).1 !! i = Some d ∨
  p d = true ∧ ∃ sets, F d = Ok (Some sets) ∧
    (for_each (rewrite_step F) (find_where p col) col).1 !! i
      = Some (apply_set sets d).
Proof.
  intros Hi. destruct (p d) eqn:Hp.
  - destruct (rewrite_loop_in (find_where p col) col i d d) as [?|(sets & ? & ?)];
      [apply find_where_NoDup|by apply elem_of_find_where|done|by left|].
    right. split; [done|]. by exists sets.
  - left. rewrite rewrite_loop_notin; [done|].
    intros ([j d'] & -> & [Hl Hm']%elem_of_find_where)%list_elem_of_fmap.
    simpl in *. congruence.
Qed.

(** The loop over every document of the collection, taken document by
    document: the first exception stops it, and the documents from there
    on are left as they were. *)
Lemma rewrite_loop_shift (x : dict) (cursor : list (nat * dict))
    (col : collection) :
  for_each (rewrite_step F) ((λ id : nat * dict, (S id.1, id.2)) <$> cursor)
    (x :: col)
  = (x :: (for_each (rewrite_step F) cursor col).1,
     (for_each (rewrite_step F) cursor col).2).
Proof.
  revert col. induction cursor as [|[j dj] cursor IH]; intros col; [done|].
  rewrite fmap_cons. cbn [for_each]. unfold rewrite_step at 1 3 5. simpl.
  destruct (F dj) as [[sets|]|e]; simpl; [apply IH|apply IH|done].
Qed.

Lemma rewrite_all_cons (d : dict) (col : collection) :
  for_each (rewrite_step F) (find [] (d :: col)) (d :: col) =
    match F d with
    | Raise e => (d :: col, Raise e)
    | Ok _ =>
        (rewrite_of F d d :: (for_each (rewrite_step F) (find [] col) col).1,
         (for_each (rewrite_step F) (find [] col) col).2)
    end.
Proof.
  change (find [] (d :: col)) with (find_where (matches []) (d :: col)).
  rewrite find_where_cons.
  change (matches [] d) with true. cbn [app for_each].
  unfold rewrite_step at 1, rewrite_of. simpl.
  destruct (F d) as [[sets|]|e]; simpl; [| |done].
  - apply rewrite_loop_shift.
  - apply rewrite_loop_shift.
Qed.

End rewrite_loop.

(** ** The carrier job *)

Lemma ct_visit_step `{PyRuntime} (ct_col : collection) (doc : nat * dict)
    (col : collection) :
  backfill_ct.visit ct_col doc col = rewrite_step (ct_sets ct_col) doc col.
Proof.
  unfold backfill_ct.visit, rewrite_step, ct_sets.
  destruct (_extract_codcomu_value doc.2) as [[[|c ext]|]|e]; simpl; try done.
  destruct (find_one _ ct_col) as [[j mapping]|]; [|done].
  by destruct (negb (truthy _)).
Qed.

Lemma ct_run_loop `{PyRuntime} (ct_col disp_col : collection) :
  backfill_ct.run ct_col disp_col =
    for_each (rewrite_step (ct_sets ct_col))
      (find_where (matches_any backfill_ct.missing_ct) disp_col) disp_col.
Proof. unfold backfill_ct.run. apply for_each_ext, ct_visit_step. Qed.

(** What the job writes, when it writes. *)
Lemma ct_sets_Some `{PyRuntime} (ct_col : collection) (d sets : dict) :
  ct_sets ct_col d = Ok (Some sets) →
  ∃ external_id j mapping,
    _extract_codcomu_value d = Ok (Some external_id) ∧ external_id ≠ "" ∧
    find_one [("Id Externo", CEq (VStr external_id))] ct_col
      = Some (j, mapping) ∧
    truthy (get "CT CORRESPONDE" mapping) = true ∧
    sets = [("ct", VStr (strip (py_str (get "CT CORRESPONDE" mapping))));
            ("ct_match_codcomu", VStr external_id)].
Proof.
  unfold ct_sets.
  destruct (_extract_codcomu_value d) as [[[|c ext]|]|e]; simpl; try done.
  destruct (find_one _ ct_col) as [[j mapping]|] eqn:Hf; [|done].
  destruct (truthy _) eqn:Ht; simpl; [|done].
  intros [= <-]. by exists (String c ext), j, mapping.
Qed.

Lemma ct_written_not_missing (a b : string) (d : dict) :
  matches_any backfill_ct.missing_ct
    (apply_set [("ct", VStr a); ("ct_match_codcomu", VStr b)] d) = false.
Proof.
  unfold matches_any, backfill_ct.missing_ct, matches.
  cbn [existsb forallb fst snd matches_cond].
  rewrite (dict_lookup_apply_set_in "ct" (VStr a)); [done|key_nodup|binding_in].
Qed.

(** After a run that ends normally: a dispatch that does not miss [ct] is
    as it was; a dispatch that misses it and whose carrier tag names an
    external id found in the reference collection, with a carrier that is
    set, has the stripped text of that carrier as [ct] and the id as
    [ct_match_codcomu], and nothing else of it is changed; in every other
    case the dispatch is as it was. *)
Theorem ct_filled_from_reference `{PyRuntime}
    (ct_col disp_col col' : collection) i (d : dict) :
  backfill_ct.run ct_col disp_col = (col', Ok tt) →
  disp_col !! i = Some d →
  ∃ d', col' !! i = Some d' ∧
    (matches_any backfill_ct.missing_ct d = false → d' = d) ∧
    (_extract_codcomu_value d = Ok None ∨
     _extract_codcomu_value d = Ok (Some "") → d' = d) ∧
    (∀ external_id, _extract_codcomu_value d = Ok (Some external_id) →
       find_one [("Id Externo", CEq (VStr external_id))] ct_col = None →
       d' = d) ∧
    (∀ external_id j mapping,
       _extract_codcomu_value d = Ok (Some external_id) →
       find_one [("Id Externo", CEq (VStr external_id))] ct_col
         = Some (j, mapping) →
       truthy (get "CT CORRESPONDE" mapping) = false → d' = d) ∧
    (∀ external_id j mapping,
       matches_any backfill_ct.missing_ct d = true →
       _extract_codcomu_value d = Ok (Some external_id) →
       external_id ≠ "" →
       find_one [("Id Externo", CEq (VStr external_id))] ct_col
         = Some (j, mapping) →
       truthy (get "CT CORRESPONDE" mapping) = true →
       get "ct" d' = VStr (strip (py_str (get "CT CORRESPONDE" mapping))) ∧
       get "ct_match_codcomu" d' = VStr external_id ∧
       ∀ k, k ≠ "ct" → k ≠ "ct_match_codcomu" →
            dict_lookup k d' = dict_lookup k d).
Proof.
  intros Hrun Hi. rewrite ct_run_loop in Hrun.
  pose proof (rewrite_run_lookup (ct_sets ct_col)
                (matches_any backfill_ct.missing_ct) disp_col i d) as Hl.
  rewrite Hrun in Hl. specialize (Hl eq_refl Hi). cbn [fst snd] in Hl.
  eexists. split; [exact Hl|].
  split; [by intros ->|].
  destruct (matches_any backfill_ct.missing_ct d) eqn:Hp.
  - unfold rewrite_of, ct_sets.
    split; [intros [->| ->]; done|].
    split; [intros ext -> Hf; simpl; destruct ext; [done|by rewrite Hf]|].
    split.
    { intros ext j mapping -> Hf Ht. simpl. destruct ext; [done|].
      by rewrite Hf, Ht. }
    intros ext j mapping _ -> Hne Hf Ht. simpl.
    destruct ext as [|c ext]; [done|]. rewrite Hf, Ht. simpl.
    split; [by apply get_apply_set_in; [key_nodup|binding_in]|].
    split; [by apply get_apply_set_in; [key_nodup|binding_in]|].
    intros k H1 H2. apply dict_lookup_apply_set_notin. simpl.
    intros [->|[->|[]%elem_of_nil]%elem_of_cons]%elem_of_cons; done.
  - repeat split; done.
Qed.

(** D1 misses [ct] and names the id 123, whose carrier is written without
    its blanks. *)
Lemma ct_filled_from_reference_witness :
  ∃ d', (@backfill_ct.run plain_repr sample_ct sample_ct_dispatches).1 !! 0%nat
          = Some d' ∧
    get "ct" d' = VStr "CT Norte" ∧ get "ct_match_codcomu" d' = VStr "123".
Proof.
  destruct (@ct_filled_from_reference plain_repr sample_ct
              sample_ct_dispatches _ 0 disp_padded_codcomu eq_refl eq_refl)
    as (d' & Hl & _ & _ & _ & _ & Hw).
  destruct (Hw "123" 0%nat
              [("Id Externo", VStr "123"); ("CT CORRESPONDE", VStr " CT Norte ")]
              eq_refl eq_refl ltac:(discriminate) eq_refl eq_refl)
    as (Hc & Hm & _).
  exists d'. split; [exact Hl|]. split; [exact Hc|exact Hm].
Defined.

(** Whatever the end of the run, the job keeps the documents in their
    places and changes nothing but [ct] and [ct_match_codcomu]; a dispatch
    that does not miss [ct], a dispatch whose [ct] is a text in particular,
    is left as it was; and a dispatch that is changed has a text as [ct]
    and a text that is not empty as [ct_match_codcomu]. *)
Theorem ct_only_fills_what_is_missing `{PyRuntime}
    (ct_col disp_col : collection) i (d : dict) :
  disp_col !! i = Some d →
  length (backfill_ct.run ct_col disp_col).1 = length disp_col ∧
  ∃ d', (backfill_ct.run ct_col disp_col).1 !! i = Some d' ∧
    (∀ k, k ≠ "ct" → k ≠ "ct_match_codcomu" →
          dict_lookup k d' = dict_lookup k d) ∧
    (matches_any backfill_ct.missing_ct d = false → d' = d) ∧
    (∀ s, get "ct" d = VStr s → d' = d) ∧
    (d' = d ∨
     ∃ s e, get "ct" d' = VStr s ∧ get "ct_match_codcomu" d' = VStr e ∧
            e ≠ "").
Proof.
  intros Hi. rewrite ct_run_loop. split; [apply rewrite_loop_length|].
  assert (∀ s, get "ct" d = VStr s →
               matches_any backfill_ct.missing_ct d = false) as Htext.
  { intros s Hs. unfold matches_any, backfill_ct.missing_ct, matches, get in *.
    cbn [existsb forallb fst snd matches_cond].
    by destruct (dict_lookup "ct" d) as [v|]; simpl in *; subst. }
  destruct (rewrite_run_any (ct_sets ct_col)
              (matches_any backfill_ct.missing_ct) disp_col i d Hi)
    as [Hl|(Hp & sets & Hs & Hl)].
  - exists d. split; [done|]. repeat split; auto.
  - apply ct_sets_Some in Hs
      as (ext & j & mapping & Hext & Hne & Hf & Ht & ->).
    eexists. split; [exact Hl|]. split; [|split; [|split]].
    + intros k H1 H2. apply dict_lookup_apply_set_notin. simpl.
      intros [->|[->|[]%elem_of_nil]%elem_of_cons]%elem_of_cons; done.
    + by rewrite Hp.
    + intros s Hs. by rewrite (Htext s Hs) in Hp.
    + right. exists (strip (py_str (get "CT CORRESPONDE" mapping))), ext.
      split; [by apply get_apply_set_in; [key_nodup|binding_in]|].
      split; [by apply get_apply_set_in; [key_nodup|binding_in]|done].
Qed.

(** D2 has a [ct]: the run leaves it alone, though its tag names a known
    id. *)
Lemma ct_only_fills_what_is_missing_witness :
  (@backfill_ct.run plain_repr sample_ct sample_ct_dispatches).1 !! 1%nat
  = sample_ct_dispatches !! 1%nat.
Proof.
  destruct (@ct_only_fills_what_is_missing plain_repr sample_ct
              sample_ct_dispatches 1 _ eq_refl)
    as (_ & d' & Hl & _ & _ & Hs & _).
  rewrite Hl, (Hs "CT Sur" eq_refl). reflexivity.
Defined.

(** A second run, after a run that ended normally, ends normally too and
    changes nothing. *)
Theorem ct_second_run_changes_nothing `{PyRuntime}
    (ct_col disp_col col' : collection) :
  backfill_ct.run ct_col disp_col = (col', Ok tt) →
  backfill_ct.run ct_col col' = (col', Ok tt).
Proof.
  intros Hrun. rewrite ct_run_loop in *. apply rewrite_loop_idle.
  apply Forall_forall. intros [i d'] [Hi' Hp']%elem_of_find_where. simpl.
  pose proof (rewrite_loop_length (ct_sets ct_col)
                (find_where (matches_any backfill_ct.missing_ct) disp_col)
                disp_col) as Hlen.
  pose proof (rewrite_loop_ok (ct_sets ct_col)
                (find_where (matches_any backfill_ct.missing_ct) disp_col)
                disp_col) as [Hok _].
  rewrite Hrun in Hlen, Hok. simpl in Hlen. specialize (Hok eq_refl).
  destruct (lookup_lt_is_Some_2 disp_col i) as [d Hi].
  { rewrite <- Hlen. by eapply lookup_lt_Some. }
  pose proof (rewrite_run_lookup (ct_sets ct_col)
                (matches_any backfill_ct.missing_ct) disp_col i d) as Hl.
  rewrite Hrun in Hl. specialize (Hl eq_refl Hi). cbn [fst snd] in Hl.
  rewrite Hi' in Hl. injection Hl as ->.
  destruct (matches_any backfill_ct.missing_ct d) eqn:Hp; [|congruence].
  rewrite Forall_forall in Hok.
  destruct (Hok (i, d)) as [o Ho]; [by apply elem_of_find_where|].
  simpl in Ho. unfold rewrite_of in *. rewrite Ho in *.
  destruct o as [sets|]; [|done].
  apply ct_sets_Some in Ho as (ext & j & mapping & _ & _ & _ & _ & ->).
  by rewrite ct_written_not_missing in Hp'.
Qed.

(** On the sample, the second run finds D3 again and leaves it again. *)
Lemma ct_second_run_changes_nothing_witness :
  @backfill_ct.run plain_repr sample_ct
    (@backfill_ct.run plain_repr sample_ct sample_ct_dispatches).1
  = ((@backfill_ct.run plain_repr sample_ct sample_ct_dispatches).1, Ok tt).
Proof.
  apply (@ct_second_run_changes_nothing plain_repr sample_ct
           sample_ct_dispatches).
  reflexivity.
Defined.

(** ** The sub-status jobs *)

Lemma dict_set_same k v (d : dict) :
  dict_lookup k d = Some v → dict_set k v d = d.
Proof.
  induction d as [|[k' v'] d IH]; simpl; [done|].
  destruct (String.eqb k k') eqn:E.
  - apply String.eqb_eq in E as <-. by intros [= ->].
  - intros Hl. by rewrite IH.
Qed.

Lemma apply_set_fixed (sets d : dict) :
  (∀ k v, (k, v) ∈ sets → dict_lookup k d = Some v) → apply_set sets d = d.
Proof.
  unfold apply_set. induction sets as [|[k v] sets IH]; intros Hall; [done|].
  simpl. rewrite dict_set_same by (apply Hall; apply list_elem_of_here).
  apply IH. intros k' v' Hin. by apply Hall, list_elem_of_further.
Qed.

(** Writing the same fields a second time changes nothing. *)
Lemma apply_set_idem (sets d : dict) :
  NoDup sets.*1 → apply_set sets (apply_set sets d) = apply_set sets d.
Proof.
  intros Hnd. apply apply_set_fixed. intros k v Hin.
  by apply dict_lookup_apply_set_in.
Qed.

Lemma substatus_fields_shape `{PyRuntime} (sub_col : collection) (d : dict) :
  substatus_fields sub_col d = [] ∨
  ∃ eb eg ci, substatus_fields sub_col d =
    [("estado_beetrack", eb); ("estado_guia", eg); ("cierre", ci)].
Proof.
  unfold substatus_fields.
  destruct (update_fields sub_col d) as [fields|e] eqn:Hu; [right|by left].
  by apply (update_fields_shape sub_col d).
Qed.

(** The fields depend on the [substatus_code] of the dispatch only. *)
Lemma substatus_fields_code `{PyRuntime} (sub_col : collection) (d d' : dict) :
  get "substatus_code" d' = get "substatus_code" d →
  substatus_fields sub_col d' = substatus_fields sub_col d.
Proof.
  intros Hc. unfold substatus_fields. by rewrite (update_fields_code _ d d').
Qed.

(** The job does not write the code it reads. *)
Lemma rederived_code `{PyRuntime} (sub_col : collection) (d : dict) :
  get "substatus_code" (rederived sub_col d) = get "substatus_code" d.
Proof.
  unfold rederived.
  destruct (substatus_fields_shape sub_col d) as [->|(eb & eg & ci & ->)];
    [done|].
  apply get_apply_set_notin. key_notin.
Qed.

Lemma rederived_idem `{PyRuntime} (sub_col : collection) (d : dict) :
  rederived sub_col (rederived sub_col d) = rederived sub_col d.
Proof.
  unfold rederived at 1.
  rewrite (substatus_fields_code sub_col d) by apply rederived_code.
  unfold rederived.
  destruct (substatus_fields_shape sub_col d) as [->|(eb & eg & ci & ->)];
    [done|].
  apply apply_set_idem. key_nodup.
Qed.

(** The loop of the sub-status jobs is a loop that rewrites documents. *)
Lemma substatus_visit_step `{PyRuntime} (sub_col : collection)
    (doc : nat * dict) (col : collection) :
  backfill_substatus.visit sub_col doc col
  = rewrite_step (substatus_sets sub_col) doc col.
Proof.
  unfold backfill_substatus.visit, rewrite_step, substatus_sets.
  by destruct (update_fields sub_col doc.2).
Qed.

Lemma substatus_run_loop `{PyRuntime} (sub_col : collection)
    (cursor : list (nat * dict)) (col : collection) :
  for_each (backfill_substatus.visit sub_col) cursor col
  = for_each (rewrite_step (substatus_sets sub_col)) cursor col.
Proof. apply for_each_ext. intros. apply substatus_visit_step. Qed.

Lemma substatus_rewrite_of `{PyRuntime} (sub_col : collection) (d x : dict) :
  rewrite_of (substatus_sets sub_col) d x
  = apply_set (substatus_fields sub_col d) x.
Proof.
  unfold rewrite_of, substatus_sets, substatus_fields.
  by destruct (update_fields sub_col d).
Qed.

Lemma substatus_sets_ok `{PyRuntime} (sub_col : collection) (d : dict) :
  (∃ o, substatus_sets sub_col d = Ok o) ↔ code_parses d.
Proof.
  rewrite <- (update_fields_ok sub_col). unfold substatus_sets.
  destruct (update_fields sub_col d) as [fields|e]; simpl.
  - split; eauto.
  - split; intros [? ?]; done.
Qed.

(** The job of the whole collection, dispatch by dispatch. *)
Lemma substatus_run_cons `{PyRuntime} (sub_col : collection) (d : dict)
    (col : collection) :
  backfill_substatus.run sub_col (d :: col) =
    match update_fields sub_col d with
    | Ok _ =>
        (rederived sub_col d :: (backfill_substatus.run sub_col col).1,
         (backfill_substatus.run sub_col col).2)
    | Raise e => (d :: col, Raise e)
    end.
Proof.
  unfold backfill_substatus.run. rewrite !substatus_run_loop.
  rewrite rewrite_all_cons, substatus_rewrite_of.
  unfold substatus_sets. by destruct (update_fields sub_col d).
Qed.

Lemma substatus_run_all `{PyRuntime} (sub_col col : collection) :
  Forall code_parses col →
  backfill_substatus.run sub_col col = (rederived sub_col <$> col, Ok tt).
Proof.
  induction 1 as [|d col Hd _ IH]; [done|].
  rewrite substatus_run_cons, IH.
  apply (update_fields_ok sub_col) in Hd as [fields ->]. done.
Qed.

(** The job ends normally exactly when every code can be looked up. *)
Lemma substatus_run_ok `{PyRuntime} (sub_col col : collection) :
  (backfill_substatus.run sub_col col).2 = Ok tt ↔ Forall code_parses col.
Proof.
  split; [|intros Hall; by rewrite substatus_run_all].
  induction col as [|d col IH]; [constructor|].
  rewrite substatus_run_cons.
  destruct (update_fields sub_col d) as [fields|e] eqn:Hu; [|done].
  simpl. intros Hok. constructor; [|by apply IH].
  apply (update_fields_ok sub_col). eauto.
Qed.

(** Whatever its end, the job leaves at each place the dispatch that was
    there, as it was or rewritten. *)
Lemma substatus_run_any `{PyRuntime} (sub_col col : collection) i x' :
  (backfill_substatus.run sub_col col).1 !! i = Some x' →
  ∃ x, col !! i = Some x ∧ (x' = x ∨ x' = rederived sub_col x).
Proof.
  revert i. induction col as [|d col IH]; intros i; [done|].
  rewrite substatus_run_cons.
  destruct (update_fields sub_col d) as [fields|e]; simpl.
  - destruct i as [|i]; simpl.
    + intros [= <-]. exists d. split; [done|by right].
    + apply IH.
  - intros Hi. exists x'. split; [done|by left].
Qed.

(** When every code of the collection can be looked up, the job ends
    normally, and every dispatch is rewritten, whatever it held before:
    the three fields become [None] when the code is not valid, [None] when
    no row of the reference collection has a [Código Sub] equal to a
    variant of the code, and the [Estado Beetrack], [Estado Guía] and
    [Cierre] of the first such row otherwise; nothing else of the dispatch
    changes. *)
Theorem substatus_rederived_when_codes_parse `{PyRuntime}
    (sub_col disp_col : collection) i (disp : dict) :
  Forall code_parses disp_col →
  disp_col !! i = Some disp →
  let code := get "substatus_code" disp in
  ∃ eb eg ci disp' col',
    backfill_substatus.run sub_col disp_col = (col', Ok tt) ∧
    length col' = length disp_col ∧
    col' !! i = Some disp' ∧
    get "estado_beetrack" disp' = eb ∧ get "estado_guia" disp' = eg ∧
    get "cierre" disp' = ci ∧
    (∀ k, k ∉ substatus_targets → dict_lookup k disp' = dict_lookup k disp) ∧
    (_normalize_code code = None → eb = VNone ∧ eg = VNone ∧ ci = VNone) ∧
    (∀ vs, _code_variants code = Ok (Some vs) →
       (∀ row, row ∈ sub_col → matches [("Código Sub", CIn vs)] row = false) →
       eb = VNone ∧ eg = VNone ∧ ci = VNone) ∧
    (∀ vs j row, _code_variants code = Ok (Some vs) →
       sub_col !! j = Some row →
       matches [("Código Sub", CIn vs)] row = true →
       (∀ j' row', (j' < j)%nat → sub_col !! j' = Some row' →
          matches [("Código Sub", CIn vs)] row' = false) →
       eb = get "Estado Beetrack" row ∧ eg = get "Estado Guía" row ∧
       ci = get "Cierre" row).
Proof.
  intros Hall Hi code.
  assert (code_parses disp) as Hp.
  { rewrite Forall_forall in Hall. apply Hall.
    apply list_elem_of_lookup. eauto. }
  apply (update_fields_ok sub_col) in Hp as [fields Hu].
  pose proof (update_fields_cases sub_col disp) as Hc. simpl in Hc.
  rewrite Hu in Hc.
  destruct Hc as (eb & eg & ci & -> & Hnone & Hmiss & Hrow).
  fold code in Hnone, Hmiss, Hrow.
  assert (rederived sub_col disp =
          apply_set [("estado_beetrack", eb); ("estado_guia", eg);
                     ("cierre", ci)] disp) as Hre.
  { unfold rederived, substatus_fields. by rewrite Hu. }
  exists eb, eg, ci, (rederived sub_col disp), (rederived sub_col <$> disp_col).
  split; [by apply substatus_run_all|].
  split; [apply length_fmap|].
  split; [by rewrite list_lookup_fmap, Hi|].
  rewrite Hre.
  split; [by apply get_apply_set_in; [key_nodup|binding_in]|].
  split; [by apply get_apply_set_in; [key_nodup|binding_in]|].
  split; [by apply get_apply_set_in; [key_nodup|binding_in]|].
  split; [intros k Hk; by apply dict_lookup_apply_set_notin|].
  split; [done|].
  split.
  { intros vs Hvs Hnorow. apply (Hmiss vs Hvs). by apply find_one_None. }
  intros vs j row Hvs Hj Hm Hfirst. apply (Hrow vs j row Hvs).
  destruct (find_one [("Código Sub", CIn vs)] sub_col)
    as [[j0 row0]|] eqn:Hfo.
  - apply find_one_Some in Hfo as (Hj0 & Hm0 & Hlt).
    destruct (Nat.lt_trichotomy j0 j) as [Hlt'|[->|Hlt']].
    + by rewrite (Hfirst j0 row0 Hlt' Hj0) in Hm0.
    + congruence.
    + by rewrite (Hlt j row Hlt' Hj) in Hm.
  - rewrite find_one_None in Hfo. rewrite Hfo in Hm; [done|].
    apply list_elem_of_lookup; eauto.
Qed.

(** On the sample: D1 takes the row of the code 1, D2 and D3 are set to
    [None] over what an earlier run had left. *)
Lemma substatus_rederived_when_codes_parse_witness :
  @backfill_substatus.run plain_repr sample_substatus sample_dispatches =
  ([[("dispatch_key", VStr "D1"); ("substatus_code", VStr "1");
     ("estado_beetrack", VStr "Entregado"); ("estado_guia", VStr "ENTREGADA");
     ("cierre", VBool true)];
    [("dispatch_key", VStr "D2"); ("substatus_code", VNone);
     ("cierre", VNone); ("estado_beetrack", VNone); ("estado_guia", VNone)];
    [("dispatch_key", VStr "D3"); ("substatus_code", VStr "77");
     ("estado_guia", VNone); ("estado_beetrack", VNone); ("cierre", VNone)]],
   Ok tt) ∧
  ∃ eb eg ci disp' col',
    @backfill_substatus.run plain_repr sample_substatus sample_dispatches
      = (col', Ok tt) ∧
    col' !! 1%nat = Some disp' ∧
    get "estado_beetrack" disp' = eb ∧ get "estado_guia" disp' = eg ∧
    get "cierre" disp' = ci ∧ eb = VNone ∧ eg = VNone ∧ ci = VNone.
Proof.
  split; [reflexivity|].
  destruct (@substatus_rederived_when_codes_parse plain_repr sample_substatus
              sample_dispatches 1
              [("dispatch_key", VStr "D2"); ("substatus_code", VNone);
               ("cierre", VBool true)])
    as (eb & eg & ci & disp' & col' & Hr & _ & Hl & H1 & H2 & H3 & _ & Hn & _).
  - repeat constructor; intros norm Hn _; vm_compute in Hn; simplify_eq;
      eexists; split; reflexivity.
  - reflexivity.
  - destruct (Hn eq_refl) as (-> & -> & ->).
    by exists VNone, VNone, VNone, disp', col'.
Defined.

(** The job stops at the first dispatch whose code cannot be looked
    up: the exception leaves the job, the dispatches before that one are
    rewritten, and that one and every dispatch after it are left as they
    were, with the fields of an earlier run. *)
Theorem substatus_run_stops_at_first_failure `{PyRuntime}
    (sub_col pre : collection) (d : dict) (post : collection) (e : exn) :
  Forall code_parses pre →
  code_fails d e →
  backfill_substatus.run sub_col (pre ++ d :: post)
  = ((rederived sub_col <$> pre) ++ d :: post, Raise e).
Proof.
  intros Hpre Hd. apply (update_fields_raise sub_col) in Hd.
  induction Hpre as [|x pre Hx _ IH]; simpl.
  - by rewrite substatus_run_cons, Hd.
  - rewrite substatus_run_cons, IH.
    apply (update_fields_ok sub_col) in Hx as [fields ->]. done.
Qed.

(** A dispatch that maps, then a code of twenty digits, then a dispatch
    with the [cierre] of an earlier run: the first is rewritten, the
    others are not. *)
Lemma substatus_run_stops_at_first_failure_witness :
  @backfill_substatus.run plain_repr sample_substatus
    [[("dispatch_key", VStr "D0"); ("substatus_code", VInt 1)];
     disp_long_code; disp_stale]
  = ([[("dispatch_key", VStr "D0"); ("substatus_code", VInt 1);
       ("estado_beetrack", VStr "Entregado");
       ("estado_guia", VStr "ENTREGADA"); ("cierre", VBool true)];
      disp_long_code; disp_stale], Raise OverflowError).
Proof.
  apply (@substatus_run_stops_at_first_failure plain_repr sample_substatus
           [[("dispatch_key", VStr "D0"); ("substatus_code", VInt 1)]]
           disp_long_code [disp_stale] OverflowError).
  - constructor; [|constructor]. intros norm [= <-] _. by exists 1.
  - exists "12345678901234567890". split; [reflexivity|].
    split; [reflexivity|]. right. by exists 12345678901234567890.
Defined.

(** The job of one route, when the codes of its dispatches can be looked
    up: it ends normally, rewrites the dispatches of the route as the job
    of the whole collection does when that job ends normally, and leaves
    the dispatches of the other routes as they were, whatever their codes. *)
Theorem route_substatus_agrees_with_full_job `{PyRuntime}
    (sub_col disp_col : collection) route_key :
  (∀ d, d ∈ disp_col →
        matches [("route_key", CEq (VStr route_key))] d = true →
        code_parses d) →
  (get_substatus.run sub_col disp_col route_key).2 = Ok tt ∧
  (∀ i d, disp_col !! i = Some d →
     (get_substatus.run sub_col disp_col route_key).1 !! i =
       Some (if matches [("route_key", CEq (VStr route_key))] d
             then rederived sub_col d else d)) ∧
  ((backfill_substatus.run sub_col disp_col).2 = Ok tt →
   ∀ i d, disp_col !! i = Some d →
     matches [("route_key", CEq (VStr route_key))] d = true →
     (get_substatus.run sub_col disp_col route_key).1 !! i =
     (backfill_substatus.run sub_col disp_col).1 !! i).
Proof.
  intros Hroute. unfold get_substatus.run.
  rewrite substatus_run_loop.
  change (find [("route_key", CEq (VStr route_key))] disp_col)
    with (find_where (matches [("route_key", CEq (VStr route_key))]) disp_col).
  set (p := matches [("route_key", CEq (VStr route_key))]).
  assert ((for_each (rewrite_step (substatus_sets sub_col))
             (find_where p disp_col) disp_col).2 = Ok tt) as Hok.
  { apply rewrite_loop_ok, Forall_forall.
    intros [j dj] [Hj Hp]%elem_of_find_where. simpl.
    apply substatus_sets_ok, Hroute; [|done].
    apply list_elem_of_lookup; eauto. }
  assert (∀ i d, disp_col !! i = Some d →
            (for_each (rewrite_step (substatus_sets sub_col))
               (find_where p disp_col) disp_col).1 !! i =
            Some (if p d then rederived sub_col d else d)) as Hlook.
  { intros i d Hi. rewrite (rewrite_run_lookup _ p disp_col i d Hok Hi).
    by rewrite substatus_rewrite_of. }
  split; [done|]. split; [done|].
  intros Hfull i d Hi Hp. rewrite (Hlook i d Hi), Hp.
  apply substatus_run_ok in Hfull.
  rewrite (substatus_run_all sub_col disp_col Hfull). cbn [fst].
  by rewrite list_lookup_fmap, Hi.
Qed.

(** On the sample, the job of R1 maps the code of D1 like the job of the
    whole collection, and leaves D3, of the route R2, with its old value. *)
Lemma route_substatus_agrees_with_full_job_witness :
  (@get_substatus.run plain_repr sample_substatus sample_route_dispatches "R1").1
    !! 0%nat
  = (@backfill_substatus.run plain_repr sample_substatus
       sample_route_dispatches).1 !! 0%nat ∧
  (@get_substatus.run plain_repr sample_substatus sample_route_dispatches "R1").1
    !! 2%nat
  = sample_route_dispatches !! 2%nat.
Proof.
  destruct (@route_substatus_agrees_with_full_job plain_repr
              sample_substatus sample_route_dispatches "R1")
    as (_ & Hroute & Hfull).
  - intros d Hd _. revert d Hd. apply Forall_forall.
    repeat constructor; intros norm Hn _; vm_compute in Hn; simplify_eq;
      eexists; split; reflexivity.
  - split.
    + by apply (Hfull eq_refl 0%nat _ eq_refl).
    + exact (Hroute 2%nat _ eq_refl).
Defined.

(** A second run of the job of the whole collection ends as the first and
    changes nothing: normally, when the first did, and at the same
    dispatch with the same exception otherwise. *)
Theorem substatus_second_run_changes_nothing `{PyRuntime}
    (sub_col disp_col : collection) :
  backfill_substatus.run sub_col (backfill_substatus.run sub_col disp_col).1
  = backfill_substatus.run sub_col disp_col.
Proof.
  induction disp_col as [|d col IH]; [done|].
  rewrite substatus_run_cons.
  destruct (update_fields sub_col d) as [fields|e] eqn:Hu; cbn [fst snd].
  - rewrite substatus_run_cons.
    rewrite (update_fields_code sub_col d) by apply rederived_code.
    rewrite Hu, rederived_idem, IH. done.
  - by rewrite substatus_run_cons, Hu.
Qed.

(** ** The order-type job of one route *)

Lemma projected_raw_tags (d : dict) :
  attr_get_default "tags" (VList [])
    (get_default "dispatch_raw" (VDict [])
       (project_path "dispatch_raw" "tags" d))
  = raw_tags d.
Proof.
  unfold project_path, raw_tags, get_default.
  destruct (dict_lookup "dispatch_raw" d) as [[| | | | | | |l|r]|]; try done.
  simpl. unfold get_default. by rewrite dict_lookup_project by key_in.
Qed.

Lemma route_tipo_orden_visit_step (doc : nat * dict) (col : collection) :
  jobs.backfill_tipo_orden_from_tags.visit
    (doc.1, project_path "dispatch_raw" "tags" doc.2) col
  = rewrite_step route_tipo_orden_sets doc col.
Proof.
  unfold jobs.backfill_tipo_orden_from_tags.visit, rewrite_step,
    route_tipo_orden_sets. simpl.
  destruct (jobs.backfill_tipo_orden_from_tags._get_tag_value_from_dispatch
              _ _) as [v|e]; simpl; [|done].
  by destruct (truthy v).
Qed.

Lemma route_tipo_orden_run_loop (col : collection) route_key :
  jobs.backfill_tipo_orden_from_tags.run col route_key =
    for_each (rewrite_step route_tipo_orden_sets)
      (find_where (jobs.backfill_tipo_orden_from_tags.query route_key) col)
      col.
Proof.
  unfold jobs.backfill_tipo_orden_from_tags.run. rewrite for_each_fmap.
  apply for_each_ext. intros. apply route_tipo_orden_visit_step.
Qed.

(** The field written, by the stored dispatch. *)
Lemma route_tipo_orden_sets_cases (d : dict) :
  match dict_lookup "dispatch_raw" d with
  | Some (VDict r) =>
      ∃ v, v = match get_default "tags" (VList []) r with
               | VList l =>
                   jobs.backfill_tipo_orden_from_tags.tags_loop l "TIPO_ORDEN"
               | _ => VNone
               end ∧
           route_tipo_orden_sets d =
             if truthy v then Ok (Some [("tipo_orden", v)]) else Ok None
  | Some (VList _) => route_tipo_orden_sets d = Raise AttributeError
  | _ => route_tipo_orden_sets d = Ok None
  end.
Proof.
  unfold route_tipo_orden_sets,
    jobs.backfill_tipo_orden_from_tags._get_tag_value_from_dispatch.
  rewrite projected_raw_tags. unfold raw_tags.
  destruct (dict_lookup "dispatch_raw" d) as [[| | | | | | |l|r]|]; try done.
  simpl. eexists. split; [reflexivity|].
  by destruct (get_default "tags" (VList []) r).
Qed.

(** Whatever the end of the run: a dispatch outside the query, which
    selects the dispatches of the route whose [tipo_orden] is missing, null
    or the empty text, is left as it was; a dispatch that is changed has an
    embedded [dispatch_raw] document with a list of tags, and it is given,
    as [tipo_orden] and with nothing else changed, the value of the first
    tag object named TIPO_ORDEN, which is truthy. After a run that ends
    normally, every dispatch of the query with such a value has it. *)
Theorem route_tipo_orden_written_when_truthy (col : collection) route_key
    i (d : dict) :
  col !! i = Some d →
  ∃ d', (jobs.backfill_tipo_orden_from_tags.run col route_key).1 !! i
          = Some d' ∧
    (jobs.backfill_tipo_orden_from_tags.query route_key d = false → d' = d) ∧
    (d' = d ∨
     ∃ r l, dict_lookup "dispatch_raw" d = Some (VDict r) ∧
       get_default "tags" (VList []) r = VList l ∧
       truthy (jobs.backfill_tipo_orden_from_tags.tags_loop l "TIPO_ORDEN")
         = true ∧
       d' = apply_set
              [("tipo_orden",
                jobs.backfill_tipo_orden_from_tags.tags_loop l "TIPO_ORDEN")]
              d) ∧
    ((jobs.backfill_tipo_orden_from_tags.run col route_key).2 = Ok tt →
     ∀ r l, jobs.backfill_tipo_orden_from_tags.query route_key d = true →
       dict_lookup "dispatch_raw" d = Some (VDict r) →
       get_default "tags" (VList []) r = VList l →
       truthy (jobs.backfill_tipo_orden_from_tags.tags_loop l "TIPO_ORDEN")
         = true →
       d' = apply_set
              [("tipo_orden",
                jobs.backfill_tipo_orden_from_tags.tags_loop l "TIPO_ORDEN")]
              d).
Proof.
  intros Hi. rewrite route_tipo_orden_run_loop.
  set (p := jobs.backfill_tipo_orden_from_tags.query route_key).
  pose proof (route_tipo_orden_sets_cases d) as Hcases.
  destruct (rewrite_run_any route_tipo_orden_sets p col i d Hi)
    as [Hl|(Hp & sets & Hs & Hl)].
  - exists d. split; [done|]. split; [done|]. split; [by left|].
    intros Hok r l Hq Hr Hts Hv.
    pose proof (rewrite_run_lookup route_tipo_orden_sets p col i d Hok Hi)
      as Hl'.
    rewrite Hq in Hl'. rewrite Hl in Hl'. injection Hl' as Hd.
    rewrite Hr in Hcases. destruct Hcases as (v & -> & Hsets).
    rewrite Hts, Hv in Hsets. unfold rewrite_of in Hd.
    by rewrite Hsets in Hd.
  - destruct (dict_lookup "dispatch_raw" d) as [[| | | | | | |l0|r]|] eqn:Hr;
      try congruence.
    destruct Hcases as (v & Hv & Hsets).
    destruct (truthy v) eqn:Ht; [|congruence].
    rewrite Hsets in Hs. injection Hs as <-.
    destruct (get_default "tags" (VList []) r) as [| | | | | | |l|] eqn:Hts;
      subst v; try done.
    eexists. split; [exact Hl|]. split; [by rewrite Hp|].
    split; [right; by exists r, l|].
    intros _ r' l' _ [= <-]. rewrite Hts. by intros [= <-].
Qed.

(** On the sample, the empty [tipo_orden] of D1 is replaced, the empty tag
    value of D2 is not written, and D3, of another route, is not read. *)
Lemma route_tipo_orden_written_when_truthy_witness :
  get "tipo_orden" <$>
    (jobs.backfill_tipo_orden_from_tags.run sample_route_dispatches "R1").1
      !! 0%nat = Some (VStr "RETIRO") ∧
  (jobs.backfill_tipo_orden_from_tags.run sample_route_dispatches "R1").1
    !! 2%nat = sample_route_dispatches !! 2%nat.
Proof.
  split; [reflexivity|].
  destruct (route_tipo_orden_written_when_truthy sample_route_dispatches "R1"
              2 _ eq_refl) as (d' & Hl & Hsame & _).
  rewrite Hl, (Hsame eq_refl). reflexivity.
Defined.

(** ** The promise-date jobs *)

Lemma promise_visit_rewrite `{PyRuntime} (st : collection * Z)
    (doc : nat * dict) :
  backfill_promise_date_from_tags.visit st doc =
    match promise_sets (get_default "tags" (VList []) doc.2) with
    | Some sets => (update_by_id doc.1 sets st.1, st.2 + 1)
    | None => st
    end.
Proof.
  unfold backfill_promise_date_from_tags.visit, promise_sets.
  set (raw := backfill_promise_date_from_tags.extract_fecsoldes _).
  destruct (is_None raw) eqn:Hn.
  - destruct raw; try done.
  - by destruct (backfill_promise_date_from_tags.normalize_promise_date raw).
Qed.

Lemma promise_run_fold `{PyRuntime} (cursor : list (nat * dict))
    (st : collection * Z) :
  fold_left backfill_promise_date_from_tags.visit cursor st =
    (fold_left (λ c id, alter (promise_rewrite id.2) id.1 c) cursor st.1,
     st.2 + Z.of_nat
              (length (List.filter
                 (λ doc : nat * dict,
                    bool_decide (is_Some (promise_sets
                       (get_default "tags" (VList []) doc.2)))) cursor))).
Proof.
  revert st. induction cursor as [|[j dj] cursor IH]; intros [col n].
  - simpl. f_equal. lia.
  - cbn [fold_left List.filter]. rewrite IH, promise_visit_rewrite.
    unfold promise_rewrite. cbn [fst snd].
    destruct (promise_sets (get_default "tags" (VList []) dj)) as [sets|];
      simpl.
    + f_equal. lia.
    + by rewrite list_alter_id.
Qed.

(** A loop that rewrites each selected document at its place is a map
    over the collection. *)
Lemma fold_alter_find_fmap (G : dict → dict → dict) q (col : collection) :
  fold_left (λ c id, alter (G id.2) id.1 c) (find q col) col =
    (λ d, if matches q d then G d d else d) <$> col.
Proof.
  apply list_eq. intros i. rewrite list_lookup_fmap.
  destruct (col !! i) as [d|] eqn:Hi.
  - by rewrite (fold_alter_find G q col i d Hi).
  - simpl. apply lookup_ge_None. rewrite fold_alter_length.
    by apply lookup_ge_None.
Qed.

Lemma length_filter_find (W : dict → bool) q (col : collection) :
  length (List.filter (λ doc : nat * dict, W doc.2) (find q col)) =
  length (List.filter (λ d, matches q d && W d) col).
Proof.
  induction col as [|d col IH]; [done|].
  rewrite find_cons, List.filter_app, length_app. simpl.
  change (fmap ?f ?l) with (List.map f l).
  rewrite filter_map_swap, length_map. simpl. rewrite IH.
  destruct (matches q d); simpl; [|done]. by destruct (W d).
Qed.

(** The documents that gain the field [k] when every document is
    rewritten by [g]. *)
Lemma count_after_rewrite k (g : dict → dict) (sel : dict → bool)
    (col : collection) :
  (∀ x, has_key k (g x) = has_key k x || sel x) →
  (∀ x, sel x = true → has_key k x = false) →
  Z.of_nat (length (List.filter sel col)) =
    count_with k (g <$> col) - count_with k col.
Proof.
  intros Hg Hsel. unfold count_with.
  induction col as [|x col IH]; [done|].
  cbn [fmap list_fmap List.filter]. rewrite Hg.
  destruct (sel x) eqn:Hs.
  - rewrite (Hsel x Hs). cbn [orb length]. lia.
  - rewrite orb_false_r. destruct (has_key k x); cbn [length]; lia.
Qed.

(** What the promise-date job of the whole collection does to a dispatch,
    and what its count counts. A dispatch that has a [promise_date] field
    is left as it was, and so is a dispatch whose first FECSOLDES tag
    object gives no promise date; the other dispatches get that promise
    date with the tag value as [promise_date_raw], and nothing else of
    them changes. The count that the run returns is the number of
    documents that gained a [promise_date]. *)
Theorem promise_date_run_writes_and_counts `{PyRuntime}
    (col : collection) i (d : dict) :
  col !! i = Some d →
  let raw := backfill_promise_date_from_tags.extract_fecsoldes
               (get_default "tags" (VList []) d) in
  let r := backfill_promise_date_from_tags.run col in
  r.2 = count_with "promise_date" r.1 - count_with "promise_date" col ∧
  ∃ d', r.1 !! i = Some d' ∧
    (is_Some (dict_lookup "promise_date" d) → d' = d) ∧
    (backfill_promise_date_from_tags.normalize_promise_date raw = None →
     d' = d) ∧
    (∀ p, dict_lookup "promise_date" d = None →
       backfill_promise_date_from_tags.normalize_promise_date raw = Some p →
       get "promise_date" d' = VStr p ∧ get "promise_date_raw" d' = raw ∧
       ∀ k, k ≠ "promise_date" → k ≠ "promise_date_raw" →
            dict_lookup k d' = dict_lookup k d).
Proof.
  intros Hi raw r. unfold r, backfill_promise_date_from_tags.run.
  rewrite promise_run_fold. cbn [fst snd].
  set (q := [("promise_date", CExists false)]).
  assert (∀ x, matches q x = negb (has_key "promise_date" x)) as Hq.
  { intros x. unfold q, matches, has_key. simpl.
    by destruct (dict_lookup "promise_date" x). }
  split.
  - rewrite fold_alter_find_fmap.
    pose proof (length_filter_find
               (λ x, bool_decide (is_Some (promise_sets
                                   (get_default "tags" (VList []) x)))) q col)
      as Hlen.
    cbv beta in Hlen. rewrite Hlen. clear Hlen. simpl.
    apply count_after_rewrite; intros x; rewrite Hq;
      unfold promise_rewrite, promise_sets;
      destruct (has_key "promise_date" x) eqn:Hx; try done.
    cbn [negb andb orb].
    destruct (backfill_promise_date_from_tags.normalize_promise_date _)
      as [p|].
    + rewrite bool_decide_eq_true_2 by eauto. unfold has_key.
      by rewrite (dict_lookup_apply_set_in "promise_date" (VStr p));
        [|key_nodup|binding_in].
    + rewrite bool_decide_eq_false_2 by (by intros [? ?]). done.
  - rewrite (fold_alter_find promise_rewrite q col i d Hi), Hq.
    unfold has_key, promise_rewrite, promise_sets. fold raw.
    eexists. split; [reflexivity|].
    destruct (dict_lookup "promise_date" d) as [v|] eqn:Hv.
    + rewrite bool_decide_eq_true_2 by eauto. simpl.
      split; [done|]. split; [done|]. done.
    + rewrite bool_decide_eq_false_2 by (by intros [? ?]). simpl.
      split; [by intros [? ?]|].
      destruct (backfill_promise_date_from_tags.normalize_promise_date raw)
        as [p|]; [|done].
      split; [done|]. intros p' _ [= <-].
      split; [by apply get_apply_set_in; [key_nodup|binding_in]|].
      split; [by apply get_apply_set_in; [key_nodup|binding_in]|].
      intros k H1 H2. apply dict_lookup_apply_set_notin. simpl.
      intros [->|[->|[]%elem_of_nil]%elem_of_cons]%elem_of_cons; done.
Qed.

(** On the sample, one of the four dispatches gains a promise date. *)
Lemma promise_date_run_writes_and_counts_witness :
  (@backfill_promise_date_from_tags.run plain_repr
     sample_promise_dispatches).2 = 1 ∧
  get "promise_date" <$>
    (@backfill_promise_date_from_tags.run plain_repr
       sample_promise_dispatches).1 !! 0%nat = Some (VStr "2025-11-26").
Proof.
  destruct (@promise_date_run_writes_and_counts plain_repr
              sample_promise_dispatches 0 _ eq_refl)
    as (Hcount & d' & Hl & _ & _ & Hw).
  split; [rewrite Hcount; reflexivity|].
  rewrite Hl. simpl. f_equal. apply (Hw "2025-11-26"); reflexivity.
Defined.

Lemma route_promise_visit_step `{PyRuntime} (doc : nat * dict)
    (st : collection * Z) :
  let r := jobs.backfill_promise_date_from_tags.visit
             (doc.1, project_path "dispatch_raw" "tags" doc.2) st in
  (r.1.1, r.2) = rewrite_step route_promise_sets doc st.1.
Proof.
  unfold jobs.backfill_promise_date_from_tags.visit, rewrite_step,
    route_promise_sets. cbn [fst snd].
  rewrite projected_raw_tags.
  destruct (raw_tags doc.2) as [tags|e]; simpl; [|done].
  unfold promise_sets, jobs.backfill_promise_date_from_tags.extract_fecsoldes,
    jobs.backfill_promise_date_from_tags.normalize_promise_date.
  set (raw := backfill_promise_date_from_tags.extract_fecsoldes tags).
  destruct (is_None raw) eqn:Hn.
  - destruct raw; try done.
  - by destruct (backfill_promise_date_from_tags.normalize_promise_date raw).
Qed.

Lemma route_promise_run_loop `{PyRuntime} (cursor : list (nat * dict))
    (st : collection * Z) :
  let r := for_each jobs.backfill_promise_date_from_tags.visit
             ((λ id : nat * dict,
                 (id.1, project_path "dispatch_raw" "tags" id.2)) <$> cursor)
             st in
  (r.1.1, r.2) = for_each (rewrite_step route_promise_sets) cursor st.1.
Proof.
  revert st. induction cursor as [|doc cursor IH]; intros st; [done|].
  cbn [fmap list_fmap for_each].
  pose proof (route_promise_visit_step doc st) as Hstep. cbv zeta in Hstep.
  destruct (jobs.backfill_promise_date_from_tags.visit _ st) as [st' [[]|e]];
    destruct (rewrite_step route_promise_sets doc st.1) as [col' [[]|e']];
    simpl in Hstep; simplify_eq.
  - apply IH.
  - done.
Qed.

(** The promise-date job of one route, whatever the end of the run: a
    dispatch of another route, or one that has a [promise_date] field, is
    left as it was; a dispatch that is changed has an embedded
    [dispatch_raw] document whose first FECSOLDES tag object gives a
    promise date, and it is given that date, with the tag value as
    [promise_date_raw] and nothing else changed. After a run that ends
    normally, every dispatch of the route without [promise_date] whose
    [dispatch_raw] gives a promise date has it. *)
Theorem route_promise_date_written_when_valid `{PyRuntime}
    (col : collection) route_key i (d : dict) :
  col !! i = Some d →
  let q := [("route_key", CEq (VStr route_key));
            ("promise_date", CExists false)] in
  let r := jobs.backfill_promise_date_from_tags.run col route_key in
  ∃ d', r.1.1 !! i = Some d' ∧
    (matches q d = false → d' = d) ∧
    (d' = d ∨
     ∃ rw sets, dict_lookup "dispatch_raw" d = Some (VDict rw) ∧
       promise_sets (get_default "tags" (VList []) rw) = Some sets ∧
       d' = apply_set sets d) ∧
    (r.2 = Ok tt →
     ∀ rw sets, matches q d = true →
       dict_lookup "dispatch_raw" d = Some (VDict rw) →
       promise_sets (get_default "tags" (VList []) rw) = Some sets →
       d' = apply_set sets d).
Proof.
  intros Hi q r. unfold r, jobs.backfill_promise_date_from_tags.run.
  pose proof (route_promise_run_loop (find q col) (col, 0)) as Hloop.
  cbv zeta in Hloop. fold q.
  destruct (for_each jobs.backfill_promise_date_from_tags.visit _ (col, 0))
    as [[col' n] out]. cbn [fst snd] in *.
  change (find q col) with (find_where (matches q) col) in Hloop.
  assert (col' = (for_each (rewrite_step route_promise_sets)
                    (find_where (matches q) col) col).1) as ->
    by by rewrite <- Hloop.
  assert (out = (for_each (rewrite_step route_promise_sets)
                   (find_where (matches q) col) col).2) as ->
    by by rewrite <- Hloop.
  clear Hloop.
  assert (∀ rw, dict_lookup "dispatch_raw" d = Some (VDict rw) →
            route_promise_sets d
            = Ok (promise_sets (get_default "tags" (VList []) rw))) as Hraw.
  { intros rw Hr. unfold route_promise_sets, raw_tags. by rewrite Hr. }
  destruct (rewrite_run_any route_promise_sets (matches q) col i d Hi)
    as [Hl|(Hp & sets & Hs & Hl)].
  - exists d. split; [done|]. split; [done|]. split; [by left|].
    intros Hok rw sets Hq Hr Hsets.
    pose proof (rewrite_run_lookup route_promise_sets (matches q) col i d
                  Hok Hi) as Hl'.
    rewrite Hq, Hl in Hl'. injection Hl' as Hd.
    unfold rewrite_of in Hd. by rewrite (Hraw rw Hr), Hsets in Hd.
  - eexists. split; [exact Hl|]. split; [by rewrite Hp|].
    pose proof Hs as Hs'. unfold route_promise_sets, raw_tags in Hs'.
    destruct (dict_lookup "dispatch_raw" d) as [[| | | | | | |l0|rw]|] eqn:Hr;
      try done.
    clear Hs'. rewrite (Hraw rw eq_refl) in Hs. injection Hs as Hs.
    split; [right; by exists rw, sets|].
    intros _ rw' sets' _. intros [= <-]. rewrite Hs.
    by intros [= <-].
Qed.

(** On the sample, D1 of the route R1 gets the promise date of its tag, and
    D3, of another route, is left alone. *)
Lemma route_promise_date_written_when_valid_witness :
  get "promise_date" <$>
    (@jobs.backfill_promise_date_from_tags.run plain_repr
       sample_route_dispatches "R1").1.1 !! 0%nat = Some (VStr "2025-11-26") ∧
  (@jobs.backfill_promise_date_from_tags.run plain_repr
     sample_route_dispatches "R1").1.1 !! 2%nat
  = sample_route_dispatches !! 2%nat.
Proof.
  split; [reflexivity|].
  destruct (@route_promise_date_written_when_valid plain_repr
              sample_route_dispatches "R1" 2 _ eq_refl)
    as (d' & Hl & Hsame & _).
  rewrite Hl, (Hsame eq_refl). reflexivity.
Defined.

(** ** The detail refresh *)





(** ** The ingestion of the listing *)

Lemma route_op_shape `{PyRuntime} date_str page now route op :
  route_op date_str page now route = Some op →
  ∃ key, key ≠ "" ∧
    op = {| uo_filter := [("route_key", CEq (VStr key))];
            uo_set := [("date", VStr date_str); ("page", VInt page);
                       ("minified_raw", VDict route);
                       ("last_refreshed_at", VDate now)];
            uo_setOnInsert := [("created_at", VDate now);
                               ("has_full_details", VBool false);
                               ("is_closed", VBool false)];
            uo_upsert := true |}.
Proof.
  unfold route_op.
  destruct (_extract_route_key route) as [[|c k]|]; [done| |done].
  intros [= <-]. by exists (String c k).
Qed.

Lemma ingested_refl (col : collection) : ingested col col.
Proof.
  split.
  - intros i d Hi. by exists d.
  - intros i d' Hi Hlen. apply lookup_lt_Some in Hi. lia.
Qed.

Lemma fresh_route_listing sets (d : dict) :
  sets.*1 = listing_fields → fresh_route d → fresh_route (apply_set sets d).
Proof.
  intros Hk (H1 & H2 & H3 & H4 & [t H5] & key & H6 & H7).
  assert (∀ k, k ∉ listing_fields →
               dict_lookup k (apply_set sets d) = dict_lookup k d) as Hsame.
  { intros k Hnot. apply dict_lookup_apply_set_notin. by rewrite Hk. }
  unfold fresh_route, get.
  rewrite !Hsame by key_notin. repeat split; try done; eauto.
Qed.

Lemma ingested_update_one `{PyRuntime} date_str page now route op
    (col0 col : collection) :
  route_op date_str page now route = Some op →
  ingested col0 col → ingested col0 (update_one op col).
Proof.
  intros (key & Hkey & ->)%route_op_shape [Hold Hnew].
  unfold update_one.
  cbn [uo_filter uo_set uo_setOnInsert uo_upsert filter_fields omap list_omap
       fst snd].
  set (sets := [("date", VStr date_str); ("page", VInt page);
                ("minified_raw", VDict route);
                ("last_refreshed_at", VDate now)]).
  destruct (find_one _ col) as [[j x]|] eqn:Hf.
  - apply find_one_Some in Hf as (Hj & _ & _). unfold update_by_id. split.
    + intros i d Hi. destruct (Hold i d Hi) as (d' & Hi' & Hsame).
      destruct (decide (j = i)) as [->|Hne].
      * exists (apply_set sets d'). rewrite list_lookup_alter_eq, Hi'.
        split; [done|]. intros k Hk.
        rewrite dict_lookup_apply_set_notin by done. by apply Hsame.
      * exists d'. by rewrite list_lookup_alter_ne.
    + intros i d' Hi Hlen. destruct (decide (j = i)) as [->|Hne].
      * rewrite list_lookup_alter_eq, Hj in Hi. injection Hi as <-.
        apply fresh_route_listing; [done|]. by apply (Hnew i).
      * rewrite list_lookup_alter_ne in Hi by done. by apply (Hnew i).
  - split.
    + intros i d Hi. destruct (Hold i d Hi) as (d' & Hi' & Hsame).
      exists d'. split; [by apply lookup_app_l_Some|done].
    + intros i d' Hi Hlen.
      apply lookup_app_Some in Hi as [Hi|[_ Hi]]; [by apply (Hnew i)|].
      apply list_lookup_singleton_Some in Hi as [_ <-].
      unfold fresh_route, get.
      rewrite !(dict_lookup_apply_set_notin "full_raw") by key_notin.
      rewrite !(dict_lookup_apply_set_notin "closed_at") by key_notin.
      rewrite !(dict_lookup_apply_set_notin "route_key") by key_notin.
      rewrite (dict_lookup_apply_set_in "is_closed" (VBool false));
        [|key_nodup|binding_in].
      rewrite (dict_lookup_apply_set_in "has_full_details" (VBool false));
        [|key_nodup|binding_in].
      rewrite (dict_lookup_apply_set_in "created_at" (VDate now));
        [|key_nodup|binding_in].
      simpl. repeat split; eauto.
Qed.

Lemma ingested_bulk_write `{PyRuntime} date_str page now ops
    (col0 col : collection) :
  Forall (λ op, ∃ route, route_op date_str page now route = Some op) ops →
  ingested col0 col → ingested col0 (bulk_write ops col).
Proof.
  unfold bulk_write. intros Hops. revert col.
  induction Hops as [|op ops [route Hop] _ IH]; intros col Hcol; [done|].
  simpl. apply IH. by eapply ingested_update_one.
Qed.

Lemma keyed_route_op `{PyRuntime} date_str page now route :
  keyed route = bool_decide (is_Some (route_op date_str page now route)).
Proof.
  unfold keyed, route_op.
  by destruct (_extract_route_key route) as [[|c k]|].
Qed.

(** The operations of a page are those of its keyed items, and the count
    is their number. *)
Lemma page_ops_spec `{PyRuntime} date_str page now routes bulk_ops total :
  page_ops date_str page now routes bulk_ops total =
    (bulk_ops ++ omap (route_op date_str page now) routes,
     total + Z.of_nat (length (List.filter keyed routes))).
Proof.
  revert bulk_ops total.
  induction routes as [|route routes IH]; intros bulk_ops total.
  - simpl. rewrite app_nil_r. f_equal. lia.
  - cbn [page_ops omap list_omap List.filter].
    rewrite (keyed_route_op date_str page now route).
    destruct (route_op date_str page now route) as [op|]; rewrite IH; [|done].
    rewrite bool_decide_eq_true_2 by eauto.
    rewrite <- app_assoc. cbn [length]. f_equal. lia.
Qed.

Lemma omap_route_op_Forall `{PyRuntime} date_str page now routes :
  Forall (λ op, ∃ route, route_op date_str page now route = Some op)
    (omap (route_op date_str page now) routes).
Proof.
  apply Forall_forall. intros op (route & _ & Hop)%list_elem_of_omap. eauto.
Qed.

Lemma ingested_page `{PyRuntime} fetch (col0 col : collection)
    date_str page now :
  ingested col0 col →
  ingested col0 (_upsert_routes_for_page fetch col date_str page now).1.
Proof.
  intros Hcol. unfold _upsert_routes_for_page.
  destruct (fetch date_str page) as [[|r routes_page]|]; [done| |done].
  rewrite page_ops_spec. rewrite app_nil_l.
  pose proof (omap_route_op_Forall date_str page now (r :: routes_page))
    as Hops.
  destruct (omap _ (r :: routes_page)) as [|op ops]; [done|].
  cbn [fst]. by eapply ingested_bulk_write.
Qed.

Lemma ingested_scan `{PyRuntime} fetch fuel (col0 col : collection)
    date_str page clock :
  ingested col0 col →
  ingested col0 (scan fetch fuel col date_str page clock).1.
Proof.
  revert col page. induction fuel as [|fuel IH]; intros col page Hcol; simpl;
    [done|].
  pose proof (ingested_page fetch col0 col date_str page (clock page) Hcol)
    as Hp.
  destruct (_upsert_routes_for_page _ _ _ _ _) as [col' [count|e]]; [|done].
  destruct (count =? 0); [done|]. by apply IH.
Qed.

Lemma ingested_run `{PyRuntime} fetch fuel (routes_col : collection)
    date_str specific_page clock :
  ingested routes_col
    (get_routes.run fetch fuel routes_col date_str specific_page clock).1.
Proof.
  unfold get_routes.run. destruct specific_page as [page|].
  - pose proof (ingested_page fetch routes_col routes_col date_str page
                  (clock page) (ingested_refl _)) as Hp.
    by destruct (_upsert_routes_for_page _ _ _ _ _) as [col' [count|e]].
  - apply ingested_scan, ingested_refl.
Qed.

(** Whatever the listing holds and however the run ends, the ingestion
    keeps every stored route at its place and changes nothing of it but
    [date], [page], [minified_raw] and [last_refreshed_at]: the key, the
    creation date, the details and the closure of a route are never
    rewritten by a listing. *)
Theorem ingestion_rewrites_listing_fields_only `{PyRuntime} fetch fuel
    (routes_col : collection) date_str specific_page clock i (d : dict) :
  routes_col !! i = Some d →
  ∃ d', (get_routes.run fetch fuel routes_col date_str specific_page clock).1
          !! i = Some d' ∧
    ∀ k, k ∉ ["date"; "page"; "minified_raw"; "last_refreshed_at"] →
         dict_lookup k d' = dict_lookup k d.
Proof.
  intros Hi.
  destruct (ingested_run fetch fuel routes_col date_str specific_page clock)
    as [Hold _].
  exact (Hold i d Hi).
Qed.

(** The listing names R1 again: its creation date and its closure date are
    those it had. *)
Lemma ingestion_rewrites_listing_fields_only_witness :
  ∃ d', (@get_routes.run plain_repr (λ _ _, Ok [listing_item_R1]) 1
           [closed_route_R1] "2025-11-27" (Some 4) (λ _, 3000)).1 !! 0%nat
          = Some d' ∧
    dict_lookup "created_at" d' = Some (VDate 1000) ∧
    dict_lookup "closed_at" d' = Some (VDate 2000).
Proof.
  destruct (@ingestion_rewrites_listing_fields_only plain_repr
              (λ _ _, Ok [listing_item_R1]) 1 [closed_route_R1] "2025-11-27"
              (Some 4) (λ _, 3000) 0 _ eq_refl) as (d' & Hl & Hsame).
  exists d'. split; [exact Hl|].
  split; rewrite Hsame; try reflexivity; key_notin.
Defined.

(** Every route that the ingestion adds is open: it has
    [is_closed = False] and [has_full_details = False], no [full_raw] and
    no [closed_at], a creation date, and a key that is a text and is not
    empty; and this is still so at the end of the run, whatever the later
    pages did to it. *)
Theorem ingestion_adds_open_routes `{PyRuntime} fetch fuel
    (routes_col : collection) date_str specific_page clock i (d' : dict) :
  (get_routes.run fetch fuel routes_col date_str specific_page clock).1 !! i
    = Some d' →
  (length routes_col ≤ i)%nat →
  get "is_closed" d' = VBool false ∧ get "has_full_details" d' = VBool false ∧
  dict_lookup "full_raw" d' = None ∧ dict_lookup "closed_at" d' = None ∧
  (∃ t, get "created_at" d' = VDate t) ∧
  ∃ key, get "route_key" d' = VStr key ∧ key ≠ "".
Proof.
  intros Hi Hlen.
  destruct (ingested_run fetch fuel routes_col date_str specific_page clock)
    as [_ Hnew].
  exact (Hnew i d' Hi Hlen).
Qed.

(** The scan of the sample listing, on an empty collection, adds R8. *)
Lemma ingestion_adds_open_routes_witness :
  get "is_closed"
    <$> (@get_routes.run plain_repr sample_listing 5 [] "2025-11-26" None
           (λ _, 3000)).1 !! 0%nat = Some (VBool false).
Proof.
  destruct (@get_routes.run plain_repr sample_listing 5 [] "2025-11-26" None
              (λ _, 3000)).1 as [|d' col'] eqn:Hrun; [done|].
  destruct (@ingestion_adds_open_routes plain_repr sample_listing 5 []
              "2025-11-26" None (λ _, 3000) 0 d') as (Hc & _).
  - by rewrite Hrun.
  - simpl. lia.
  - simpl. by rewrite Hc.
Defined.







(** ** What the extractor stores *)

Lemma get_dispatches_run_ctx `{PyRuntime} (routes_col disp_col : collection)
    route_key now i route_doc meta items :
  find_one [("route_key", CEq (VStr route_key))] routes_col
    = Some (i, route_doc) →
  get_dispatches._extract_route_meta
    (get_dispatches._get_route_payload route_doc) = Ok meta →
  get_dispatches._extract_dispatch_list
    (get_dispatches._get_route_payload route_doc) = Ok items →
  Forall (λ v, ∃ d, v = VDict d) items →
  get_dispatches.run routes_col disp_col route_key now =
    (bulk_write (dispatch_ops (ctx_of i route_doc route_key meta now) items)
       disp_col, Ok tt).
Proof.
  intros Hf Hmeta Hlist Hitems. unfold get_dispatches.run.
  rewrite Hf, Hmeta, Hlist.
  destruct (for_each_step_flushes (ctx_of i route_doc route_key meta now)
              items disp_col [] Hitems) as (col' & pend' & Hfe & Hw).
  unfold ctx_of in Hfe. rewrite Hfe. simpl in Hw. rewrite <- Hw.
  by destruct pend'.
Qed.

Lemma dispatch_ops_app `{PyRuntime} c (l1 l2 : list value) :
  dispatch_ops c (l1 ++ l2) = dispatch_ops c l1 ++ dispatch_ops c l2.
Proof. unfold dispatch_ops. apply omap_app. Qed.

(** An upsert of the extractor leaves a document that carries the key and
    every field of the operation. *)
Lemma upsert_carries c k d (col : collection) :
  dispatch_keys_wf col →
  ∃ j x, update_one (get_dispatches.dispatch_op c k d) col !! j = Some x ∧
    dict_lookup "dispatch_key" x = Some (VStr k) ∧
    ∀ f v, (f, v) ∈ get_dispatches.doc_meta c d → get f x = v.
Proof.
  intros Hwf. unfold update_one, get_dispatches.dispatch_op.
  cbn [uo_filter uo_set uo_setOnInsert uo_upsert filter_fields omap list_omap
       fst snd].
  destruct (find_one _ col) as [[j x0]|] eqn:Hf.
  - apply find_one_Some in Hf as (Hj & Hm & _).
    apply (matches_dispatch_key col) in Hm;
      [|done|apply list_elem_of_lookup; eauto].
    exists j, (apply_set (get_dispatches.doc_meta c d) x0).
    unfold update_by_id. rewrite list_lookup_alter_eq, Hj.
    split; [done|]. split.
    + rewrite dict_lookup_apply_set_notin by key_notin. done.
    + intros f v Hin. apply get_apply_set_in; [key_nodup|done].
  - eexists (length col), _.
    split; [by rewrite lookup_app_r, Nat.sub_diag by lia|]. split.
    + rewrite !dict_lookup_apply_set_notin by key_notin. done.
    + intros f v Hin.
      assert (f ∈ (get_dispatches.doc_meta c d).*1) as Hf'
        by (apply list_elem_of_fmap; by exists (f, v)).
      rewrite get_apply_set_notin.
      * apply get_apply_set_in; [key_nodup|done].
      * simpl in Hf'. simpl.
        intros [->|[->|[]%elem_of_nil]%elem_of_cons]%elem_of_cons;
          revert Hf'; key_notin.
Qed.

(** An upsert under another key leaves the document of a key alone. *)
Lemma upsert_other_key c k' d' (col : collection) j x k :
  k ≠ k' → col !! j = Some x →
  dict_lookup "dispatch_key" x = Some (VStr k) →
  update_one (get_dispatches.dispatch_op c k' d') col !! j = Some x.
Proof.
  intros Hne Hj Hk. unfold update_one, get_dispatches.dispatch_op.
  cbn [uo_filter uo_set uo_setOnInsert uo_upsert].
  destruct (find_one _ col) as [[j' x']|] eqn:Hf.
  - apply find_one_Some in Hf as (Hj' & Hm & _).
    assert (j' ≠ j) as Hjj.
    { intros ->. rewrite Hj in Hj'. injection Hj' as <-.
      unfold matches in Hm. simpl in Hm. rewrite Hk, andb_true_r in Hm.
      apply field_eq_str in Hm. done. }
    unfold update_by_id. by rewrite list_lookup_alter_ne.
  - by apply lookup_app_l_Some.
Qed.

Lemma bulk_other_keys c ops keys (col : collection) j x k :
  Forall2 (λ op k', ∃ d', op = get_dispatches.dispatch_op c k' d') ops keys →
  k ∉ keys → col !! j = Some x →
  dict_lookup "dispatch_key" x = Some (VStr k) →
  bulk_write ops col !! j = Some x.
Proof.
  unfold bulk_write. intros Hops. revert col.
  induction Hops as [|op k' ops keys [d' ->] _ IH]; intros col Hk Hj Hx;
    [done|].
  simpl. apply IH; [|apply (upsert_other_key c k' d' col j x k)|]; try done.
  - intros ?. apply Hk. by right.
  - intros ->. apply Hk. by left.
Qed.

(** Every field of the operation of an item, by name. *)
Lemma doc_meta_fields c (d x : dict) :
  (∀ f v, (f, v) ∈ get_dispatches.doc_meta c d → get f x = v) →
  get "dispatch_raw" x = VDict d ∧
  (∀ f, f ∈ flattened_fields → get f x = get f d) ∧
  get "route_key" x = VStr (get_dispatches.route_key c) ∧
  get "route_id" x = get_dispatches.route_id c ∧
  get "route_page" x = get_dispatches.route_page c ∧
  get "route_dispatch_date" x = get_dispatches.route_dispatch_date c ∧
  get "truck_identifier" x = get_dispatches.truck_identifier c ∧
  get "last_refreshed_at" x = VDate (get_dispatches.now_utc c).
Proof.
  intros Hcarry.
  assert (∀ f v, (f, v) ∈ get_dispatches.doc_meta c d → get f x = v) as Hc
    by done.
  unfold get_dispatches.doc_meta, get_dispatches.flattened in Hc.
  cbn [app] in Hc.
  split; [apply Hc; binding_in|].
  split.
  { intros f Hf. apply Hc. unfold flattened_fields in Hf.
    repeat (apply elem_of_cons in Hf as [->|Hf]; [binding_in|]).
    by apply elem_of_nil in Hf. }
  repeat split; apply Hc; binding_in.
Qed.

(** The last item listed with a key. *)
Lemma last_with_key `{PyRuntime} (items : list value) k :
  k ∈ dispatch_keys items →
  ∃ pre d post, items = pre ++ VDict d :: post ∧
    dispatch_key_of (VDict d) = Some k ∧ k ∉ dispatch_keys post.
Proof.
  induction items as [|v items IH]; [by intros []%not_elem_of_nil|].
  intros Hk. destruct (decide (k ∈ dispatch_keys items)) as [Hin|Hnot].
  - destruct (IH Hin) as (pre & d & post & -> & Hd & Hpost).
    by exists (v :: pre), d, post.
  - unfold dispatch_keys in Hk. cbn [omap list_omap] in Hk.
    destruct (dispatch_key_of v) as [k'|] eqn:Hv; [|done].
    apply elem_of_cons in Hk as [->|Hk]; [|done].
    destruct v as [| | | | | | | |d]; try done.
    by exists [], d, items.
Qed.

(** The upserts of a payload leave, under a key, a document that carries
    the fields of the last item listed with that key. *)
Lemma bulk_stores_last_item `{PyRuntime} c (pre post : list value)
    (d : dict) k (col : collection) :
  dispatch_keys_wf col →
  dispatch_key_of (VDict d) = Some k → k ∉ dispatch_keys post →
  ∃ j x, bulk_write (dispatch_ops c (pre ++ VDict d :: post)) col !! j
           = Some x ∧
    dict_lookup "dispatch_key" x = Some (VStr k) ∧
    ∀ f v, (f, v) ∈ get_dispatches.doc_meta c d → get f x = v.
Proof.
  intros Hwf Hk Hpost.
  rewrite dispatch_ops_app, dispatch_ops_cons, Hk.
  rewrite bulk_write_app. cbn [bulk_write fold_left].
  fold (bulk_write (dispatch_ops c post)
          (update_one (get_dispatches.dispatch_op c k d)
             (bulk_write (dispatch_ops c pre) col))).
  pose proof (refreshed_bulk c _ _ col (dispatch_ops_keys c pre) Hwf)
    as (Hwf1 & _).
  destruct (upsert_carries c k d _ Hwf1) as (j & x & Hj & Hkx & Hcarry).
  exists j, x. split; [|done].
  by apply (bulk_other_keys c _ _ _ j x k (dispatch_ops_keys c post)).
Qed.

(** For a route whose payload lists objects, over a dispatches collection
    that keeps one record per key: the run ends normally, and the one
    document stored under a key of the payload mirrors the last item
    listed with that key. It holds that item as [dispatch_raw] and its
    status fields, and it carries the key and the [_id] of the route, the
    page and the date under which the route is stored (the dispatch date
    of the payload when it is truthy), the truck of the payload and the
    time of the run. *)
Theorem extractor_stores_the_last_item `{PyRuntime}
    (routes_col disp_col : collection) route_key now i route_doc meta
    (pre post : list value) (d : dict) k :
  find_one [("route_key", CEq (VStr route_key))] routes_col
    = Some (i, route_doc) →
  get_dispatches._extract_route_meta
    (get_dispatches._get_route_payload route_doc) = Ok meta →
  get_dispatches._extract_dispatch_list
    (get_dispatches._get_route_payload route_doc)
    = Ok (pre ++ VDict d :: post) →
  Forall (λ v, ∃ d, v = VDict d) (pre ++ VDict d :: post) →
  dispatch_keys_wf disp_col →
  dispatch_key_of (VDict d) = Some k →
  k ∉ dispatch_keys post →
  ∃ col' j x,
    get_dispatches.run routes_col disp_col route_key now = (col', Ok tt) ∧
    col' !! j = Some x ∧ get "dispatch_key" x = VStr k ∧
    (∀ j' x', col' !! j' = Some x' → get "dispatch_key" x' = VStr k →
              j' = j) ∧
    get "dispatch_raw" x = VDict d ∧
    (∀ f, f ∈ flattened_fields → get f x = get f d) ∧
    get "route_key" x = VStr route_key ∧ get "route_id" x = VOid i ∧
    get "route_page" x = get "page" route_doc ∧
    get "route_dispatch_date" x
      = py_or (get "dispatch_date" meta) (get "date" route_doc) ∧
    get "truck_identifier" x = get "truck_identifier" meta ∧
    get "last_refreshed_at" x = VDate now.
Proof.
  intros Hf Hmeta Hlist Hitems Hwf Hk Hpost.
  set (c := ctx_of i route_doc route_key meta now).
  rewrite (get_dispatches_run_ctx routes_col disp_col route_key now i
             route_doc meta _ Hf Hmeta Hlist Hitems). fold c.
  pose proof (refreshed_bulk c _ _ disp_col
                (dispatch_ops_keys c (pre ++ VDict d :: post)) Hwf)
    as (Hwf' & _).
  destruct (bulk_stores_last_item c pre post d k disp_col Hwf Hk Hpost)
    as (j & x & Hj & Hkx & Hcarry).
  eexists _, j, x. split; [reflexivity|]. split; [exact Hj|].
  split; [unfold get; by rewrite Hkx|].
  split.
  { intros j' x' Hl Hk'. destruct Hwf' as [_ Hu].
    apply (Hu j' j x' x (VStr k)); [done|done|by apply get_str_lookup|done]. }
  destruct (doc_meta_fields c d x Hcarry)
    as (H1 & H2 & H3 & H4 & H5 & H6 & H7 & H8).
  done.
Qed.

(** R3 lists 502 twice: the stored dispatch holds the second item, with
    its sub-status code, and the truck of the route. *)
Lemma extractor_stores_the_last_item_witness :
  ∃ col' j x,
    @get_dispatches.run plain_repr [route_R3] [] "R3" 100 = (col', Ok tt) ∧
    col' !! j = Some x ∧ get "dispatch_key" x = VStr "502" ∧
    get "substatus_code" x = VStr "7" ∧
    get "truck_identifier" x = VStr "TRK-9".
Proof.
  destruct (@extractor_stores_the_last_item plain_repr [route_R3] []
              "R3" 100 0 route_R3
              [("dispatch_date", VNone); ("truck_identifier", VStr "TRK-9")]
              [VDict [("identifier", VInt 501); ("status", VStr "ok")];
               VDict [("identifier", VStr "502")];
               VDict [("status", VStr "no identifier")]]
              []
              [("identifier", VStr "502"); ("substatus_code", VStr "7")]
              "502" eq_refl eq_refl eq_refl)
    as (col' & j & x & Hr & Hj & Hk & _ & _ & Hflat & _ & _ & _ & _ & Ht & _).
  - repeat constructor; by eexists.
  - split.
    + intros d v []%not_elem_of_nil.
    + intros j1 j2 d1 d2 v Hj1. by rewrite lookup_nil in Hj1.
  - reflexivity.
  - apply not_elem_of_nil.
  - exists col', j, x. do 3 (split; [done|]). split; [|exact Ht].
    rewrite (Hflat "substatus_code"); [done|]. key_in.
Defined.

(** The loop on a list that is too short for a flush: nothing is written,
    and the loop raises at the first item that is not an object. *)
Lemma step_loop_without_flush `{PyRuntime} c (items : list value)
    (col : collection) (pend : list UpdateOne) :
  (length pend + length items < 500)%nat →
  ∃ pend',
    for_each (get_dispatches.step c) items (col, pend) =
      ((col, pend'),
       if forallb (λ v, match v with VDict _ => true | _ => false end) items
       then Ok tt else Raise AttributeError) ∧
    (length pend' ≤ length pend + length items)%nat.
Proof.
  revert pend. induction items as [|v items IH]; intros pend Hlen.
  - exists pend. split; [done|]. simpl. lia.
  - cbn [for_each forallb]. simpl in Hlen.
    destruct v as [| | | | | | | |d];
      try (exists pend; split; [done|simpl; lia]).
    unfold get_dispatches.step at 1.
    unfold get_dispatches._extract_dispatch_key. cbn [attr_get res_bind].
    destruct (is_None (get "identifier" d)).
    { destruct (IH pend) as (pend' & -> & Hp); [lia|].
      exists pend'. split; [done|simpl; lia]. }
    destruct (py_str (get "identifier" d)) as [|ch key].
    { destruct (IH pend) as (pend' & -> & Hp); [lia|].
      exists pend'. split; [done|simpl; lia]. }
    cbn [fst snd]. rewrite bool_decide_eq_false_2
      by (rewrite length_app; simpl; lia).
    destruct (IH (pend ++ [get_dispatches.dispatch_op c (String ch key) d]))
      as (pend' & -> & Hp); [rewrite length_app; simpl; lia|].
    exists pend'. split; [done|]. rewrite length_app in Hp. simpl in *. lia.
Qed.

(** A payload of fewer than 500 items, one of which is not an object, is
    not stored at all: the run raises [AttributeError] and the dispatches
    collection is as it was, the items listed before the bad one
    included. *)
Theorem extractor_stores_nothing_on_a_bad_item `{PyRuntime}
    (routes_col disp_col : collection) route_key now i route_doc meta
    (items : list value) (bad : value) :
  find_one [("route_key", CEq (VStr route_key))] routes_col
    = Some (i, route_doc) →
  get_dispatches._extract_route_meta
    (get_dispatches._get_route_payload route_doc) = Ok meta →
  get_dispatches._extract_dispatch_list
    (get_dispatches._get_route_payload route_doc) = Ok items →
  (length items < 500)%nat →
  bad ∈ items → (∀ d, bad ≠ VDict d) →
  get_dispatches.run routes_col disp_col route_key now
  = (disp_col, Raise AttributeError).
Proof.
  intros Hf Hmeta Hlist Hlen Hbad Hnot. unfold get_dispatches.run.
  rewrite Hf, Hmeta, Hlist.
  match goal with |- context [for_each (get_dispatches.step ?c) items _] =>
    destruct (step_loop_without_flush c items disp_col []) as (pend' & -> & _)
  end; [simpl; lia|].
  assert (forallb (λ v, match v with VDict _ => true | _ => false end) items
          = false) as ->; [|by destruct pend'].
  apply not_true_iff_false. rewrite forallb_forall. intros Hall.
  specialize (Hall bad). rewrite <- list_elem_of_In in Hall.
  specialize (Hall Hbad). destruct bad; try done. by destruct (Hnot d).
Qed.

(** The payload of R10 lists D1 and then a text: D1 is not stored. *)
Lemma extractor_stores_nothing_on_a_bad_item_witness :
  @get_dispatches.run plain_repr [route_bad_item] [] "R10" 100
  = ([], Raise AttributeError).
Proof.
  apply (@extractor_stores_nothing_on_a_bad_item plain_repr [route_bad_item]
           [] "R10" 100 0 route_bad_item
           [("dispatch_date", VNone); ("truck_identifier", VNone)]
           [VDict [("identifier", VStr "D1")]; VStr "D2"] (VStr "D2")
           eq_refl eq_refl eq_refl).
  - simpl. lia.
  - apply list_elem_of_further, list_elem_of_here.
  - done.
Defined.

(** ** From the extraction to the closure *)

Lemma substatus_run_lookup `{PyRuntime} (sub_col col : collection) i x :
  (backfill_substatus.run sub_col col).2 = Ok tt →
  col !! i = Some x →
  (backfill_substatus.run sub_col col).1 !! i = Some (rederived sub_col x).
Proof.
  intros Hok%substatus_run_ok Hi.
  rewrite (substatus_run_all sub_col col Hok). cbn [fst].
  by rewrite list_lookup_fmap, Hi.
Qed.

Lemma substatus_keeps_key `{PyRuntime} (sub_col : collection) (x : dict) :
  dict_lookup "dispatch_key" (rederived sub_col x)
  = dict_lookup "dispatch_key" x.
Proof.
  unfold rederived.
  destruct (substatus_fields_shape sub_col x) as [->|(eb & eg & ci & ->)];
    [done|].
  apply dict_lookup_apply_set_notin. key_notin.
Qed.

Lemma substatus_writes_cierre `{PyRuntime} (sub_col : collection) (x : dict) :
  substatus_fields sub_col x ≠ [] →
  get "cierre" (rederived sub_col x) = get "cierre" (substatus_fields sub_col x).
Proof.
  unfold rederived.
  destruct (substatus_fields_shape sub_col x) as [->|(eb & eg & ci & ->)];
    [done|]. intros _.
  by apply get_apply_set_in; [key_nodup|binding_in].
Qed.

(** The sub-status job keeps the invariant of the dispatches, whatever
    its end. *)
Lemma substatus_keeps_wf `{PyRuntime} (sub_col col : collection) :
  dispatch_keys_wf col →
  dispatch_keys_wf (backfill_substatus.run sub_col col).1.
Proof.
  intros [Hstr Huniq].
  assert (∀ i x', (backfill_substatus.run sub_col col).1 !! i = Some x' →
            ∃ x, col !! i = Some x ∧
              dict_lookup "dispatch_key" x' = dict_lookup "dispatch_key" x)
    as Hback.
  { intros i x' (x & Hi & [->| ->])%substatus_run_any; exists x;
      [done|by rewrite substatus_keeps_key]. }
  split.
  - intros x' v [i Hi]%list_elem_of_lookup Hv.
    apply Hback in Hi as (x & Hi & Hk). rewrite Hk in Hv.
    apply (Hstr x v); [apply list_elem_of_lookup; eauto|done].
  - intros i j x1 x2 v Hi Hj Hv1 Hv2.
    apply Hback in Hi as (y1 & Hi & Hk1).
    apply Hback in Hj as (y2 & Hj & Hk2).
    rewrite Hk1 in Hv1. rewrite Hk2 in Hv2.
    by apply (Huniq i j y1 y2 v).
Qed.

(** The codes of the dispatches after an upsert of the extractor: those
    that were stored and those of the items. *)
Lemma upsert_code c k d (col : collection) x :
  x ∈ update_one (get_dispatches.dispatch_op c k d) col →
  get "substatus_code" x = get "substatus_code" d ∨ x ∈ col.
Proof.
  unfold update_one, get_dispatches.dispatch_op.
  cbn [uo_filter uo_set uo_setOnInsert uo_upsert filter_fields omap list_omap
       fst snd].
  assert (∀ y, get "substatus_code"
                 (apply_set (get_dispatches.doc_meta c d) y)
               = get "substatus_code" d) as Hset.
  { intros y. apply get_apply_set_in; [key_nodup|binding_in]. }
  destruct (find_one _ col) as [[j x0]|] eqn:Hf.
  - intros [i Hi]%list_elem_of_lookup. unfold update_by_id in Hi.
    destruct (decide (j = i)) as [->|Hne].
    + rewrite list_lookup_alter_eq in Hi.
      destruct (col !! i) as [y|]; [|done]. injection Hi as <-. by left.
    + rewrite list_lookup_alter_ne in Hi by done.
      right. apply list_elem_of_lookup; eauto.
  - intros [Hin|Hin%list_elem_of_singleton]%elem_of_app; [by right|].
    left. subst x. rewrite get_apply_set_notin by key_notin. apply Hset.
Qed.

Lemma bulk_codes `{PyRuntime} c (items : list value) (col : collection)
    (P : value → Prop) :
  (∀ x, x ∈ col → P (get "substatus_code" x)) →
  (∀ d, VDict d ∈ items → P (get "substatus_code" d)) →
  ∀ x, x ∈ bulk_write (dispatch_ops c items) col →
       P (get "substatus_code" x).
Proof.
  revert col. induction items as [|v items IH]; intros col Hcol Hitems;
    [done|].
  assert (∀ d, VDict d ∈ items → P (get "substatus_code" d)) as Hitems'
    by (intros d Hd; by apply Hitems, list_elem_of_further).
  unfold dispatch_ops. cbn [omap list_omap].
  destruct v as [| | | | | | | |d]; try (by apply IH).
  destruct (dispatch_key_of (VDict d)) as [k|]; [|by apply IH].
  unfold bulk_write. cbn [fold_left]. apply IH; [|done].
  intros x [->|Hx]%upsert_code; [|by apply Hcol].
  apply Hitems, list_elem_of_here.
Qed.

(** The decision of the evaluator on an open route. *)
Lemma closure_run_decides `{PyRuntime} (routes_col disp_col : collection)
    route_key now i route_doc ids :
  find_one [("route_key", CEq (VStr route_key))] routes_col
    = Some (i, route_doc) →
  get "is_closed" route_doc ≠ VBool true →
  closure._extract_dispatch_ids (closure._get_route_payload route_doc)
    = Ok ids →
  dispatch_keys_wf disp_col →
  ((∀ id, id ∈ ids → closed_record disp_col id) →
   closure.run routes_col disp_col route_key now
   = Ok (closure.mark_closed now i routes_col)) ∧
  (∀ id, id ∈ ids → ¬ closed_record disp_col id →
   closure.run routes_col disp_col route_key now = Ok routes_col).
Proof.
  intros Hf Hopen Hids Hwf.
  assert (closure.run routes_col disp_col route_key now =
          Ok (if (closure.check
                    (closure.found_of
                       (find [("dispatch_key", CIn (VStr <$> ids))] disp_col))
                    ids).1
              then closure.mark_closed now i routes_col else routes_col))
    as Hrun.
  { unfold closure.run. rewrite Hf.
    assert (is_True (get "is_closed" route_doc) = false) as ->.
    { destruct (get "is_closed" route_doc) as [|[]| | | | | | |]; done. }
    rewrite Hids. simpl. destruct ids as [|id ids]; [done|].
    by destruct (closure.check _ _) as [[] ?]. }
  rewrite Hrun. split.
  - intros Hall.
    assert ((closure.check
               (closure.found_of
                  (find [("dispatch_key", CIn (VStr <$> ids))] disp_col))
               ids).1 = true) as ->; [|done].
    apply check_all_closed. intros id Hid.
    by apply (found_of_wf disp_col ids id), Hall.
  - intros id Hid Hnot.
    destruct (closure.check _ _).1 eqn:Hc; [|done].
    destruct Hnot. apply (found_of_wf disp_col ids id); [done..|].
    by apply (proj1 (check_all_closed _ _) Hc).
Qed.

Lemma dispatch_key_of_item `{PyRuntime} (d : dict) k :
  dispatch_key_of (VDict d) = Some k ↔
  is_None (get "identifier" d) = false ∧ py_str (get "identifier" d) = k ∧
  k ≠ "".
Proof.
  unfold dispatch_key_of. destruct (is_None (get "identifier" d)).
  - split; [done|]. by intros [? _].
  - destruct (py_str (get "identifier" d)) as [|ch key]; split.
    + done.
    + by intros (_ & <- & ?).
    + by intros [= <-].
    + by intros (_ & <- & _).
Qed.

Lemma dispatch_keys_not_empty `{PyRuntime} (items : list value) k :
  k ∈ dispatch_keys items → k ≠ "".
Proof.
  intros (pre & d & post & _ & Hk & _)%last_with_key.
  by apply dispatch_key_of_item in Hk as (_ & _ & ?).
Qed.

Lemma extract_dispatch_list_items `{PyRuntime} (payload : dict)
    (items : list dict) :
  get "dispatches" payload = VList (VDict <$> items) →
  get_dispatches._extract_dispatch_list (VDict payload)
  = Ok (VDict <$> items).
Proof.
  intros Hd. unfold get_dispatches._extract_dispatch_list. simpl.
  by rewrite Hd.
Qed.

Lemma items_are_objects (items : list dict) :
  Forall (λ v, ∃ d, v = VDict d) (VDict <$> items).
Proof. apply Forall_fmap, Forall_forall. intros d _. by exists d. Qed.

Lemma cierre_True_parses `{PyRuntime} (sub_col : collection) (d : dict) :
  get "cierre" (substatus_fields sub_col d) = VBool true →
  code_parses d ∧ substatus_fields sub_col d ≠ [].
Proof.
  intros Hc. split.
  - apply (update_fields_ok sub_col). unfold substatus_fields in Hc.
    destruct (update_fields sub_col d) as [fields|e]; [eauto|done].
  - intros E. by rewrite E in Hc.
Qed.

(** The three jobs in a row on an open route whose payload lists objects,
    none of them with an identifier that is the empty text, over
    dispatches that keep one record per key and whose codes can be looked
    up: when the sub-status mapping gives [cierre = True] for the code of
    every listed item, the extractor and the sub-status job end normally
    and the evaluator then closes the route, at the time of its run. *)
Theorem extraction_substatus_closure_closes_route `{PyRuntime}
    (routes_col disp_col sub_col : collection) route_key t1 t2 i route_doc
    (payload meta : dict) (items : list dict) :
  find_one [("route_key", CEq (VStr route_key))] routes_col
    = Some (i, route_doc) →
  get "is_closed" route_doc ≠ VBool true →
  get_dispatches._get_route_payload route_doc = VDict payload →
  get "dispatches" payload = VList (VDict <$> items) →
  get_dispatches._extract_route_meta (VDict payload) = Ok meta →
  dispatch_keys_wf disp_col →
  Forall code_parses disp_col →
  (∀ d, d ∈ items → get "identifier" d ≠ VNone →
        py_str (get "identifier" d) ≠ "") →
  (∀ d, d ∈ items → get "cierre" (substatus_fields sub_col d) = VBool true) →
  ∃ col1 col2 routes' r',
    get_dispatches.run routes_col disp_col route_key t1 = (col1, Ok tt) ∧
    backfill_substatus.run sub_col col1 = (col2, Ok tt) ∧
    closure.run routes_col col2 route_key t2 = Ok routes' ∧
    routes' !! i = Some r' ∧
    get "is_closed" r' = VBool true ∧ get "closed_at" r' = VDate t2.
Proof.
  intros Hf Hopen Hpay Hdisp Hmeta Hwf Hcodes Hnonempty Hcloses.
  pose proof (extract_dispatch_list_items payload items Hdisp) as Hlist.
  rewrite <- Hpay in Hmeta, Hlist.
  set (c := ctx_of i route_doc route_key meta t1).
  pose proof (get_dispatches_run_ctx routes_col disp_col route_key t1 i
                route_doc meta _ Hf Hmeta Hlist (items_are_objects items))
    as Hrun1. fold c in Hrun1.
  set (col1 := bulk_write (dispatch_ops c (VDict <$> items)) disp_col) in *.
  pose proof (refreshed_bulk c _ _ disp_col
                (dispatch_ops_keys c (VDict <$> items)) Hwf) as (Hwf1 & _).
  fold col1 in Hwf1.
  set (col2 := (backfill_substatus.run sub_col col1).1).
  pose proof (substatus_keeps_wf sub_col col1 Hwf1) as Hwf2. fold col2 in Hwf2.
  pose proof (find_one_Some _ _ _ _ Hf) as (Hi & _ & _).
  destruct (mark_closed_lookup t2 i routes_col route_doc Hi)
    as (r' & Hr' & Hc & Ha & _).
  assert ((backfill_substatus.run sub_col col1).2 = Ok tt) as Hok.
  { apply substatus_run_ok, Forall_forall. intros x Hx.
    refine (bulk_codes c (VDict <$> items) disp_col
              (λ v, ∀ norm, _normalize_code v = Some norm →
                      isdigit norm = true →
                      ∃ n, py_int norm = Ok n ∧ bson_int n = true)
              _ _ x Hx).
    - intros y Hy. rewrite Forall_forall in Hcodes. by apply Hcodes.
    - intros d (d' & [= ->] & Hd)%list_elem_of_fmap.
      by apply (cierre_True_parses sub_col d'), Hcloses. }
  exists col1, col2, (closure.mark_closed t2 i routes_col), r'.
  split; [done|]. split; [by rewrite <- Hok; destruct (backfill_substatus.run _ _)|].
  split; [|done].
  assert (closure._extract_dispatch_ids (closure._get_route_payload route_doc)
          = Ok (omap (λ d, if is_None (get "identifier" d) then None
                           else Some (py_str (get "identifier" d))) items))
    as Hids.
  { change (closure._get_route_payload route_doc)
      with (get_dispatches._get_route_payload route_doc).
    rewrite Hpay. by apply extract_dispatch_ids_spec. }
  apply (closure_run_decides routes_col col2 route_key t2 i route_doc _
           Hf Hopen Hids Hwf2).
  intros id (d0 & Hd0 & Hid)%list_elem_of_omap.
  destruct (is_None (get "identifier" d0)) eqn:Hn; [done|].
  injection Hid as Hid.
  assert (id ∈ dispatch_keys (VDict <$> items)) as Hk.
  { unfold dispatch_keys. apply list_elem_of_omap. exists (VDict d0).
    split; [by apply list_elem_of_fmap_2|].
    apply dispatch_key_of_item. split; [done|]. split; [done|].
    rewrite <- Hid. apply Hnonempty; [done|].
    by destruct (get "identifier" d0). }
  apply last_with_key in Hk as (pre & d & post & Hsplit & Hkd & Hpost).
  assert (d ∈ items) as Hd.
  { assert (VDict d ∈ VDict <$> items) as Hin
      by (rewrite Hsplit; apply elem_of_app; right; apply list_elem_of_here).
    apply list_elem_of_fmap in Hin as (d' & [= ->] & ?). done. }
  destruct (bulk_stores_last_item c pre post d id disp_col Hwf Hkd Hpost)
    as (j & x & Hj & Hkx & Hcarry).
  rewrite <- Hsplit in Hj. fold col1 in Hj.
  destruct (doc_meta_fields c d x Hcarry) as (_ & Hflat & _).
  assert (substatus_fields sub_col x = substatus_fields sub_col d) as Hx.
  { apply substatus_fields_code, Hflat. key_in. }
  exists (rederived sub_col x).
  split; [|split].
  - apply list_elem_of_lookup. exists j. by apply substatus_run_lookup.
  - unfold get. by rewrite substatus_keeps_key, Hkx.
  - rewrite substatus_writes_cierre; rewrite Hx.
    + by apply Hcloses.
    + by apply (cierre_True_parses sub_col d), Hcloses.
Qed.

(** R11 lists D1 and 7, both with the code 1, which the reference
    collection closes: after the three jobs the route is closed. *)
Lemma extraction_substatus_closure_closes_route_witness :
  ∃ col1 col2 routes' r',
    @get_dispatches.run plain_repr [route_R11] [] "R11" 100 = (col1, Ok tt) ∧
    @backfill_substatus.run plain_repr sample_substatus col1
      = (col2, Ok tt) ∧
    @closure.run plain_repr [route_R11] col2 "R11" 200 = Ok routes' ∧
    routes' !! 0%nat = Some r' ∧
    get "is_closed" r' = VBool true ∧ get "closed_at" r' = VDate 200.
Proof.
  apply (@extraction_substatus_closure_closes_route plain_repr [route_R11]
           [] sample_substatus "R11" 100 200 0 route_R11
           [("dispatches",
             VList (VDict <$>
                      [[("identifier", VStr "D1"); ("substatus_code", VStr "1")];
                       [("identifier", VInt 7); ("substatus_code", VInt 1)]]))]
           [("dispatch_date", VNone); ("truck_identifier", VNone)]
           [[("identifier", VStr "D1"); ("substatus_code", VStr "1")];
            [("identifier", VInt 7); ("substatus_code", VInt 1)]]
           eq_refl).
  - vm_compute. discriminate.
  - reflexivity.
  - reflexivity.
  - reflexivity.
  - split.
    + intros d v []%not_elem_of_nil.
    + intros j1 j2 d1 d2 v Hj1. by rewrite lookup_nil in Hj1.
  - constructor.
  - intros d [->|[->|[]%elem_of_nil]%elem_of_cons]%elem_of_cons _;
      vm_compute; discriminate.
  - intros d [->|[->|[]%elem_of_nil]%elem_of_cons]%elem_of_cons; reflexivity.
Defined.

(** The extractor stores no dispatch under the empty key. *)
Lemma extractor_adds_no_empty_key `{PyRuntime} c (items : list value)
    (col : collection) :
  dispatch_keys_wf col →
  (∀ x, x ∈ col → get "dispatch_key" x ≠ VStr "") →
  ∀ x, x ∈ bulk_write (dispatch_ops c items) col →
       get "dispatch_key" x ≠ VStr "".
Proof.
  intros Hwf Hcol x [j Hj]%list_elem_of_lookup.
  pose proof (refreshed_bulk c _ _ col (dispatch_ops_keys c items) Hwf)
    as (_ & Hold & Hnew & _).
  destruct (decide (j < length col)%nat) as [Hlt|Hge].
  - destruct (lookup_lt_is_Some_2 col j Hlt) as [x0 Hj0].
    destruct (Hold j x0 Hj0) as (x' & Hj' & (Hid & _) & _).
    assert (x' = x) as -> by congruence.
    rewrite (get_of_lookup _ _ _ Hid). apply Hcol.
    apply list_elem_of_lookup; eauto.
  - destruct (Hnew j x Hj) as ((k & Hk & Hkey) & _); [lia|].
    rewrite Hkey. intros [= ->]. by apply dispatch_keys_not_empty in Hk.
Qed.

(** An item whose identifier is the empty text keeps its route open. The
    evaluator looks for a dispatch stored under the empty key, and the
    extractor skips such an item: over dispatches that keep one record
    per key, none under the empty key, the extractor ends normally, and
    after the sub-status job, however it ends, the evaluator leaves the
    routes as they were, whatever the codes of the items. *)
Theorem empty_identifier_keeps_route_open `{PyRuntime}
    (routes_col disp_col sub_col : collection) route_key t1 t2 i route_doc
    (payload meta : dict) (items : list dict) (d : dict) :
  find_one [("route_key", CEq (VStr route_key))] routes_col
    = Some (i, route_doc) →
  get "is_closed" route_doc ≠ VBool true →
  get_dispatches._get_route_payload route_doc = VDict payload →
  get "dispatches" payload = VList (VDict <$> items) →
  get_dispatches._extract_route_meta (VDict payload) = Ok meta →
  dispatch_keys_wf disp_col →
  (∀ x, x ∈ disp_col → get "dispatch_key" x ≠ VStr "") →
  d ∈ items → get "identifier" d = VStr "" →
  ∃ col1,
    get_dispatches.run routes_col disp_col route_key t1 = (col1, Ok tt) ∧
    closure.run routes_col (backfill_substatus.run sub_col col1).1
      route_key t2 = Ok routes_col.
Proof.
  intros Hf Hopen Hpay Hdisp Hmeta Hwf Hnokey Hd Hempty.
  pose proof (extract_dispatch_list_items payload items Hdisp) as Hlist.
  rewrite <- Hpay in Hmeta, Hlist.
  set (c := ctx_of i route_doc route_key meta t1).
  pose proof (get_dispatches_run_ctx routes_col disp_col route_key t1 i
                route_doc meta _ Hf Hmeta Hlist (items_are_objects items))
    as Hrun1. fold c in Hrun1.
  pose proof (extractor_adds_no_empty_key c (VDict <$> items) disp_col
                Hwf Hnokey) as Hnokey1.
  pose proof (refreshed_bulk c _ _ disp_col
                (dispatch_ops_keys c (VDict <$> items)) Hwf) as (Hwf1 & _).
  set (col1 := bulk_write (dispatch_ops c (VDict <$> items)) disp_col) in *.
  set (col2 := (backfill_substatus.run sub_col col1).1).
  pose proof (substatus_keeps_wf sub_col col1 Hwf1) as Hwf2. fold col2 in Hwf2.
  exists col1. split; [done|]. fold col2.
  assert (closure._extract_dispatch_ids (closure._get_route_payload route_doc)
          = Ok (omap (λ d, if is_None (get "identifier" d) then None
                           else Some (py_str (get "identifier" d))) items))
    as Hids.
  { change (closure._get_route_payload route_doc)
      with (get_dispatches._get_route_payload route_doc).
    rewrite Hpay. by apply extract_dispatch_ids_spec. }
  apply (proj2 (closure_run_decides routes_col col2 route_key t2 i route_doc
                  _ Hf Hopen Hids Hwf2) "").
  - apply list_elem_of_omap. exists d. split; [done|]. by rewrite Hempty.
  - intros (x' & [j Hj]%list_elem_of_lookup & Hk & _).
    apply substatus_run_any in Hj as (x & Hj & Hx').
    apply (Hnokey1 x); [apply list_elem_of_lookup; eauto|].
    destruct Hx' as [->| ->]; [done|].
    unfold get in *. by rewrite substatus_keeps_key in Hk.
Qed.

(** R12 lists D1 and a dispatch whose identifier is the empty text, both
    with a code that closes: the route is left open. *)
Lemma empty_identifier_keeps_route_open_witness :
  ∃ col1,
    @get_dispatches.run plain_repr [route_R12] [] "R12" 100 = (col1, Ok tt) ∧
    @closure.run plain_repr [route_R12]
      (@backfill_substatus.run plain_repr sample_substatus col1).1 "R12" 200
    = Ok [route_R12].
Proof.
  apply (@empty_identifier_keeps_route_open plain_repr [route_R12] []
           sample_substatus "R12" 100 200 0 route_R12
           [("dispatches",
             VList (VDict <$>
                      [[("identifier", VStr "D1"); ("substatus_code", VStr "1")];
                       [("identifier", VStr ""); ("substatus_code", VInt 1)]]))]
           [("dispatch_date", VNone); ("truck_identifier", VNone)]
           [[("identifier", VStr "D1"); ("substatus_code", VStr "1")];
            [("identifier", VStr ""); ("substatus_code", VInt 1)]]
           [("identifier", VStr ""); ("substatus_code", VInt 1)]
           eq_refl).
  - vm_compute. discriminate.
  - reflexivity.
  - reflexivity.
  - reflexivity.
  - split.
    + intros d v []%not_elem_of_nil.
    + intros j1 j2 d1 d2 v Hj1. by rewrite lookup_nil in Hj1.
  - intros x []%not_elem_of_nil.
  - apply list_elem_of_further, list_elem_of_here.
  - reflexivity.
Defined.

(** ** What the fetcher stores *)

Lemma float_eq_refl f : float_eq f f = true.
Proof.
  destruct f as [[]| [] | |[] m e]; try done; unfold float_eq; simpl;
    by rewrite Z.compare_refl, Pos.compare_cont_refl.
Qed.

(** A stored value is equal to itself. *)
Lemma bson_eq_refl : ∀ v, bson_eq v v = true.
Proof.
  fix IH 1. intros [|b|z|f|s|t|n|l|d]; simpl.
  - done.
  - by destruct b.
  - apply Z.eqb_refl.
  - apply float_eq_refl.
  - apply String.eqb_refl.
  - apply Z.eqb_refl.
  - apply Nat.eqb_refl.
  - induction l as [|a l IHl]; [done|]. by rewrite (IH a).
  - induction d as [|[k a] d IHd]; [done|].
    by rewrite String.eqb_refl, (IH a).
Qed.

Lemma dispatch_doc_keys (dispatch : dict) :
  (fetch_dispatches.dispatch_doc dispatch).*1 = fetch_dispatches.copied_fields.
Proof. unfold fetch_dispatches.dispatch_doc. by rewrite <- list_fmap_compose, list_fmap_id. Qed.

Lemma dispatch_doc_binding (dispatch : dict) k :
  k ∈ fetch_dispatches.copied_fields →
  (k, get k dispatch) ∈ fetch_dispatches.dispatch_doc dispatch.
Proof.
  intros Hk. unfold fetch_dispatches.dispatch_doc.
  apply list_elem_of_fmap. by exists k.
Qed.

Lemma copied_fields_NoDup : NoDup fetch_dispatches.copied_fields.
Proof. key_nodup. Qed.

(** The fields of the document that the fetcher inserts. *)
Lemma inserted_fetched_lookup (dispatch : dict) k :
  dict_lookup k
    (apply_set (fetch_dispatches.dispatch_doc dispatch)
       [("identifier", get "identifier" dispatch)])
  = if bool_decide (k ∈ fetch_dispatches.copied_fields)
    then Some (get k dispatch) else None.
Proof.
  case_bool_decide as Hk.
  - apply dict_lookup_apply_set_in.
    + rewrite dispatch_doc_keys. apply copied_fields_NoDup.
    + by apply dispatch_doc_binding.
  - rewrite dict_lookup_apply_set_notin by by rewrite dispatch_doc_keys.
    simpl. destruct (String.eqb_spec k "identifier") as [->|]; [|done].
    destruct Hk. key_in.
Qed.

Lemma save_unknown (dispatch : dict) (col : collection) :
  ¬ known col dispatch →
  fetch_dispatches.save_dispatch_to_mongo dispatch col =
    col ++ [apply_set (fetch_dispatches.dispatch_doc dispatch)
              [("identifier", get "identifier" dispatch)]].
Proof.
  intros Hn. unfold known in Hn.
  unfold fetch_dispatches.save_dispatch_to_mongo, update_one. simpl.
  destruct (find_one _ col) as [?|]; [destruct Hn; eauto|done].
Qed.

Lemma save_noop (dispatch : dict) (col : collection) :
  known col dispatch →
  fetch_dispatches.save_dispatch_to_mongo dispatch col = col.
Proof.
  intros [[j x] Hk]. unfold fetch_dispatches.save_dispatch_to_mongo.
  by rewrite Hk.
Qed.

Lemma known_mono (dispatch : dict) (col added : collection) :
  known col dispatch → known (col ++ added) dispatch.
Proof.
  intros [[j x] (Hj & Hm & _)%find_one_Some]. unfold known.
  apply (find_one_is_Some _ _ x); [|done].
  apply elem_of_app. left. apply list_elem_of_lookup. eauto.
Qed.

Lemma known_decide (dispatch : dict) (col : collection) :
  known col dispatch ∨ ¬ known col dispatch.
Proof.
  unfold known. destruct (find_one _ col); [left; eauto|right].
  by intros [? ?].
Qed.

(** Once saved, a dispatch is known. *)
Lemma save_known (dispatch : dict) (col : collection) :
  known (fetch_dispatches.save_dispatch_to_mongo dispatch col) dispatch.
Proof.
  destruct (known_decide dispatch col) as [Hk|Hn].
  - by rewrite save_noop.
  - rewrite save_unknown by done. unfold known.
    eapply find_one_is_Some.
    + apply elem_of_app. right. apply list_elem_of_here.
    + unfold matches. cbn [forallb fst snd matches_cond].
      rewrite inserted_fetched_lookup.
      rewrite bool_decide_eq_true_2 by key_in.
      unfold field_eq. by rewrite bson_eq_refl.
Qed.

Lemma for_each_save_again (l : list value) (col col2 added : collection) :
  col2 = (for_each fetch_dispatches.save l col).1 ++ added →
  for_each fetch_dispatches.save l col2
  = (col2, (for_each fetch_dispatches.save l col).2).
Proof.
  revert col added. induction l as [|v l IH]; intros col added Hcol2; [done|].
  simpl in *. unfold fetch_dispatches.save at 1 3.
  unfold fetch_dispatches.save at 1 in Hcol2.
  destruct v as [| | | | | | | |d]; try done.
  destruct (for_each_save_extends l
              (fetch_dispatches.save_dispatch_to_mongo d col)) as [a1 Ha1].
  assert (known col2 d) as Hk.
  { rewrite Hcol2, Ha1, <- app_assoc. apply known_mono, save_known. }
  rewrite (save_noop d col2 Hk). by apply (IH _ added).
Qed.

Lemma pages_again requests_get fuel start_date end_date page
    (col col2 added : collection) :
  col2 = (fetch_dispatches.pages requests_get fuel start_date end_date page
            col).1 ++ added →
  fetch_dispatches.pages requests_get fuel start_date end_date page col2
  = (col2, (fetch_dispatches.pages requests_get fuel start_date end_date page
              col).2).
Proof.
  revert page col added.
  induction fuel as [|fuel IH]; intros page col added Hcol2; [done|].
  simpl in *.
  destruct (requests_get _ _ _) as [[status_code data]|]; [|done].
  destruct (status_code =? 200); [|done].
  destruct data as [| | | | | | | |d]; try done.
  destruct (negb _); [done|].
  destruct (get_default "response" (VList []) d) as [| | | | | | |l|];
    try done.
  pose proof (for_each_save_again l col col2) as Hsave.
  destruct (for_each fetch_dispatches.save l col) as [col' [[]|e]] eqn:Hfe;
    simpl in *.
  - destruct (pages_extends requests_get fuel start_date end_date (page + 1)
                col') as [a1 Ha1].
    rewrite (Hsave (a1 ++ added)) by by rewrite Hcol2, Ha1, <- app_assoc.
    by apply (IH _ _ added).
  - by rewrite (Hsave added).
Qed.

(** The fetch of a range, run again with the same answers of the API on
    the collection that the first run left, stores nothing: the
    collection is as the first run left it, and the run ends as the first
    one did. *)
Theorem second_fetch_stores_nothing requests_get fuel start_date end_date
    (col : collection) :
  fetch_dispatches.fetch_dispatches_by_dates requests_get fuel start_date
    end_date
    (fetch_dispatches.fetch_dispatches_by_dates requests_get fuel start_date
       end_date col).1
  = fetch_dispatches.fetch_dispatches_by_dates requests_get fuel start_date
      end_date col.
Proof.
  unfold fetch_dispatches.fetch_dispatches_by_dates.
  rewrite (pages_again requests_get fuel start_date end_date 1 col _ []);
    [|by rewrite app_nil_r].
  by destruct (fetch_dispatches.pages _ _ _ _ _ _).
Qed.





(** ** The scheduler and its failures *)

(** [schedule_jobs] stops at the first entry of the table that cannot be
    scheduled, because a key is missing, the module cannot be imported or
    has no [run], the trigger is refused, or [add_job] refuses the job, as
    it does when [run] needs arguments: the exception leaves the function,
    the jobs of the entries before it are in the scheduler, in the order
    of the table, and no entry after it is looked at. *)
Theorem schedule_jobs_stops_at_first_failure callable trigger import_module
    IntervalTrigger CronTrigger_from_crontab job_check (pre : list dict)
    (bad : dict) (e : exn) (jobs : list (orchestrator.Job callable trigger)) :
  Forall2 (λ job_cfg job,
             orchestrator.job_of callable trigger import_module
               IntervalTrigger CronTrigger_from_crontab job_cfg = Ok job ∧
             job_check job = Ok tt)
    pre jobs →
  (orchestrator.job_of callable trigger import_module IntervalTrigger
     CronTrigger_from_crontab bad = Raise e ∨
   ∃ job, orchestrator.job_of callable trigger import_module IntervalTrigger
            CronTrigger_from_crontab bad = Ok job ∧
          job_check job = Raise e) →
  ∀ post,
    orchestrator.schedule_jobs callable trigger import_module IntervalTrigger
      CronTrigger_from_crontab job_check (pre ++ bad :: post) []
    = (jobs, Raise e).
Proof.
  intros Hpre Hbad post.
  assert (∀ scheduler,
            orchestrator.schedule_jobs callable trigger import_module
              IntervalTrigger CronTrigger_from_crontab job_check
              (pre ++ bad :: post) scheduler
            = (scheduler ++ jobs, Raise e)) as Hgen.
  { unfold orchestrator.schedule_jobs, orchestrator.add_job.
    induction Hpre as [|cfg job pre jobs [Hjob Hchk] _ IH]; intros scheduler;
      simpl.
    - rewrite app_nil_r.
      destruct Hbad as [->|(job & -> & ->)]; done.
    - rewrite Hjob, Hchk, IH. by rewrite <- app_assoc. }
  by rewrite Hgen.
Qed.

(** In the sample table the [run] of the second module needs a date, and
    [add_job] refuses it: the first job is scheduled, the third entry is
    not looked at. *)
Lemma schedule_jobs_stops_at_first_failure_witness :
  orchestrator.schedule_jobs (list string) value sample_modules (λ s, Ok s)
    (λ c, Ok c) sample_job_check sample_bad_JOBS []
  = ([{| orchestrator.func := [];
         orchestrator.job_trigger := VStr "0 6 1 1 1";
         orchestrator.id := VStr "substatus";
         orchestrator.max_instances := 1;
         orchestrator.coalesce := true |}], Raise ValueError).
Proof.
  apply (schedule_jobs_stops_at_first_failure (list string) value
           sample_modules (λ s, Ok s) (λ c, Ok c) sample_job_check
           [[("id", VStr "substatus"); ("module", VStr "backfill_substatus");
             ("cron", VStr "0 6 1 1 1")]]
           [("id", VStr "get_routes"); ("module", VStr "jobs.get_routes");
            ("cron", VStr "0 5 1 1 1")]
           ValueError).
  - by repeat constructor.
  - right. by eexists.
Defined.

(** ** The client of the API *)

Lemma rstrip_slash_app_slash (s : string) :
  dispatchtrack_client.rstrip_slash (String.append s "/")
  = dispatchtrack_client.rstrip_slash s.
Proof. induction s as [|c s IH]; simpl; [done|]. by rewrite IH. Qed.

Lemma append_slash_not_empty (t : string) : String.append t "/" ≠ "".
Proof. by destruct t. Qed.

Lemma rstrip_slash_no_trailing (s t : string) :
  dispatchtrack_client.rstrip_slash s ≠ String.append t "/".
Proof.
  revert t. induction s as [|c s IH]; intros t; simpl.
  - intros E. by apply (append_slash_not_empty t).
  - destruct (dispatchtrack_client.rstrip_slash s) as [|c' r] eqn:Hr.
    + destruct (Ascii.eqb_spec c "/") as [->|Hc].
      * intros E. by apply (append_slash_not_empty t).
      * destruct t as [|c0 t]; simpl; [by intros [= ->]|].
        intros [= -> E]. by apply (append_slash_not_empty t).
    + destruct t as [|c0 t]; simpl; [done|].
      intros [= -> E]. by apply (IH t).
Qed.

(** The client does not mind the slashes at the end of the base URL: a
    base URL and the same with one more slash build the same client; the
    base URL that the client keeps does not end with a slash, so that the
    URL of the trucks has one slash before [trucks]; and [get_vehicles]
    returns a body only when the answer has no error status (from 400 to
    599) and its body is decoded. *)
Theorem client_normalises_base_url default_headers session_get
    (base_url token : string) (params : dict) :
  dispatchtrack_client.__init__ default_headers
    (Some (String.append base_url "/")) (Some token)
  = dispatchtrack_client.__init__ default_headers (Some base_url) (Some token) ∧
  ∃ self,
    dispatchtrack_client.__init__ default_headers (Some base_url) (Some token)
      = Ok self ∧
    (∀ t, dispatchtrack_client.base_url self ≠ String.append t "/") ∧
    ∀ body, dispatchtrack_client.get_vehicles session_get self params
              = Ok body →
      ∃ resp,
        session_get
          (String.append (dispatchtrack_client.base_url self) "/trucks")
          (dispatchtrack_client.session_headers self) params = Ok resp ∧
        dispatchtrack_client.json resp = Ok body ∧
        (dispatchtrack_client.status_code resp < 400 ∨
         600 <= dispatchtrack_client.status_code resp).
Proof.
  unfold dispatchtrack_client.__init__.
  split; [by rewrite rstrip_slash_app_slash|].
  eexists. split; [reflexivity|]. cbn [dispatchtrack_client.base_url].
  split; [intros t; apply rstrip_slash_no_trailing|].
  intros body. unfold dispatchtrack_client.get_vehicles.
  cbn [dispatchtrack_client.base_url dispatchtrack_client.session_headers].
  destruct (session_get _ _ params) as [resp|e]; simpl; [|done].
  destruct (dispatchtrack_client.status_code resp =? 401); [done|].
  unfold dispatchtrack_client.raise_for_status.
  destruct (andb _ _) eqn:Hs; simpl; [done|].
  intros Hj. exists resp. split; [done|]. split; [done|].
  apply andb_false_iff in Hs as [Hs|Hs]; [left|right]; lia.
Qed.

(** ** The count of the order-type job *)

Lemma tipo_orden_count_fold (cursor : list (nat * dict)) (st : collection * Z) :
  (fold_left backfill_tipo_orden_from_tags.visit cursor st).2 =
    st.2 + Z.of_nat
             (length (List.filter
                (λ doc : nat * dict,
                   negb (is_None
                           (backfill_tipo_orden_from_tags.extract_tipo_orden
                              (get_default "tags" (VList []) doc.2))))
                cursor)).
Proof.
  revert st. induction cursor as [|[j dj] cursor IH]; intros st.
  - simpl. lia.
  - cbn [fold_left List.filter]. rewrite IH.
    unfold backfill_tipo_orden_from_tags.visit at 1. cbn [fst snd].
    destruct (is_None _); cbn [negb snd length]; lia.
Qed.

(** The count that the order-type job of the whole collection returns is
    the number of documents that gained a [tipo_orden] field. *)
Theorem tipo_orden_count_is_documents_gained (col : collection) :
  (backfill_tipo_orden_from_tags.run col).2 =
    count_with "tipo_orden" (backfill_tipo_orden_from_tags.run col).1
    - count_with "tipo_orden" col.
Proof.
  unfold backfill_tipo_orden_from_tags.run.
  rewrite tipo_orden_run_fold, tipo_orden_count_fold. cbn [fst snd].
  set (q := [("tipo_orden", CExists false)]).
  assert (∀ x, matches q x = negb (has_key "tipo_orden" x)) as Hq.
  { intros x. unfold q, matches, has_key. simpl.
    by destruct (dict_lookup "tipo_orden" x). }
  rewrite fold_alter_find_fmap.
  pose proof (length_filter_find
                (λ x, negb (is_None
                              (backfill_tipo_orden_from_tags.extract_tipo_orden
                                 (get_default "tags" (VList []) x)))) q col)
    as Hlen.
  cbv beta in Hlen. rewrite Hlen. clear Hlen. simpl.
  apply count_after_rewrite; intros x; rewrite Hq;
    unfold tipo_orden_rewrite;
    destruct (has_key "tipo_orden" x) eqn:Hx; try done.
  cbn [negb andb orb].
  destruct (is_None _) eqn:Hn; cbn [negb]; [done|].
  unfold has_key, apply_set. simpl. by rewrite dict_lookup_set_eq.
Qed.

(** ** A second ingestion of the listing *)

Lemma matches_field_apply_set fld q sets (x : dict) :
  fld ∉ sets.*1 →
  matches [(fld, q)] (apply_set sets x) = matches [(fld, q)] x.
Proof.
  intros Hf. unfold matches. cbn [forallb fst snd].
  by rewrite dict_lookup_apply_set_notin.
Qed.

Section route_upserts.
Context `{PyRuntime}.
Variables (date_str : string) (page now : Z).

Lemma route_upsert_keeps k route op (col : collection) :
  route_op date_str page now route = Some op →
  stored_route k col → stored_route k (update_one op col).
Proof.
  intros (key & Hkey & ->)%route_op_shape (x & [j Hj]%list_elem_of_lookup & Hm).
  unfold update_one. cbn [uo_filter uo_set uo_upsert].
  destruct (find_one _ col) as [[j' x']|] eqn:Hf.
  - unfold update_by_id. destruct (decide (j' = j)) as [->|Hne].
    + eexists. split.
      * apply list_elem_of_lookup. exists j.
        by rewrite list_lookup_alter_eq, Hj.
      * rewrite matches_field_apply_set by key_notin. done.
    + exists x. split; [|done]. apply list_elem_of_lookup. exists j.
      by rewrite list_lookup_alter_ne.
  - exists x. split; [|done]. apply elem_of_app. left.
    apply list_elem_of_lookup. eauto.
Qed.

Lemma route_upsert_stores route op (col : collection) :
  route_op date_str page now route = Some op →
  ∃ key, uo_filter op = [("route_key", CEq (VStr key))] ∧
         stored_route key (update_one op col).
Proof.
  intros (key & Hkey & ->)%route_op_shape. exists key. split; [done|].
  unfold update_one.
  cbn [uo_filter uo_set uo_setOnInsert uo_upsert filter_fields omap list_omap
       fst snd].
  destruct (find_one _ col) as [[j x]|] eqn:Hf.
  - apply find_one_Some in Hf as (Hj & Hm & _). unfold update_by_id.
    eexists. split.
    + apply list_elem_of_lookup. exists j.
      by rewrite list_lookup_alter_eq, Hj.
    + rewrite matches_field_apply_set by key_notin. done.
  - eexists. split; [apply elem_of_app; right; apply list_elem_of_here|].
    rewrite !matches_field_apply_set by key_notin.
    unfold matches. simpl. by rewrite String.eqb_refl.
Qed.

Lemma route_upsert_length op key (col : collection) :
  uo_filter op = [("route_key", CEq (VStr key))] →
  stored_route key col → length (update_one op col) = length col.
Proof.
  intros Hop (x & Hx & Hm). unfold update_one. rewrite Hop.
  destruct (find_one_is_Some _ _ x Hx Hm) as [[j x'] ->].
  apply length_alter.
Qed.

(** The upserts of a page store every key of the page and forget none. *)
Lemma route_bulk_stores (routes : list dict) (col : collection) :
  let col' := bulk_write (omap (route_op date_str page now) routes) col in
  (∀ k, stored_route k col → stored_route k col') ∧
  (∀ op, op ∈ omap (route_op date_str page now) routes →
     ∃ key, uo_filter op = [("route_key", CEq (VStr key))] ∧
            stored_route key col').
Proof.
  revert col. induction routes as [|route routes IH]; intros col; simpl.
  - split; [done|]. by intros op []%not_elem_of_nil.
  - destruct (route_op date_str page now route) as [op|] eqn:Hop; [|apply IH].
    cbn [bulk_write fold_left].
    destruct (IH (update_one op col)) as [Hmono Hall]. split.
    + intros k Hk. apply Hmono. by eapply route_upsert_keeps.
    + intros op' [->|Hin]%elem_of_cons; [|by apply Hall].
      destruct (route_upsert_stores route op col Hop) as (key & Hf & Hs).
      exists key. split; [done|]. by apply Hmono.
Qed.

End route_upserts.

(** The keys of the operations of a page do not depend on the time. *)
Lemma route_op_filter `{PyRuntime} date_str page now now' route op :
  route_op date_str page now route = Some op →
  ∃ op', route_op date_str page now' route = Some op' ∧
         uo_filter op' = uo_filter op.
Proof.
  unfold route_op.
  destruct (_extract_route_key route) as [[|c k]|]; [done| |done].
  intros [= <-]. by eexists.
Qed.

(** A page whose keys are all stored adds no route. *)
Lemma route_bulk_length `{PyRuntime} date_str page now (routes : list dict)
    (col : collection) :
  (∀ op, op ∈ omap (route_op date_str page now) routes →
     ∃ key, uo_filter op = [("route_key", CEq (VStr key))] ∧
            stored_route key col) →
  length (bulk_write (omap (route_op date_str page now) routes) col)
  = length col.
Proof.
  revert col. induction routes as [|route routes IH]; intros col Hall;
    [done|].
  cbn [omap list_omap] in *.
  destruct (route_op date_str page now route) as [op|] eqn:Hop;
    [|by apply IH].
  cbn [bulk_write fold_left].
  destruct (Hall op) as (key & Hf & Hs); [apply list_elem_of_here|].
  fold (bulk_write (omap (route_op date_str page now) routes)
          (update_one op col)).
  rewrite IH.
  - by apply (route_upsert_length op key).
  - intros op' Hin. destruct (Hall op') as (key' & Hf' & Hs');
      [by apply list_elem_of_further|].
    exists key'. split; [done|]. by eapply route_upsert_keeps.
Qed.

Lemma upsert_page_bulk `{PyRuntime} fetch (col : collection) date_str page
    now :
  _upsert_routes_for_page fetch col date_str page now =
    match fetch date_str page with
    | Raise e => (col, Raise e)
    | Ok routes =>
        (bulk_write (omap (route_op date_str page now) routes) col,
         Ok (Z.of_nat (length (List.filter keyed routes))))
    end.
Proof.
  unfold _upsert_routes_for_page.
  destruct (fetch date_str page) as [[|r routes]|]; try done.
  rewrite page_ops_spec, app_nil_l, Z.add_0_l.
  by destruct (omap _ (r :: routes)).
Qed.

(** The second ingestion of a page adds nothing when the keys that the
    first one stored are still stored. *)
Lemma upsert_page_again `{PyRuntime} fetch (col col' : collection) date_str
    page now now' :
  (∀ k, stored_route k (_upsert_routes_for_page fetch col date_str page now).1
        → stored_route k col') →
  length (_upsert_routes_for_page fetch col' date_str page now').1
  = length col' ∧
  (_upsert_routes_for_page fetch col' date_str page now').2
  = (_upsert_routes_for_page fetch col date_str page now).2 ∧
  ∀ k, stored_route k col' →
       stored_route k (_upsert_routes_for_page fetch col' date_str page now').1.
Proof.
  rewrite !upsert_page_bulk.
  destruct (fetch date_str page) as [routes|e]; [|done]. cbn [fst snd].
  intros Hcover. split; [|split; [done|]].
  - apply route_bulk_length. intros op' (route & Hr & Hop')%list_elem_of_omap.
    destruct (route_op_filter date_str page now' now route op' Hop')
      as (op & Hop & Hf).
    destruct (route_bulk_stores date_str page now routes col) as [_ Hall].
    destruct (Hall op) as (key & Hk & Hs).
    { apply list_elem_of_omap. eauto. }
    exists key. split; [congruence|]. by apply Hcover.
  - apply route_bulk_stores.
Qed.

Lemma upsert_page_keeps `{PyRuntime} fetch (col : collection) date_str page
    now k :
  stored_route k col →
  stored_route k (_upsert_routes_for_page fetch col date_str page now).1.
Proof.
  rewrite upsert_page_bulk. destruct (fetch date_str page); [|done].
  apply route_bulk_stores.
Qed.

Lemma scan_keeps `{PyRuntime} fetch fuel (col : collection) date_str page
    clock k :
  stored_route k col →
  stored_route k (scan fetch fuel col date_str page clock).1.
Proof.
  revert col page. induction fuel as [|fuel IH]; intros col page Hk; [done|].
  simpl.
  pose proof (upsert_page_keeps fetch col date_str page (clock page) k Hk)
    as Hp.
  destruct (_upsert_routes_for_page _ _ _ _ _) as [col' [count|e]]; [|done].
  destruct (count =? 0); [done|]. by apply IH.
Qed.

Lemma scan_again `{PyRuntime} fetch fuel date_str clock clock' :
  ∀ page (col col' : collection),
  (∀ k, stored_route k (scan fetch fuel col date_str page clock).1 →
        stored_route k col') →
  length (scan fetch fuel col' date_str page clock').1 = length col' ∧
  (scan fetch fuel col' date_str page clock').2
  = (scan fetch fuel col date_str page clock).2.
Proof.
  induction fuel as [|fuel IH]; intros page col col' Hcover; [done|].
  simpl in *.
  destruct (upsert_page_again fetch col col' date_str page (clock page)
              (clock' page)) as (Hlen & Hres & Hmono).
  { intros k Hk. apply Hcover.
    destruct (_upsert_routes_for_page fetch col date_str page (clock page))
      as [c1 [count|e]]; [|done].
    destruct (count =? 0); [done|]. by apply scan_keeps. }
  destruct (_upsert_routes_for_page fetch col date_str page (clock page))
    as [c1 [count|e]];
    destruct (_upsert_routes_for_page fetch col' date_str page (clock' page))
      as [c1' [count'|e']]; simpl in *; simplify_eq; [|done].
  destruct (count =? 0); [done|].
  destruct (IH (page + 1) c1 c1') as [Hl Hr].
  - intros k Hk. by apply Hmono, Hcover.
  - split; [congruence|done].
Qed.

(** A run of the ingestion on the collection that a first run left, with
    the same answers of the API, adds no route, at whatever time it runs,
    and it ends as the first run did: the routes of the listing are
    upserted under their keys, which the first run stored. *)
Theorem second_ingestion_adds_no_route `{PyRuntime} fetch fuel
    (routes_col : collection) date_str specific_page clock clock' :
  let first := get_routes.run fetch fuel routes_col date_str specific_page
                 clock in
  let second := get_routes.run fetch fuel first.1 date_str specific_page
                  clock' in
  length second.1 = length first.1 ∧ second.2 = first.2.
Proof.
  unfold get_routes.run. destruct specific_page as [page|].
  - pose proof (upsert_page_again fetch routes_col
                  (_upsert_routes_for_page fetch routes_col date_str page
                     (clock page)).1 date_str page (clock page) (clock' page))
      as Hagain.
    destruct (_upsert_routes_for_page fetch routes_col date_str page
                (clock page)) as [c1 r1] eqn:E1. cbn [fst snd] in Hagain.
    destruct Hagain as (Hlen & Hres & _); [done|].
    assert ((match r1 with
             | Ok _ => (c1, Some (Ok tt))
             | Raise e => (c1, Some (Raise e))
             end).1 = c1) as Hc1 by by destruct r1.
    cbv zeta. rewrite Hc1.
    destruct (_upsert_routes_for_page fetch c1 date_str page (clock' page))
      as [c2 r2]. cbn [fst snd] in *. subst r2.
    by destruct r1.
  - by apply scan_again.
Qed.

(** ** From the fetch to the enriched dispatch *)







